(** * Tic-Tac-Toe engine (src/tictactoe.js): shallow embedding and properties

    The engine of [src/tictactoe.js] is embedded function by function:
    [createGame], [addPlayer], [makeMove], [_isPlayerWin] and [_isDraw].

    Data model.
    - A JavaScript number is the rational it denotes ([Q]); every finite
      double is one.  Comparisons are exact.  The two arithmetic
      operations of the code, the product in [createGame] and the sum in
      [addPlayer], round their exact result to the nearest double, ties to
      even ([fl]); overflow is not modelled, the operands here being at
      most a time value and an identifier plus one.  NaN and the
      infinities are not modelled.
    - Game identifiers are integers ([Z]): [createGame] returns
      [Math.floor (...)].  Board coordinates are numbers; integer
      coordinates are written as integers ([inject_Z] is a coercion).
    - [games] (a JS object used as a dictionary) is a [gmap Z Game].
    - Reading a property of [undefined] throws a [TypeError]; this is the
      [Throw] completion of the monad [M].
    - [Date.now ()] and [Math.random ()] are explicit arguments. *)

From Stdlib Require Import ZArith QArith Qround Qpower Lqa Lia Bool List.
From stdpp Require Import base option list gmap.

Open Scope Z_scope.

(** ** JavaScript values *)

Abbreviation number := Q.

(** A cell of a board or of the scratch matrix of [_isPlayerWin]: [null],
    a number, or [undefined] (what reading past the end of an array gives). *)
Inductive value :=
  | Null
  | Undefined
  | Num (n : number).

(** [a === b] *)
Definition strict_eq (a b : value) : bool :=
  match a, b with
  | Null, Null => true
  | Undefined, Undefined => true
  | Num x, Num y => Qeq_bool x y
  | _, _ => false
  end.

(** Comparisons of numbers: [a === b], [a <= b], [a > b], [a < b]. *)
Definition num_eq (a b : number) : bool := Qeq_bool a b.
Definition num_le (a b : number) : bool := Qle_bool a b.
Definition num_gt (a b : number) : bool := negb (Qle_bool a b).
Definition num_lt (a b : number) : bool := negb (Qle_bool b a).

(** An integer used as a number. *)
Coercion inject_Z : Z >-> Q.

(** ** Arithmetic on doubles

    [fl x] is the double nearest to [x], ties to the even significand:
    [binade x] is the exponent [e] with [2^e <= x < 2^(e+1)], the doubles
    around [x] are the multiples of [ulp x = 2^(max e (-1022) - 52)], and
    [roundEven] picks the nearest multiple.  The result is a fraction in
    lowest terms. *)
Definition roundEven (y : Q) : Z :=
  let f := Qfloor y in
  match (y - inject_Z f ?= 1 # 2)%Q with
  | Lt => f
  | Gt => f + 1
  | Eq => if Z.even f then f else f + 1
  end.

Definition binade (x : Q) : Z :=
  let e := Z.log2 (Qnum x) - Z.log2 (Z.pos (Qden x)) in
  if Qle_bool (2 ^ e) x then e else e - 1.

Definition ulp (x : Q) : Q := (2 ^ (Z.max (binade x) (-1022) - 52))%Q.

Definition fl (x : Q) : Q :=
  Qred match Qnum x with
       | 0 => 0%Q
       | Z.pos _ => (inject_Z (roundEven (x / ulp x)) * ulp x)%Q
       | Z.neg _ => (- (inject_Z (roundEven (- x / ulp (- x))) * ulp (- x)))%Q
       end.

(** [a + b] and [a * b] *)
Definition num_add (a b : number) : number := fl (a + b).
Definition num_mul (a b : number) : number := fl (a * b).

(** ** Result codes (lines 4-10) *)

Definition GAME_DOESNT_EXIST : number := (-2)%Q.
Definition GAME_NOT_STARTED : number := (-3)%Q.
Definition GAME_ENDED : number := (-4)%Q.
Definition GAME_ONGOING : number := (-5)%Q.
Definition PLAYER_DOESNT_EXIST : number := (-6)%Q.
Definition WRONG_TURN : number := (-7)%Q.
Definition INVALID_LOCATION : number := (-8)%Q.

(** ** Games *)

Abbreviation Board := (list (list value)).

Record Game := mkGame {
  players : number * number;
  board : Board;
  activePlayer : number;
  isEnded : bool
}.

Definition set_players (f : number * number → number * number) (g : Game) : Game :=
  mkGame (f (players g)) (board g) (activePlayer g) (isEnded g).
Definition set_board (b : Board) (g : Game) : Game :=
  mkGame (players g) b (activePlayer g) (isEnded g).
Definition set_activePlayer (p : number) (g : Game) : Game :=
  mkGame (players g) (board g) p (isEnded g).
Definition set_isEnded (e : bool) (g : Game) : Game :=
  mkGame (players g) (board g) (activePlayer g) e.

(** [players.includes (playerId)] *)
Definition includes (ps : number * number) (playerId : number) : bool :=
  num_eq ps.1 playerId || num_eq ps.2 playerId.

(** The registry [games]. *)
Abbreviation Games := (gmap Z Game).

(** ** Completions and the state monad of the engine *)

Inductive exn := TypeError.

Inductive completion (A : Type) :=
  | Normal (a : A)
  | Throw (e : exn).
Arguments Normal {A} a.
Arguments Throw {A} e.

Definition M (A : Type) : Type := Games → completion A * Games.

Definition ret {A} (a : A) : M A := λ s, (Normal a, s).
Definition throw {A} (e : exn) : M A := λ s, (Throw e, s).
Definition bind {A B} (m : M A) (k : A → M B) : M B :=
  λ s, match m s with
       | (Normal a, s') => k a s'
       | (Throw e, s') => (Throw e, s')
       end.

Notation "x <~ m ;; k" := (bind m (λ x, k))
  (at level 100, m at next level, right associativity, only parsing).
Notation "m ;;; k" := (bind m (λ _, k))
  (at level 100, right associativity, only parsing).

(** [games[gameId]] followed by a property access: a [TypeError] when the
    registry has no such key. *)
Definition game (gameId : Z) : M Game :=
  λ s, match s !! gameId with
       | Some g => (Normal g, s)
       | None => (Throw TypeError, s)
       end.

(** [games[gameId].field = ...] *)
Definition update (gameId : Z) (f : Game → Game) : M unit :=
  λ s, match s !! gameId with
       | Some g => (Normal tt, <[gameId := f g]> s)
       | None => (Throw TypeError, s)
       end.

(** ** createGame (lines 19-26) *)

Definition emptyBoard : Board := replicate 3 (replicate 3 Null).

Definition newGame : Game :=
  {| players := ((-1)%Q, (-1)%Q); board := emptyBoard;
     activePlayer := 0%Q; isEnded := false |}.

(** [now] is the value of [Date.now ()], [rnd] that of [Math.random ()]. *)
Definition createGame (now : Z) (rnd : number) : M Z :=
  let gameId := Qfloor (num_mul (inject_Z now) rnd) in
  λ s, (Normal gameId, <[gameId := newGame]> s).

(** ** addPlayer (lines 38-59) *)

Definition addPlayer (gameId : Z) (rnd : number) : M number :=
  if gameId <? 201 then ret GAME_DOESNT_EXIST else
  g <~ game gameId ;;
  if isEnded g then ret GAME_ENDED else
  if num_gt (players g).1 0 && num_gt (players g).2 0 then ret GAME_ONGOING else
  let id := num_add (inject_Z gameId) rnd in
  (if num_le (players g).1 0
   then update gameId (set_players (λ ps, (id, ps.2)))
   else update gameId (set_players (λ ps, (ps.1, id)))) ;;;
  ret id.

(** ** Arrays *)

(** [arr[i]]: [None] stands for [undefined]. *)
Definition index {A} (arr : list A) (i : Z) : option A :=
  if i <? 0 then None else arr !! Z.to_nat i.

(** [arr[i][j]] where the row [arr[i]] is known to exist. *)
Definition cell (arr : Board) (i j : Z) : value :=
  match index arr i with
  | Some row => default Undefined (index row j)
  | None => Undefined
  end.

(** [arr[i][j]] in general: indexing the missing row [undefined] throws. *)
Definition readCell (arr : Board) (i j : Z) : M value :=
  match index arr i with
  | Some row => ret (default Undefined (index row j))
  | None => throw TypeError
  end.

(** [arr[i][j] = v] for an existing cell. *)
Definition writeCell (arr : Board) (i j : Z) (v : value) : Board :=
  alter (λ row, <[Z.to_nat j := v]> row) (Z.to_nat i) arr.

(** The array index that a number denotes as a property key: [arr[n]] is
    an element only for an integer [n]. *)
Definition asIndex (n : number) : option Z :=
  if Qeq_bool n (inject_Z (Qfloor n)) then Some (Qfloor n) else None.

(** [arr[n]] for a number [n]: [None] stands for [undefined]. *)
Definition at_ {A} (arr : list A) (n : number) : option A :=
  match asIndex n with
  | Some i => index arr i
  | None => None
  end.

(** [arr[i][j]] for numbers [i], [j]: indexing the missing row throws. *)
Definition readAt (arr : Board) (i j : number) : M value :=
  match at_ arr i with
  | Some row => ret (default Undefined (at_ row j))
  | None => throw TypeError
  end.

(** [arr[i][j] = v] for an existing cell. *)
Definition writeAt (arr : Board) (i j : number) (v : value) : Board :=
  match asIndex i, asIndex j with
  | Some i, Some j => writeCell arr i j v
  | _, _ => arr
  end.

(** [for (let k = 0; k < 3; k++) body] over a loop-carried state. *)
Definition for3 {S} (body : Z → S → M S) (s : S) : M S :=
  s <~ body 0 s ;; s <~ body 1 s ;; body 2 s.

(** ** _isPlayerWin (lines 129-151) *)

(** Body of the inner loop of lines 132-138; the loop-carried state is
    [matrix] and [counter]. *)
Definition fillCell (b : Board) (i j : Z) (st : Board * Z) : M (Board * Z) :=
  let counter := st.2 + 1 in
  v <~ readCell b i j ;;
  let matrix := writeCell st.1 i j v in
  let matrix :=
    writeCell matrix i j
      (if strict_eq (cell matrix i j) Null then Num (inject_Z counter)
       else cell matrix i j) in
  ret (matrix, counter).

Definition fillMatrix (b : Board) : M Board :=
  st <~ for3 (λ i, for3 (λ j, fillCell b i j)) (emptyBoard, 0) ;;
  ret st.1.

(** [matrix[a] === matrix[b] && matrix[b] === matrix[c] && matrix[c] === playerID] *)
Definition lineAt (matrix : Board) (playerID : number) (a b c : Z * Z) : bool :=
  strict_eq (cell matrix a.1 a.2) (cell matrix b.1 b.2)
  && strict_eq (cell matrix b.1 b.2) (cell matrix c.1 c.2)
  && strict_eq (cell matrix c.1 c.2) (Num playerID).

Definition checkLines (matrix : Board) (playerID : number) : bool :=
  if existsb (λ i,
       let row := lineAt matrix playerID (i, 0) (i, 1) (i, 2) in
       let column := lineAt matrix playerID (0, i) (1, i) (2, i) in
       column || row) [0; 1; 2]
  then true
  else if lineAt matrix playerID (0, 0) (1, 1) (2, 2) then true
  else lineAt matrix playerID (0, 2) (1, 1) (2, 0).

Definition _isPlayerWin (playerID : number) (gameId : Z) : M bool :=
  g <~ game gameId ;;
  matrix <~ fillMatrix (board g) ;;
  ret (checkLines matrix playerID).

(** ** _isDraw (lines 153-155) *)

Definition _isDraw (gameId : Z) : M bool :=
  g <~ game gameId ;;
  ret (forallb (λ element, forallb (λ v, negb (strict_eq v Null)) element)
         (board g)).

(** ** makeMove (lines 80-127) *)

Definition makeMove (gameId : Z) (playerId boardX boardY : number)
  : M number :=
  if gameId <? 201 then ret GAME_DOESNT_EXIST else
  g <~ game gameId ;;
  if isEnded g then ret GAME_ENDED else
  if num_le (players g).1 0 || num_le (players g).2 0
  then ret GAME_NOT_STARTED else
  if negb (includes (players g) playerId) then ret PLAYER_DOESNT_EXIST else
  if num_lt boardX 0 || num_gt boardX 2 || num_lt boardY 0 || num_gt boardY 2
  then ret INVALID_LOCATION else
  (if num_eq (activePlayer g) 0
   then update gameId (set_activePlayer (players g).1)
   else ret tt) ;;;
  g <~ game gameId ;;
  if negb (num_eq playerId (activePlayer g)) then ret WRONG_TURN else
  c <~ readAt (board g) boardY boardX ;;
  if negb (strict_eq c Null) then ret INVALID_LOCATION else
  update gameId
    (λ g, set_board (writeAt (board g) boardY boardX (Num playerId)) g) ;;;
  update gameId
    (λ g, set_activePlayer
            (if num_eq (players g).1 playerId then (players g).2
             else (players g).1) g) ;;;
  win <~ _isPlayerWin playerId gameId ;;
  if win then update gameId (set_isEnded true) ;;; ret playerId else
  draw <~ _isDraw gameId ;;
  if draw then
    update gameId (set_isEnded true) ;;;
    g <~ game gameId ;;
    ret (activePlayer g)
  else ret GAME_ONGOING.

(** ** The operations seen from one game

    Every access of [addPlayer] and [makeMove] goes through
    [games[gameId]], so past the guard [gameId < 201] a call is a function
    of that one game.  [addPlayerOn] and, for integer coordinates,
    [makeMoveOn] are these functions; [addPlayer_on] and [makeMove_on]
    below relate them to the operations.  [makeMoveOff] is the function
    for the other coordinates ([makeMove_off]). *)

Definition seated (p : number) : bool := num_gt p 0.

Definition addPlayerOn (gameId : Z) (rnd : number) (g : Game) : number * Game :=
  if isEnded g then (GAME_ENDED, g) else
  if seated (players g).1 && seated (players g).2 then (GAME_ONGOING, g) else
  let id := num_add (inject_Z gameId) rnd in
  (id, if num_le (players g).1 0
       then set_players (λ ps, (id, ps.2)) g
       else set_players (λ ps, (ps.1, id)) g).

(** The scratch matrix of [_isPlayerWin] for a board. *)
Definition filled (b : Board) : Board :=
  match (fillMatrix b ∅).1 with
  | Normal matrix => matrix
  | Throw _ => []
  end.

Definition full (b : Board) : bool :=
  forallb (λ element, forallb (λ v, negb (strict_eq v Null)) element) b.

Definition inRange (boardX boardY : Z) : bool :=
  negb ((boardX <? 0) || (boardX >? 2) || (boardY <? 0) || (boardY >? 2)).

(** The game once the turn order is fixed (lines 100-102). *)
Definition fixTurn (g : Game) : Game :=
  if num_eq (activePlayer g) 0 then set_activePlayer (players g).1 g else g.

(** The game after the mark is written and the turn has passed
    (lines 112-114). *)
Definition place (playerId : number) (boardX boardY : Z) (g : Game) : Game :=
  let g := fixTurn g in
  let g := set_board (writeCell (board g) boardY boardX (Num playerId)) g in
  set_activePlayer
    (if num_eq (players g).1 playerId then (players g).2 else (players g).1) g.

Definition makeMoveOn (playerId : number) (boardX boardY : Z) (g : Game)
  : number * Game :=
  if isEnded g then (GAME_ENDED, g) else
  if negb (seated (players g).1 && seated (players g).2)
  then (GAME_NOT_STARTED, g) else
  if negb (includes (players g) playerId) then (PLAYER_DOESNT_EXIST, g) else
  if negb (inRange boardX boardY) then (INVALID_LOCATION, g) else
  if negb (num_eq playerId (activePlayer (fixTurn g)))
  then (WRONG_TURN, fixTurn g) else
  if negb (strict_eq (cell (board g) boardY boardX) Null)
  then (INVALID_LOCATION, fixTurn g) else
  let g' := place playerId boardX boardY g in
  if checkLines (filled (board g')) playerId
  then (playerId, set_isEnded true g') else
  if full (board g') then (activePlayer g', set_isEnded true g') else
  (GAME_ONGOING, g').

(** The range check of lines 96-98 passes. *)
Definition onBoard (boardX boardY : number) : bool :=
  negb (num_lt boardX 0 || num_gt boardX 2
        || num_lt boardY 0 || num_gt boardY 2).

(** [makeMove] seen from one game when a coordinate is not an integer: no
    cell is read or written.  Past the turn check, [board[boardY]] is
    [undefined] for such a [boardY] and reading [undefined[boardX]]
    throws; for an integer [boardY] and such a [boardX],
    [board[boardY][boardX]] is [undefined], which is not [null]. *)
Definition makeMoveOff (playerId boardX boardY : number) (g : Game)
  : completion number * Game :=
  if isEnded g then (Normal GAME_ENDED, g) else
  if negb (seated (players g).1 && seated (players g).2)
  then (Normal GAME_NOT_STARTED, g) else
  if negb (includes (players g) playerId)
  then (Normal PLAYER_DOESNT_EXIST, g) else
  if negb (onBoard boardX boardY) then (Normal INVALID_LOCATION, g) else
  if negb (num_eq playerId (activePlayer (fixTurn g)))
  then (Normal WRONG_TURN, fixTurn g) else
  match asIndex boardY with
  | None => (Throw TypeError, fixTurn g)
  | Some _ => (Normal INVALID_LOCATION, fixTurn g)
  end.

(** ** Well-formed registries

    The invariant of the registries that the three operations build from
    the empty one. *)

Definition shape3 (b : Board) : bool :=
  (length b =? 3)%nat && forallb (λ row, (length row =? 3)%nat) b.

(** A slot holds the initial [-1] or an identifier issued by [addPlayer]. *)
Definition seat_ok (p : number) : bool := Qeq_bool p (-1) || Qle_bool 201 p.

Definition cell_ok (ps : number * number) (v : value) : bool :=
  match v with
  | Null => true
  | Num n => includes ps n
  | Undefined => false
  end.

Definition blank (b : Board) : bool := forallb (forallb (strict_eq Null)) b.

Definition wf_game (gameId : Z) (g : Game) : bool :=
  shape3 (board g)
  && seat_ok (players g).1 && seat_ok (players g).2
  && forallb (forallb (cell_ok (players g))) (board g)
  && ((201 <=? gameId) || negb (seated (players g).1 || seated (players g).2))
  && (if num_eq (activePlayer g) 0
      then blank (board g) && negb (isEnded g)
      else seated (players g).1 && seated (players g).2
           && includes (players g) (activePlayer g)).

Definition wf (s : Games) : Prop :=
  forallb (λ e, wf_game e.1 e.2) (map_to_list s) = true.

(** Inputs the environment can supply: [Date.now ()] is a non-negative
    integer and [Math.random ()] lies in [0, 1). *)
Definition random (rnd : number) : Prop := (0 <= rnd ∧ rnd < 1)%Q.

(** Calls of the three operations, and the registries they reach. *)
Inductive call :=
  | CreateGame (now : Z) (rnd : number)
  | AddPlayer (gameId : Z) (rnd : number)
  | MakeMove (gameId : Z) (playerId boardX boardY : number).

Definition valid_call (c : call) : Prop :=
  match c with
  | CreateGame now rnd => 0 <= now ∧ random rnd
  | AddPlayer _ rnd => random rnd
  | MakeMove _ _ _ _ => True
  end.

Definition exec (c : call) (s : Games) : Games :=
  match c with
  | CreateGame now rnd => (createGame now rnd s).2
  | AddPlayer gameId rnd => (addPlayer gameId rnd s).2
  | MakeMove gameId playerId boardX boardY =>
      (makeMove gameId playerId boardX boardY s).2
  end.

Inductive reachable : Games → Prop :=
  | reachable_init : reachable ∅
  | reachable_step c s : reachable s → valid_call c → reachable (exec c s).

(** ** What the claims speak about *)

(** The eight lines of the board, as triples of (row, column). *)
Definition lines : list ((Z * Z) * (Z * Z) * (Z * Z)) :=
  [ ((0,0),(0,1),(0,2)); ((1,0),(1,1),(1,2)); ((2,0),(2,1),(2,2));
    ((0,0),(1,0),(2,0)); ((0,1),(1,1),(2,1)); ((0,2),(1,2),(2,2));
    ((0,0),(1,1),(2,2)); ((0,2),(1,1),(2,0)) ].

(** Player [p] holds the cell (row [c.1], column [c.2]) of [b]. *)
Definition holds (b : Board) (p : number) (c : Z * Z) : bool :=
  match cell b c.1 c.2 with
  | Num n => Qeq_bool n p
  | _ => false
  end.

Definition occupies (b : Board) (p : number) (l : (Z * Z) * (Z * Z) * (Z * Z)) : bool :=
  holds b p l.1.1 && holds b p l.1.2 && holds b p l.2.

Definition hasLine (b : Board) (p : number) : bool :=
  existsb (occupies b p) lines.

(** The number of cells of a board that hold a mark. *)
Definition occupied (v : value) : bool :=
  match v with
  | Num _ => true
  | _ => false
  end.

Definition occupiedCells (b : Board) : nat :=
  length (filter (λ v, occupied v = true) (concat b)).

(** [makeMove] passes every check of lines 81-110 on game [g]: the move
    is applied. *)
Definition accepted (playerId : number) (boardX boardY : Z) (g : Game) : bool :=
  negb (isEnded g)
  && (seated (players g).1 && seated (players g).2)
  && includes (players g) playerId
  && inRange boardX boardY
  && num_eq playerId (activePlayer (fixTurn g))
  && strict_eq (cell (board g) boardY boardX) Null.

(** The player whose turn it is: [players[0]] until the first move. *)
Definition turn (g : Game) : number := activePlayer (fixTurn g).

(** The seated player who is not [playerId] (lines 113-114). *)
Definition otherPlayer (g : Game) (playerId : number) : number :=
  if num_eq (players g).1 playerId then (players g).2 else (players g).1.

(** The error codes of the two operations.  [GAME_ONGOING] is an error of
    [addPlayer] and a regular result of [makeMove]. *)
Definition addPlayerErrors : list number :=
  [GAME_DOESNT_EXIST; GAME_ENDED; GAME_ONGOING].

Definition makeMoveErrors : list number :=
  [GAME_DOESNT_EXIST; GAME_NOT_STARTED; GAME_ENDED; PLAYER_DOESNT_EXIST;
   WRONG_TURN; INVALID_LOCATION].

Definition isError (codes : list number) (r : number) : bool :=
  existsb (num_eq r) codes.

(** Helpers of the win-detection proof: a cell of the scratch matrix, and
    a cell held by [p]. *)
Definition mark (q : number) (c : value) : value :=
  if strict_eq c Null then Num q else c.

Definition held (p : number) (c : value) : bool :=
  match c with
  | Num n => Qeq_bool n p
  | _ => false
  end.

(** ** Scenarios

    Registries reached by concrete calls, used to evaluate the engine. *)

Module Scenario.
(** [Date.now ()] at the first call, and the identifier that
    [Math.random () = 0.5] gives. *)
Definition t0 : Z := 1700000000000.
Definition G : Z := 850000000000.

(** One game, no player. *)
Definition created : Games := exec (CreateGame t0 (1 # 2)) ∅.

(** Both players seated, with draws 0.25 and 0.5. *)
Definition P1 : number := 3400000000001 # 4.
Definition P2 : number := 1700000000001 # 2.
Definition started : Games :=
  exec (AddPlayer G (1 # 2)) (exec (AddPlayer G (1 # 4)) created).

(** The game [G] of a registry. *)
Definition theGame (s : Games) : Game := default newGame (s !! G).

Fixpoint play (moves : list (Z * Z)) (first : bool) (s : Games) : Games :=
  match moves with
  | [] => s
  | (x, y) :: moves =>
      play moves (negb first)
        (exec (MakeMove G (if first then P1 else P2) x y) s)
  end.

(** The first winning game of the test suite, before and after its last
    move (0, 2) by [P1]. *)
Definition beforeWin : Games := play [(0,0); (1,0); (0,1); (1,1)] true started.
Definition won : Games := play [(0,2)] true beforeWin.

(** The first drawn game of the test suite, before its last move (1, 0)
    by [P1]. *)
Definition beforeDraw : Games :=
  play [(1,2); (1,1); (0,2); (2,2); (0,0); (0,1); (2,1); (2,0)] true started.

(** A game whose identifier is below 201: [Math.random ()] returned
    2^-34. *)
Definition low : Games := exec (CreateGame t0 (1 # 17179869184)) ∅.
End Scenario.

(** * Further properties of the engine

    The invariant of reachable registries, the exact test of
    [_isPlayerWin], and the frame of a call. *)

(** ** Marks and turns *)

(** The number of cells of [b] that hold the mark of [p]. *)
Definition marks (b : Board) (p : number) : nat :=
  sum_list (map (λ c, Nat.b2n (held p c)) (concat b)).

(** The turn agrees with the marks on the board: with as many marks of the
    first player as of the second, the turn is unset or with the first
    player; with one more, it is with the second. *)
Definition turn_ok (g : Game) : bool :=
  (marks (board g) (players g).1 =? marks (board g) (players g).2)%nat
  && (num_eq (activePlayer g) 0 || num_eq (activePlayer g) (players g).1)
  || (marks (board g) (players g).1 =? marks (board g) (players g).2 + 1)%nat
     && num_eq (activePlayer g) (players g).2
     && negb (num_eq (players g).1 (players g).2).

(** [isEnded] agrees with the board: an ended game has a completed line
    or a full board, a game that has not ended has neither. *)
Definition end_ok (g : Game) : bool :=
  if isEnded g
  then hasLine (board g) (players g).1 || hasLine (board g) (players g).2
       || full (board g)
  else negb (hasLine (board g) (players g).1)
       && negb (hasLine (board g) (players g).2)
       && negb (full (board g)).

(** Slot 1 is filled only after slot 0. *)
Definition seats_ok (g : Game) : bool :=
  negb (seated (players g).2) || seated (players g).1.

Definition sound_game (gameId : Z) (g : Game) : bool :=
  wf_game gameId g && turn_ok g && end_ok g && seats_ok g.

Definition sound (s : Games) : Prop :=
  forallb (λ e, sound_game e.1 e.2) (map_to_list s) = true.

(** ** The exact test of [_isPlayerWin]

    A cell passes for [playerID] when it holds that number, or when it is
    empty and its counter (1 to 9, row by row) is that number. *)
Definition counterOf (c : Z * Z) : Z := 3 * c.1 + c.2 + 1.

Definition passesValue (counter playerID : number) (v : value) : bool :=
  match v with
  | Num n => Qeq_bool n playerID
  | Null => Qeq_bool counter playerID
  | Undefined => false
  end.

Definition passes (b : Board) (playerID : number) (c : Z * Z) : bool :=
  passesValue (inject_Z (counterOf c)) playerID (cell b c.1 c.2).

Definition passesLine (b : Board) (playerID : number)
    (l : (Z * Z) * (Z * Z) * (Z * Z)) : bool :=
  passes b playerID l.1.1 && passes b playerID l.1.2 && passes b playerID l.2.

(** The game that a call addresses; for [createGame], the identifier it
    draws. *)
Definition target (c : call) : Z :=
  match c with
  | CreateGame now rnd => Qfloor (num_mul (inject_Z now) rnd)
  | AddPlayer gameId _ => gameId
  | MakeMove gameId _ _ _ => gameId
  end.

Definition isCreateGame (c : call) : bool :=
  match c with
  | CreateGame _ _ => true
  | _ => false
  end.

(** The registry after a call on [gameId] is the registry before, or the
    registry before with the entry of [gameId] replaced. *)
Definition framed (gameId : Z) (s s' : Games) : Prop :=
  s' = s ∨ ∃ g', is_Some (s !! gameId) ∧ s' = <[gameId := g']> s.


(** * The test suite (class [TestSuite], lines 162-406)

    The suite keeps its own dictionary [testGames] of the players it has
    seen per game.  Its methods throw strings; a [TypeError] of the engine
    passes through them.  Each call of [createGame] or [addPlayer] made by
    a method takes the values of [Date.now ()] and [Math.random ()] as
    arguments of the method. *)

From stdpp Require Import strings pretty.
Open Scope Z_scope.

Record Suite := mkSuite {
  engine : Games;
  testGames : gmap Z (number * number)
}.

Inductive thrown :=
  | EngineError (e : exn)
  | Message (text : string).

(** [Unfinished]: the fuel of a loop without bound ran out. *)
Inductive outcome (A : Type) :=
  | Done (a : A)
  | Thrown (t : thrown)
  | Unfinished.
Arguments Done {A} a.
Arguments Thrown {A} t.
Arguments Unfinished {A}.

Definition T (A : Type) : Type := Suite → outcome A * Suite.

Definition done_ {A} (a : A) : T A := λ w, (Done a, w).
Definition raise {A} (t : thrown) : T A := λ w, (Thrown t, w).
Definition andThen {A B} (m : T A) (k : A → T B) : T B :=
  λ w, match m w with
       | (Done a, w') => k a w'
       | (Thrown t, w') => (Thrown t, w')
       | (Unfinished, w') => (Unfinished, w')
       end.

Notation "'let*' x ':=' m 'in' k" := (andThen m (λ x, k))
  (at level 10, x name, m at level 100, k at level 200, only parsing).
Notation "m '>>' k" := (andThen m (λ _, k))
  (at level 100, k at level 200, right associativity, only parsing).

(** A call of the engine from the suite. *)
Definition call_ {A} (m : M A) : T A :=
  λ w, match m (engine w) with
       | (Normal a, s') => (Done a, mkSuite s' (testGames w))
       | (Throw e, s') => (Thrown (EngineError e), mkSuite s' (testGames w))
       end.

(** [gameId in this.testGames] *)
Definition inTestGames (gameId : Z) : T bool :=
  λ w, (Done (bool_decide (is_Some (testGames w !! gameId))), w).

(** [this.testGames[gameId]] of a game that is in the dictionary. *)
Definition testGame (gameId : Z) : T (number * number) :=
  λ w, match testGames w !! gameId with
       | Some game => (Done game, w)
       | None => (Thrown (EngineError TypeError), w)
       end.

Definition setTestGame (gameId : Z) (game : number * number) : T unit :=
  λ w, (Done tt, mkSuite (engine w) (<[gameId := game]> (testGames w))).

(** [isValidId] (line 251) *)
Definition isValidId (id : number) : bool := Qle_bool 0 id.

(** [check] (lines 254-257) *)
Definition check (expr : bool) (text : string) : T unit :=
  if expr then done_ tt else raise (Message text).

(** [for (const a of l) body] and [for (let i = 0; i < n; ++i) body] *)
Fixpoint forEach {A} (l : list A) (body : A → T unit) : T unit :=
  match l with
  | [] => done_ tt
  | a :: l => body a >> forEach l body
  end.

(** [createTestGame] (lines 260-266) *)
Definition createTestGame (now : Z) (rnd : number) : T Z :=
  let* gameId := call_ (createGame now rnd) in
  check (0 <=? gameId) "Negative game id" >>
  let* known := inTestGames gameId in
  check (negb known) "Duplicate game id" >>
  setTestGame gameId ((-1)%Q, (-1)%Q) >>
  done_ gameId.

(** [invalidGameId] (lines 268-272): the loop [for (let i = 200;; ++i)],
    run for at most [fuel] rounds. *)
Fixpoint invalidGameIdFrom (fuel : nat) (i : Z) : T Z :=
  match fuel with
  | O => λ w, (Unfinished, w)
  | S fuel =>
      let* known := inTestGames i in
      if negb known then done_ i else invalidGameIdFrom fuel (i + 1)
  end.

(** One round more than there are test games is enough
    ([invalidGameId_run]). *)
Definition invalidGameId : T Z :=
  λ w, invalidGameIdFrom (S (size (testGames w))) 200 w.

(** [addTestPlayer] (lines 274-292); [pretty gameId] is the decimal form of
    the identifier, which is what [toString] gives below 10^21. *)
Definition addTestPlayer (gameId : Z) (rnd : number) : T number :=
  let* playerId := call_ (addPlayer gameId rnd) in
  if negb (Qle_bool 0 playerId) then done_ playerId else
  let* known := inTestGames gameId in
  if negb known
  then raise (Message ("Invalid gameID accepted to addPlayer " +:+ pretty gameId))
  else
  let* game := testGame gameId in
  (if negb (isValidId game.1)
   then setTestGame gameId (playerId, game.2)
   else if num_eq game.1 playerId
   then raise (Message "Duplicate player id in game")
   else if negb (isValidId game.2)
   then setTestGame gameId (game.1, playerId)
   else raise (Message "Received a player id from a full game")) >>
  done_ playerId.

(** [testCreateGame] (lines 294-297); [inputs i] are the time and the draw
    of the i-th call. *)
Definition testCreateGame (inputs : nat → Z * number) : T unit :=
  forEach (seq 0 10) (λ i,
    createTestGame (inputs i).1 (inputs i).2 >> done_ tt).

(** [testInvalidGameIds] (lines 299-309); [rnd i] is the draw of the i-th
    call of [addPlayer]. *)
Definition testInvalidGameIds (rnd : nat → number) : T unit :=
  forEach (seq 0 9) (λ k,
    let i := - 1 - Z.of_nat k in
    let* r := addTestPlayer i (rnd k) in
    check (num_eq r GAME_DOESNT_EXIST) "Negative game id should not be valid") >>
  let* i := invalidGameId in
  let* r := addTestPlayer i (rnd 9%nat) in
  check (num_eq r GAME_DOESNT_EXIST) "Invalid game id was accepted" >>
  let* i := invalidGameId in
  let* r := call_ (makeMove i 0 0 0) in
  check (num_eq r GAME_DOESNT_EXIST) "Wrong player move accepted".

(** [testAddPlayer] (lines 311-333) *)
Definition testAddPlayer (now : Z) (rnd0 : number) (rnd : nat → number)
  : T unit :=
  let* gameId := createTestGame now rnd0 in
  let* r := call_ (makeMove gameId 0 0 0) in
  check (num_eq r GAME_NOT_STARTED) "Made a move with no players added" >>
  let* player1Id := addTestPlayer gameId (rnd 0%nat) in
  check (isValidId player1Id) "Negative game id should not be valid" >>
  let* r := call_ (makeMove gameId player1Id 0 0) in
  check (num_eq r GAME_NOT_STARTED) "Made a move with only one player added" >>
  let* player2Id := addTestPlayer gameId (rnd 1%nat) in
  check (isValidId player2Id) "Negative game id should not be valid" >>
  let* r := call_ (makeMove gameId player2Id 0 0) in
  check (num_eq r WRONG_TURN) "Made a move with only one player added" >>
  forEach (seq 0 10) (λ i,
    let* r := addTestPlayer gameId (rnd (2 + i)%nat) in
    check (num_eq r GAME_ONGOING)
      "Adding players after the second should return GAME_ONGOING").

(** The suite's dictionary mirrors the players of the engine's games. *)
Definition mirrored (w : Suite) : Prop := testGames w = players <$> engine w.

(** Every game of the registry is a test game of the suite. *)
Definition tracked (w : Suite) : Prop :=
  ∀ k, testGames w !! k = None → engine w !! k = None.

(** The player identifier that [addPlayer] issues (line 50), and the game
    of [testAddPlayer] after the first player, after the second player,
    and after the second player's refused move. *)
Definition issued (gameId : Z) (rnd : number) : number :=
  num_add (inject_Z gameId) rnd.

Definition oneSeated (gameId : Z) (r0 : number) : Game :=
  mkGame (issued gameId r0, (-1)%Q) emptyBoard 0%Q false.

Definition twoSeated (gameId : Z) (r0 r1 : number) : Game :=
  mkGame (issued gameId r0, issued gameId r1) emptyBoard 0%Q false.

Definition turnFixed (gameId : Z) (r0 r1 : number) : Game :=
  mkGame (issued gameId r0, issued gameId r1) emptyBoard (issued gameId r0) false.

(** The identifier that [createGame] returns on given inputs (line 20). *)
Definition drawnId (input : Z * number) : Z :=
  Qfloor (num_mul (inject_Z input.1) input.2).

(** The games of the constructor (lines 165-248): moves [x, y], the first
    player moving first. *)
Definition wins : list (list (Z * Z)) :=
  [ [(0,0); (1,0); (0,1); (1,1); (0,2)];
    [(2,0); (2,1); (0,0); (1,0); (0,2); (0,1); (1,1)];
    [(0,2); (1,1); (2,0); (0,1); (1,2); (0,0); (1,0); (2,1)];
    [(1,0); (1,1); (0,2); (0,0); (1,2); (2,2)] ].

Definition draws : list (list (Z * Z)) :=
  [ [(1,2); (1,1); (0,2); (2,2); (0,0); (0,1); (2,1); (2,0); (1,0)];
    [(1,1); (0,0); (0,2); (2,0); (1,0); (1,2); (0,1); (2,1); (2,2)] ].

(** [game[i]] *)
Definition nthMove (game : list (Z * Z)) (i : nat) : Z * Z := nth i game (0, 0).

(** [this.check(m == expected, text)] for a call [m] of the engine. *)
Definition expect (m : M number) (expected : number) (text : string) : T unit :=
  let* r := call_ m in check (num_eq r expected) text.

(** The text of the check of the final move (lines 363-368). *)
Definition finalText (isDraw : bool) (i : nat) : string :=
  if isDraw then "Game should have been a draw"
  else if Nat.even i then "Player 1 should have won"
       else "Player 2 should have won".

(** One round of the loop of [testFullGame] (lines 343-379); [rnd (2 + i)]
    and [rnd (3 + i)] are the draws of its calls of [addPlayer]. *)
Definition fullGameRound (gameId : Z) (player1Id b : number)
    (rnd : nat → number) (game : list (Z * Z)) (isDraw : bool) (i : nat)
  : T unit :=
  let currentPlayer := if Nat.even i then player1Id else b in
  let otherPlayer := if Nat.even i then b else player1Id in
  let nextMove := nthMove game i in
  (let* r := addTestPlayer gameId (rnd (2 + i)%nat) in
   check (num_eq r GAME_ONGOING)
     "Adding players during the game should return GAME_ONGOING") >>
  expect (makeMove gameId otherPlayer nextMove.1 nextMove.2) WRONG_TURN
    "Wrong player move accepted" >>
  forEach (seq 0 i) (λ i2,
    expect (makeMove gameId currentPlayer (nthMove game i2).1 (nthMove game i2).2)
      INVALID_LOCATION "Wrong player move accepted") >>
  expect (makeMove gameId currentPlayer (- 1 - Z.of_nat i)%Z 0) INVALID_LOCATION
    "Invalid board location accepted" >>
  expect (makeMove gameId currentPlayer 0 (Z.of_nat i + 3)%Z) INVALID_LOCATION
    "Invalid board location accepted" >>
  if (i + 1 <? length game)%nat
  then expect (makeMove gameId currentPlayer nextMove.1 nextMove.2) GAME_ONGOING
         "Valid move rejected"
  else
    let expectedResult := if isDraw then otherPlayer else currentPlayer in
    let text := finalText isDraw i in
    expect (makeMove gameId currentPlayer nextMove.1 nextMove.2)
      expectedResult text >>
    (let* r := addTestPlayer gameId (rnd (3 + i)%nat) in
     check (num_eq r GAME_ENDED)
       "Adding a player after the game ended should return GAME_ENDED") >>
    expect (makeMove gameId (if Nat.even i then b else player1Id)
              nextMove.1 nextMove.2)
      GAME_ENDED
      "Making a move after the game ended should return GAME_ENDED".

(** [testFullGame] (lines 336-380) *)
Definition testFullGame (now : Z) (rnd0 : number) (rnd : nat → number)
    (game : list (Z * Z)) (isDraw : bool) : T unit :=
  let* gameId := createTestGame now rnd0 in
  let* player1Id := addTestPlayer gameId (rnd 0%nat) in
  let* b := addTestPlayer gameId (rnd 1%nat) in
  forEach (seq 0 (length game)) (fullGameRound gameId player1Id b rnd game isDraw).

(** ** Games as the suite plays them

    Who has marked a cell (row, column) within the first [k] moves of a
    game ([true]: the player who moves first), and the games that run as
    [testFullGame] expects: every move goes to a free cell of the board,
    no move before the last one completes a line, and the last one
    completes a line or, for a draw, fills the board without one. *)
Fixpoint moverAt (game : list (Z * Z)) (k : nat) (c : Z * Z) : option bool :=
  match k with
  | O => None
  | S k =>
      let m := nthMove game k in
      if bool_decide ((m.2, m.1) = c) then Some (Nat.even k)
      else moverAt game k c
  end.

Definition owns (game : list (Z * Z)) (k : nat) (first : bool) (c : Z * Z)
  : bool :=
  bool_decide (moverAt game k c = Some first).

Definition lineFor (game : list (Z * Z)) (k : nat) (first : bool) : bool :=
  existsb (λ l : (Z * Z) * (Z * Z) * (Z * Z),
             owns game k first l.1.1 && owns game k first l.1.2
             && owns game k first l.2) lines.

Definition legalRound (game : list (Z * Z)) (isDraw : bool) (i : nat) : bool :=
  let m := nthMove game i in
  inRange m.1 m.2
  && bool_decide (moverAt game i (m.2, m.1) = None)
  && (if (i + 1 <? length game)%nat
      then negb (lineFor game (S i) (Nat.even i))
      else if isDraw
           then negb (lineFor game (S i) (Nat.even i))
                && (length game =? 9)%nat
           else lineFor game (S i) (Nat.even i)).

Definition legal (game : list (Z * Z)) (isDraw : bool) : bool :=
  (0 <? length game)%nat && (length game <=? 9)%nat
  && forallb (legalRound game isDraw) (seq 0 (length game)).

(** The board after the first [k] moves, and the game around it. *)
Fixpoint boardAfter (p1 p2 : number) (game : list (Z * Z)) (k : nat) : Board :=
  match k with
  | O => emptyBoard
  | S k =>
      let m := nthMove game k in
      writeCell (boardAfter p1 p2 game k) m.2 m.1
        (Num (if Nat.even k then p1 else p2))
  end.

Definition gameAfter (p1 p2 : number) (game : list (Z * Z)) (k : nat)
    (ended : bool) : Game :=
  mkGame (p1, p2) (boardAfter p1 p2 game k)
    (match k with O => 0%Q | _ => if Nat.even k then p1 else p2 end) ended.

(** The game in round [k] once the turn is fixed. *)
Definition onTurn (p1 p2 : number) (game : list (Z * Z)) (k : nat) : Game :=
  mkGame (p1, p2) (boardAfter p1 p2 game k)
    (if Nat.even k then p1 else p2) false.

(** The first [k] moves go to free cells of the board. *)
Definition playable (game : list (Z * Z)) (k : nat) : Prop :=
  ∀ i, (i < k)%nat →
    inRange (nthMove game i).1 (nthMove game i).2 = true
    ∧ moverAt game i ((nthMove game i).2, (nthMove game i).1) = None.

(** The player who makes move [i] of a game that [p1] begins. *)
Definition mover (p1 p2 : number) (i : nat) : number :=
  if Nat.even i then p1 else p2.

(** ** runTest and runAllTests (lines 382-405)

    The console is the list of the lines that [console.log] has printed.
    A thrown string prints as itself; what an error of the engine prints
    as is the text of the JavaScript engine, [describe]. *)
Definition Console := list string.

Definition shown (describe : exn → string) (t : thrown) : string :=
  match t with
  | EngineError e => describe e
  | Message text => text
  end.

(** [runTest] (lines 382-391); [None] when [func] does not return. *)
Definition runTest (describe : exn → string) (name : string) (func : T unit)
    (w : Suite) (out : Console) : option (bool * Suite * Console) :=
  match func w with
  | (Done _, w') => Some (false, w', out ++ ["[PASSED]  " +:+ name])
  | (Thrown t, w') =>
      Some (true, w',
            out ++ ["[FAILED] " +:+ name +:+ ": " +:+ shown describe t])
  | (Unfinished, _) => None
  end.

(** The time and the draws of one test that creates a game. *)
Record Draws := mkDraws {
  clock : Z;
  gameDraw : number;
  playerDraws : nat → number
}.

(** The times and draws of a run of the suite. *)
Record Inputs := mkInputs {
  createInputs : nat → Z * number;
  invalidDraws : nat → number;
  addDraws : Draws;
  gameDraws : nat → Draws
}.

(** The name of the test of a game of [wins] (line 399). *)
Definition winTestName (game : list (Z * Z)) : string :=
  if (length game mod 2 =? 0)%nat then "testPlayer1Win" else "testPlayer2Win".

(** The loops of lines 398-402; [j] counts the games run so far. *)
Fixpoint runGames (describe : exn → string) (inputs : nat → Draws)
    (name : list (Z * Z) → string) (isDraw : bool)
    (games : list (list (Z * Z))) (j : nat)
    (failed : bool) (w : Suite) (out : Console)
  : option (bool * Suite * Console) :=
  match games with
  | [] => Some (failed, w, out)
  | game :: games =>
      match runTest describe (name game)
              (testFullGame (clock (inputs j)) (gameDraw (inputs j))
                 (playerDraws (inputs j)) game isDraw) w out with
      | Some (r, w, out) =>
          runGames describe inputs name isDraw games (S j) (r || failed) w out
      | None => None
      end
  end.

(** [runAllTests] (lines 393-405) *)
Definition runAllTests (describe : exn → string) (inp : Inputs)
    (w : Suite) (out : Console) : option (Z * Suite * Console) :=
  match runTest describe "testCreateGame"
          (testCreateGame (createInputs inp)) w out with
  | None => None
  | Some (failed, w, out) =>
  match runTest describe "testInvalidGameIds"
          (testInvalidGameIds (invalidDraws inp)) w out with
  | None => None
  | Some (r, w, out) =>
  let failed := r || failed in
  match runTest describe "testAddPlayer"
          (testAddPlayer (clock (addDraws inp)) (gameDraw (addDraws inp))
             (playerDraws (addDraws inp))) w out with
  | None => None
  | Some (r, w, out) =>
  let failed := r || failed in
  match runGames describe (gameDraws inp) winTestName false wins 0
          failed w out with
  | None => None
  | Some (failed, w, out) =>
  match runGames describe (gameDraws inp) (λ _, "testDraw") true draws
          (length wins) failed w out with
  | None => None
  | Some (failed, w, out) => Some (if failed then 1 else 0, w, out)
  end end end end end.

(** Inputs that the environment can supply. *)
Definition validDraws (d : Draws) : Prop :=
  0 ≤ clock d ∧ random (gameDraw d) ∧ ∀ i, random (playerDraws d i).

Definition gameIdOf (d : Draws) : Z := drawnId (clock d, gameDraw d).

(** The two players of the game get different identifiers: the sums of
    the identifier of the game and the first two draws round to different
    doubles. *)
Definition distinctPlayers (d : Draws) : Prop :=
  ¬ (issued (gameIdOf d) (playerDraws d 0%nat)
     == issued (gameIdOf d) (playerDraws d 1%nat))%Q.

(** The identifiers drawn in a run of the suite: the ten of
    [testCreateGame], the one of [testAddPlayer], the six of the games. *)
Definition createdIds (inp : Inputs) : list Z :=
  map (λ i, drawnId (createInputs inp i)) (seq 0 10).

Definition playedIds (inp : Inputs) : list Z :=
  map (λ j, gameIdOf (gameDraws inp j)) (seq 0 (length wins + length draws)).

Definition drawnIds (inp : Inputs) : list Z :=
  createdIds inp ++ gameIdOf (addDraws inp) :: playedIds inp.

(** A run of the suite that has returned or thrown. *)
Definition finished {A} (r : outcome A * Suite) : Prop :=
  match r.1 with
  | Unfinished => False
  | _ => True
  end.

(** A line that [runTest] prints for a test that passed. *)
Definition passedLine (line : string) : bool := String.prefix "[PASSED]" line.

(** Inputs of a run in which the identifiers drawn are 0 to 9, then 1000,
    then 2000 to 2005, and the players of a game get different identifiers. *)
Definition quarterThenHalf (i : nat) : number :=
  if Nat.eqb i 0 then (1 # 4)%Q else (1 # 2)%Q.

Definition sampleInputs : Inputs :=
  mkInputs (λ i, (2 * Z.of_nat i, (1 # 2)%Q)) (λ _, 0%Q)
    (mkDraws 2000 (1 # 2) quarterThenHalf)
    (λ j, mkDraws (2 * (2000 + Z.of_nat j)) (1 # 2) quarterThenHalf).

(** The same, but the game of [testAddPlayer] gets the identifier 100. *)
Definition lowInputs : Inputs :=
  mkInputs (createInputs sampleInputs) (invalidDraws sampleInputs)
    (mkDraws 200 (1 # 2) quarterThenHalf) (gameDraws sampleInputs).

(** A step of the suite after which the suite still knows every game of
    the registry. *)
Definition keeps {A} (m : T A) : Prop :=
  ∀ w, tracked w → tracked (m w).2.

(** * Proofs *)

(** ** Numbers *)

Lemma num_gt_spec (a b : number) : num_gt a b = true ↔ (b < a)%Q.
Proof.
  unfold num_gt. rewrite negb_true_iff, <- not_true_iff_false, Qle_bool_iff.
  split; [apply Qnot_le_lt | apply Qlt_not_le].
Qed.

Lemma num_le_spec (a b : number) : num_le a b = true ↔ (a <= b)%Q.
Proof. apply Qle_bool_iff. Qed.

Lemma num_eq_spec (a b : number) : num_eq a b = true ↔ (a == b)%Q.
Proof. apply Qeq_bool_iff. Qed.

Lemma num_le_gt (a b : number) : num_le a b = negb (num_gt a b).
Proof. unfold num_gt. by rewrite negb_involutive. Qed.

(** ** Rounding to a double

    [fl] does not cross an integer of at most 53 bits: the integers up to
    2^53 are doubles, and rounding to the nearest double is monotone. *)

Lemma roundEven_ge (y : Q) (z : Z) : (inject_Z z <= y)%Q → z ≤ roundEven y.
Proof.
  intros H. assert (z ≤ Qfloor y) as Hf.
  { rewrite <- (Qfloor_Z z). by apply Qfloor_resp_le. }
  unfold roundEven. cbv zeta.
  destruct (_ ?= _)%Q; [destruct (Z.even _)|..]; lia.
Qed.

Lemma roundEven_le (y : Q) (z : Z) : (y <= inject_Z z)%Q → roundEven y ≤ z.
Proof.
  intros H. pose proof (Qfloor_le y) as Hlo. pose proof (Qlt_floor y) as Hhi.
  assert (Qfloor y ≤ z) as Hf.
  { rewrite <- (Qfloor_Z z). by apply Qfloor_resp_le. }
  destruct (decide (Qfloor y = z)) as [E|Hne].
  - unfold roundEven. cbv zeta.
    destruct (Qcompare_spec (y - inject_Z (Qfloor y)) (1 # 2)) as [Hc|Hc|Hc];
      rewrite E in Hc |- *; [lra|lia|lra].
  - unfold roundEven. cbv zeta.
    destruct (_ ?= _)%Q; [destruct (Z.even _)|..]; lia.
Qed.

Lemma pow2_pos (k : Z) : (0 < 2 ^ k)%Q.
Proof. by apply Qpower_0_lt. Qed.

Lemma pow2_plus (a b : Z) : (2 ^ (a + b) == 2 ^ a * 2 ^ b)%Q.
Proof. by apply Qpower_plus. Qed.

Lemma pow2_Z (k : Z) : 0 ≤ k → (2 ^ k == inject_Z (2 ^ k))%Q.
Proof. intros Hk. symmetry. by apply (Zpower_Qpower 2). Qed.

Lemma pow2_ge_1 (k : Z) : 0 ≤ k → (1 <= 2 ^ k)%Q.
Proof.
  intros Hk. rewrite pow2_Z by done. change 1%Q with (inject_Z 1).
  rewrite <- Zle_Qle. pose proof (Z.pow_pos_nonneg 2 k ltac:(lia) Hk). lia.
Qed.

Lemma pow2_mono (a b : Z) : a ≤ b → (2 ^ a <= 2 ^ b)%Q.
Proof.
  intros H. pose proof (pow2_ge_1 (b - a) ltac:(lia)) as Hk.
  pose proof (pow2_pos a).
  assert (2 ^ b == 2 ^ a * 2 ^ (b - a))%Q as ->
    by (rewrite <- pow2_plus; by replace (a + (b - a)) with b by lia).
  nra.
Qed.

Lemma binade_le (x : Q) : (0 < x)%Q → (2 ^ binade x <= x)%Q.
Proof.
  intros Hx. unfold binade. cbv zeta.
  destruct (Qle_bool _ _) eqn:E; [by apply Qle_bool_iff|].
  destruct x as [n d]. cbn [Qnum Qden].
  assert (0 < n) as Hn by (unfold Qlt in Hx; cbn in Hx; lia).
  destruct (Z.log2_spec n Hn) as [Hlo _].
  destruct (Z.log2_spec (Z.pos d) ltac:(lia)) as [_ Hhi].
  set (a := Z.log2 n) in *. set (b := Z.log2 (Z.pos d)) in *.
  assert (0 ≤ a) by apply Z.log2_nonneg.
  assert (0 ≤ b) by apply Z.log2_nonneg.
  replace (a - b - 1) with (a + - (b + 1)) by lia.
  rewrite pow2_plus, Qpower_opp, (pow2_Z a), (pow2_Z (b + 1)) by lia.
  rewrite <- Z.add_1_r in Hhi.
  assert (0 < 2 ^ (b + 1)) by lia.
  apply Qle_shift_div_r; [by rewrite <- (Zlt_Qlt 0)|].
  unfold Qle, Qmult, inject_Z. cbn [Qnum Qden]. nia.
Qed.

Lemma binade_lt (x : Q) : (0 < x)%Q → (x < 2 ^ (binade x + 1))%Q.
Proof.
  intros Hx. unfold binade. cbv zeta.
  destruct (Qle_bool _ _) eqn:E.
  2: { replace (_ - 1 + 1) with (Z.log2 (Qnum x) - Z.log2 (Z.pos (Qden x))) by lia.
       apply Qnot_le_lt. intros H%Qle_bool_iff. congruence. }
  destruct x as [n d]. cbn [Qnum Qden].
  assert (0 < n) as Hn by (unfold Qlt in Hx; cbn in Hx; lia).
  destruct (Z.log2_spec n Hn) as [_ Hhi].
  destruct (Z.log2_spec (Z.pos d) ltac:(lia)) as [Hlo _].
  set (a := Z.log2 n) in *. set (b := Z.log2 (Z.pos d)) in *.
  assert (0 ≤ a) by apply Z.log2_nonneg.
  assert (0 ≤ b) by apply Z.log2_nonneg.
  replace (a - b + 1) with ((a + 1) + - b) by lia.
  rewrite pow2_plus, Qpower_opp, (pow2_Z (a + 1)), (pow2_Z b) by lia.
  rewrite <- Z.add_1_r in Hhi.
  assert (0 < 2 ^ b) by lia.
  apply Qlt_shift_div_l; [by rewrite <- (Zlt_Qlt 0)|].
  unfold Qlt, Qmult, inject_Z. cbn [Qnum Qden]. nia.
Qed.

Lemma ulp_pos (x : Q) : (0 < ulp x)%Q.
Proof. apply pow2_pos. Qed.

Lemma fl_pos (x : Q) :
  (0 < x)%Q → (fl x == inject_Z (roundEven (x / ulp x)) * ulp x)%Q.
Proof.
  intros Hx. unfold fl. rewrite Qred_correct.
  destruct x as [[|n|n] d]; try done; unfold Qlt in Hx; cbn in Hx; lia.
Qed.

Lemma fl_0 (x : Q) : (x == 0)%Q → fl x = 0%Q.
Proof.
  intros Hx. unfold fl. destruct x as [[|n|n] d]; try done;
    unfold Qeq in Hx; cbn in Hx; lia.
Qed.

(** An integer of at most 53 bits below: rounding does not cross it. *)
Lemma fl_ge_int (n : Z) (x : Q) :
  0 ≤ n ≤ 2 ^ 53 → (inject_Z n <= x)%Q → (inject_Z n <= fl x)%Q.
Proof.
  intros Hn Hx.
  assert (0 <= inject_Z n)%Q as H0 by (rewrite <- (Zle_Qle 0); lia).
  destruct (Qlt_le_dec 0 x) as [Hpos|Hneg].
  2: { rewrite fl_0 by lra. lra. }
  rewrite fl_pos by done. pose proof (ulp_pos x) as Hu.
  pose proof (binade_le x Hpos) as Hlo.
  unfold ulp in *. set (q := Z.max (binade x) (-1022) - 52) in *.
  destruct (Z.le_gt_cases q 0) as [Hq|Hq].
  - assert (inject_Z n == inject_Z (n * 2 ^ (- q)) * 2 ^ q)%Q as Hint.
    { rewrite inject_Z_mult, <- pow2_Z by lia.
      rewrite <- Qmult_assoc, <- pow2_plus.
      replace (- q + q) with 0 by lia. change (2 ^ 0)%Q with 1%Q. lra. }
    assert (n * 2 ^ (- q) ≤ roundEven (x / 2 ^ q)) as Hr.
    { apply roundEven_ge. apply Qle_shift_div_l; [done|]. by rewrite <- Hint. }
    rewrite Hint. apply Qmult_le_compat_r; [|lra]. by rewrite <- Zle_Qle.
  - assert (53 ≤ binade x) as He by lia.
    assert (q = binade x - 52) as Hq' by lia.
    assert (2 ^ 52 ≤ roundEven (x / 2 ^ q)) as Hr.
    { apply roundEven_ge. apply Qle_shift_div_l; [done|].
      rewrite <- pow2_Z, <- pow2_plus, Hq' by lia.
      by replace (52 + (binade x - 52)) with (binade x) by lia. }
    rewrite (Zle_Qle (2 ^ 52)) in Hr.
    assert (inject_Z n <= 2 ^ 53)%Q as Hn53.
    { rewrite (pow2_Z 53) by lia. rewrite <- Zle_Qle. lia. }
    pose proof (pow2_mono 53 (binade x) He) as Hmono.
    assert (2 ^ binade x == inject_Z (2 ^ 52) * 2 ^ q)%Q as Hsplit.
    { rewrite <- pow2_Z, <- pow2_plus, Hq' by lia.
      by replace (52 + (binade x - 52)) with (binade x) by lia. }
    assert (inject_Z (2 ^ 52) * 2 ^ q
            <= inject_Z (roundEven (x / 2 ^ q)) * 2 ^ q)%Q
      by (apply Qmult_le_compat_r; lra).
    lra.
Qed.

Lemma fl_le_int (n : Z) (x : Q) :
  n < 2 ^ 53 → (0 <= x)%Q → (x <= inject_Z n)%Q → (fl x <= inject_Z n)%Q.
Proof.
  intros Hn H0 Hx.
  destruct (Qlt_le_dec 0 x) as [Hpos|Hneg].
  2: { rewrite fl_0 by lra. lra. }
  rewrite fl_pos by done. pose proof (ulp_pos x) as Hu.
  pose proof (binade_le x Hpos) as Hlo.
  unfold ulp in *. set (q := Z.max (binade x) (-1022) - 52) in *.
  destruct (Z.le_gt_cases q 0) as [Hq|Hq].
  - assert (inject_Z n == inject_Z (n * 2 ^ (- q)) * 2 ^ q)%Q as Hint.
    { rewrite inject_Z_mult, <- pow2_Z by lia.
      rewrite <- Qmult_assoc, <- pow2_plus.
      replace (- q + q) with 0 by lia. change (2 ^ 0)%Q with 1%Q. lra. }
    assert (roundEven (x / 2 ^ q) ≤ n * 2 ^ (- q)) as Hr.
    { apply roundEven_le. apply Qle_shift_div_r; [done|]. by rewrite <- Hint. }
    rewrite Hint. apply Qmult_le_compat_r; [|lra]. by rewrite <- Zle_Qle.
  - exfalso. assert (53 ≤ binade x) as He by lia.
    pose proof (pow2_mono 53 (binade x) He) as Hmono.
    assert (inject_Z n < 2 ^ 53)%Q as Hn53.
    { rewrite (pow2_Z 53) by lia. rewrite <- Zlt_Qlt. lia. }
    lra.
Qed.


(** The sum of [addPlayer] and the product of [createGame]. *)
Lemma num_add_ge (n gameId : Z) (rnd : number) :
  0 ≤ n ≤ 2 ^ 53 → n ≤ gameId → (0 <= rnd)%Q →
  (inject_Z n <= num_add (inject_Z gameId) rnd)%Q.
Proof.
  intros Hn Hle Hrnd. apply fl_ge_int; [done|].
  rewrite (Zle_Qle n gameId) in Hle. lra.
Qed.

Lemma num_add_le (gameId : Z) (rnd : number) :
  gameId + 1 < 2 ^ 53 → (0 <= inject_Z gameId + rnd)%Q → (rnd <= 1)%Q →
  (num_add (inject_Z gameId) rnd <= inject_Z (gameId + 1))%Q.
Proof.
  intros Hid H0 Hrnd. apply fl_le_int; [done|done|].
  rewrite inject_Z_plus. change (inject_Z 1) with 1%Q. lra.
Qed.

Lemma num_mul_nonneg (now : Z) (rnd : number) :
  0 ≤ now → (0 <= rnd)%Q → 0 ≤ Qfloor (num_mul (inject_Z now) rnd).
Proof.
  intros Hnow Hrnd. rewrite <- (Qfloor_Z 0). apply Qfloor_resp_le.
  apply (fl_ge_int 0); [lia|]. apply Qmult_le_0_compat; [|done].
  by rewrite <- (Zle_Qle 0).
Qed.

Lemma num_mul_le (now : Z) (rnd : number) :
  0 ≤ now < 2 ^ 53 → (0 <= rnd)%Q → (rnd <= 1)%Q →
  Qfloor (num_mul (inject_Z now) rnd) ≤ now.
Proof.
  intros Hnow H0 H1.
  assert (0 <= inject_Z now)%Q by (rewrite <- (Zle_Qle 0); lia).
  apply Z.le_trans with (Qfloor (inject_Z now)); [|by rewrite Qfloor_Z].
  apply Qfloor_resp_le. apply fl_le_int; [lia| |].
  - by apply Qmult_le_0_compat.
  - nra.
Qed.

Lemma num_lt_spec (a b : number) : num_lt a b = true ↔ (a < b)%Q.
Proof.
  unfold num_lt. rewrite negb_true_iff, <- not_true_iff_false, Qle_bool_iff.
  split; [apply Qnot_le_lt | apply Qlt_not_le].
Qed.

(** ** Numbers as array indices *)

Lemma asIndex_int (i : Z) : asIndex (inject_Z i) = Some i.
Proof.
  unfold asIndex. rewrite Qfloor_Z.
  by rewrite (proj2 (Qeq_bool_iff _ _) (Qeq_refl _)).
Qed.

Lemma asIndex_Some (n : number) (i : Z) :
  asIndex n = Some i → (n == inject_Z i)%Q.
Proof.
  unfold asIndex. destruct (Qeq_bool _ _) eqn:E; [|done].
  intros [= <-]. by apply Qeq_bool_iff.
Qed.

Lemma onBoard_int (x y : number) (i j : Z) :
  asIndex x = Some i → asIndex y = Some j → onBoard x y = inRange i j.
Proof.
  intros Hx%asIndex_Some Hy%asIndex_Some. unfold onBoard, inRange. f_equal.
  assert (∀ (n : number) (k : Z), (n == inject_Z k)%Q →
            num_lt n 0 = (k <? 0) ∧ num_gt n 2 = (k >? 2)) as Hcmp.
  { intros n k Hn. split.
    - destruct (k <? 0) eqn:E.
      + apply num_lt_spec. rewrite Hn. change 0%Q with (inject_Z 0).
        rewrite <- Zlt_Qlt. lia.
      + apply not_true_iff_false. intros H%num_lt_spec. rewrite Hn in H.
        change 0%Q with (inject_Z 0) in H. rewrite <- Zlt_Qlt in H. lia.
    - destruct (k >? 2) eqn:E.
      + apply num_gt_spec. rewrite Hn. change 2%Q with (inject_Z 2).
        rewrite <- Zlt_Qlt. lia.
      + apply not_true_iff_false. intros H%num_gt_spec. rewrite Hn in H.
        change 2%Q with (inject_Z 2) in H. rewrite <- Zlt_Qlt in H. lia. }
  destruct (Hcmp x i Hx) as [-> ->], (Hcmp y j Hy) as [-> ->]. done.
Qed.

(** ** The monad on one game *)

Section OneGame.
Context (s : Games) (gameId : Z) (g : Game).
Hypothesis Hg : s !! gameId = Some g.

Lemma game_on : game gameId s = (Normal g, s).
Proof. unfold game. by rewrite Hg. Qed.

Lemma update_on f : update gameId f s = (Normal tt, <[gameId := f g]> s).
Proof. unfold update. by rewrite Hg. Qed.

Lemma keep_on : <[gameId := g]> s = s.
Proof. by apply insert_id. Qed.
End OneGame.

Lemma shape3_inv (b : Board) :
  shape3 b = true →
  ∃ c00 c01 c02 c10 c11 c12 c20 c21 c22,
    b = [[c00; c01; c02]; [c10; c11; c12]; [c20; c21; c22]].
Proof.
  unfold shape3. intros H.
  destruct b as [|[|c00 [|c01 [|c02 [|]]]] [|[|c10 [|c11 [|c12 [|]]]] [|[|c20 [|c21 [|c22 [|]]]] [|]]]];
    try discriminate H.
  by do 9 eexists.
Qed.

Lemma inRange_inv (x y : Z) :
  inRange x y = true → (x = 0 ∨ x = 1 ∨ x = 2) ∧ (y = 0 ∨ y = 1 ∨ y = 2).
Proof. unfold inRange. lia. Qed.

Lemma readCell_on (b : Board) (x y : Z) (s : Games) :
  shape3 b = true → inRange x y = true →
  readCell b y x s = (Normal (cell b y x), s).
Proof.
  intros (c00&c01&c02&c10&c11&c12&c20&c21&c22&->)%shape3_inv
         [[->|[->| ->]] [->|[->| ->]]]%inRange_inv; reflexivity.
Qed.

Lemma fillMatrix_on (b : Board) (s : Games) :
  shape3 b = true → fillMatrix b s = (Normal (filled b), s).
Proof.
  intros (c00&c01&c02&c10&c11&c12&c20&c21&c22&->)%shape3_inv. reflexivity.
Qed.

Lemma shape3_writeCell (b : Board) (i j : Z) (v : value) :
  shape3 (writeCell b i j v) = shape3 b.
Proof.
  unfold shape3, writeCell. rewrite length_alter. f_equal.
  generalize (Z.to_nat i) as n. induction b as [|row b IH]; intros [|n]; simpl; try done.
  - by rewrite length_insert.
  - f_equal. apply IH.
Qed.

Lemma seated_le (p : number) : num_le p 0 = negb (seated p).
Proof. apply num_le_gt. Qed.

Section Inserted.
Context (s : Games) (gameId : Z).

Lemma game_ins h : game gameId (<[gameId := h]> s) = (Normal h, <[gameId := h]> s).
Proof. unfold game. by rewrite lookup_insert_eq. Qed.

Lemma update_ins f h :
  update gameId f (<[gameId := h]> s) = (Normal tt, <[gameId := f h]> s).
Proof. unfold update. by rewrite lookup_insert_eq, insert_insert_eq. Qed.

Lemma addPlayer_ins rnd h :
  201 ≤ gameId →
  addPlayer gameId rnd (<[gameId := h]> s)
  = (Normal (addPlayerOn gameId rnd h).1,
     <[gameId := (addPlayerOn gameId rnd h).2]> s).
Proof.
  intros Hid. unfold addPlayer, addPlayerOn, seated, bind.
  rewrite (proj2 (Z.ltb_ge _ _) Hid), game_ins.
  destruct (isEnded h); [done|].
  destruct (num_gt (players h).1 0 && num_gt (players h).2 0); [done|].
  destruct (num_le (players h).1 0); by rewrite update_ins.
Qed.

Lemma _isPlayerWin_ins p h :
  shape3 (board h) = true →
  _isPlayerWin p gameId (<[gameId := h]> s)
  = (Normal (checkLines (filled (board h)) p), <[gameId := h]> s).
Proof.
  intros Hb. unfold _isPlayerWin, bind. by rewrite game_ins, fillMatrix_on.
Qed.

Lemma _isDraw_ins h :
  _isDraw gameId (<[gameId := h]> s) = (Normal (full (board h)), <[gameId := h]> s).
Proof. unfold _isDraw, bind. by rewrite game_ins. Qed.

Lemma fixTurn_ins h :
  (if num_eq (activePlayer h) 0
   then update gameId (set_activePlayer (players h).1)
   else ret tt) (<[gameId := h]> s)
  = (Normal tt, <[gameId := fixTurn h]> s).
Proof.
  unfold fixTurn. destruct (num_eq (activePlayer h) 0); [|done].
  by rewrite update_ins.
Qed.

Lemma board_fixTurn h : board (fixTurn h) = board h.
Proof. unfold fixTurn. by destruct (num_eq _ _). Qed.

Lemma readAt_grid (b : Board) (x y : number) (i j : Z) h :
  asIndex x = Some i → asIndex y = Some j →
  shape3 b = true → inRange i j = true →
  readAt b y x h = (Normal (cell b j i), h).
Proof.
  intros Hx Hy Hb Hr. unfold readAt, at_. rewrite Hx, Hy.
  rewrite <- (readCell_on b i j h Hb Hr). unfold readCell.
  by destruct (index b j).
Qed.

(** [makeMove] at a cell of the grid. *)
Lemma makeMove_grid playerId (x y : number) (i j : Z) h :
  asIndex x = Some i → asIndex y = Some j →
  201 ≤ gameId → shape3 (board h) = true →
  makeMove gameId playerId x y (<[gameId := h]> s)
  = (Normal (makeMoveOn playerId i j h).1,
     <[gameId := (makeMoveOn playerId i j h).2]> s).
Proof.
  intros Hx Hy Hid Hb. unfold makeMove, makeMoveOn, bind at 1.
  rewrite (proj2 (Z.ltb_ge _ _) Hid), game_ins.
  destruct (isEnded h); [done|].
  rewrite !seated_le, <- negb_andb.
  destruct (negb (seated _ && seated _)); [done|].
  destruct (negb (includes _ _)); [done|].
  pose proof (onBoard_int x y i j Hx Hy) as Hon. unfold onBoard in Hon.
  destruct (_ || _ || _ || _) eqn:Hr; cbn [negb] in Hon; rewrite <- Hon;
    [done|].
  assert (inRange i j = true) as Hxy by done.
  cbn [negb]. unfold bind at 1. rewrite fixTurn_ins.
  unfold bind at 1. rewrite game_ins.
  destruct (negb (num_eq playerId _)); [done|].
  unfold bind at 1.
  rewrite (readAt_grid _ x y i j _ Hx Hy) by (by rewrite ?board_fixTurn).
  rewrite board_fixTurn.
  destruct (negb (strict_eq _ _)); [done|].
  unfold bind at 1. rewrite update_ins.
  unfold bind at 1. rewrite update_ins.
  unfold writeAt. rewrite Hx, Hy.
  fold (place playerId i j h).
  assert (shape3 (board (place playerId i j h)) = true) as Hb'.
  { unfold place; cbn. by rewrite shape3_writeCell, board_fixTurn. }
  unfold bind at 1. rewrite _isPlayerWin_ins by done.
  destruct (checkLines _ _).
  { unfold bind. by rewrite update_ins. }
  unfold bind at 1. rewrite _isDraw_ins.
  destruct (full _); [|done].
  unfold bind. by rewrite update_ins, game_ins.
Qed.

Lemma makeMove_ins playerId (x y : Z) h :
  201 ≤ gameId → shape3 (board h) = true →
  makeMove gameId playerId x y (<[gameId := h]> s)
  = (Normal (makeMoveOn playerId x y h).1,
     <[gameId := (makeMoveOn playerId x y h).2]> s).
Proof. apply makeMove_grid; apply asIndex_int. Qed.

(** [makeMove] off the grid. *)
Lemma makeMove_off_ins playerId (x y : number) h :
  asIndex x = None ∨ asIndex y = None →
  201 ≤ gameId → shape3 (board h) = true →
  makeMove gameId playerId x y (<[gameId := h]> s)
  = ((makeMoveOff playerId x y h).1,
     <[gameId := (makeMoveOff playerId x y h).2]> s).
Proof.
  intros Hoff Hid Hb. unfold makeMove, makeMoveOff, bind at 1.
  rewrite (proj2 (Z.ltb_ge _ _) Hid), game_ins.
  destruct (isEnded h); [done|].
  rewrite !seated_le, <- negb_andb.
  destruct (negb (seated _ && seated _)); [done|].
  destruct (negb (includes _ _)); [done|].
  unfold onBoard. destruct (_ || _ || _ || _) eqn:Hr; [done|].
  cbn [negb]. unfold bind at 1. rewrite fixTurn_ins.
  unfold bind at 1. rewrite game_ins.
  destruct (negb (num_eq playerId _)); [done|].
  unfold bind at 1, readAt, at_. rewrite board_fixTurn.
  destruct (asIndex y) as [j|] eqn:Hy; [|done].
  destruct Hoff as [Hx|?]; [|done]. rewrite Hx.
  assert (onBoard x y = true) as Hon by (unfold onBoard; by rewrite Hr).
  apply orb_false_iff in Hr as [[[_ _]%orb_false_iff Hlo]%orb_false_iff Hhi].
  apply asIndex_Some in Hy.
  assert (0 ≤ j ≤ 2) as Hj.
  { apply not_true_iff_false in Hlo, Hhi.
    rewrite num_lt_spec in Hlo. rewrite num_gt_spec in Hhi.
    rewrite Hy in Hlo, Hhi. change 0%Q with (inject_Z 0) in Hlo.
    change 2%Q with (inject_Z 2) in Hhi.
    rewrite <- Zlt_Qlt in Hlo, Hhi. lia. }
  destruct (shape3_inv _ Hb) as (c00&c01&c02&c10&c11&c12&c20&c21&c22&->).
  assert (j = 0 ∨ j = 1 ∨ j = 2) as [->|[->| ->]] by lia; reflexivity.
Qed.
End Inserted.

Lemma addPlayer_on (s : Games) gameId rnd g :
  201 ≤ gameId → s !! gameId = Some g →
  addPlayer gameId rnd s
  = (Normal (addPlayerOn gameId rnd g).1,
     <[gameId := (addPlayerOn gameId rnd g).2]> s).
Proof.
  intros Hid Hg. rewrite <- (addPlayer_ins s gameId rnd g Hid).
  by rewrite (keep_on s gameId g Hg).
Qed.

Lemma makeMove_off (s : Games) gameId playerId (x y : number) g :
  asIndex x = None ∨ asIndex y = None →
  201 ≤ gameId → s !! gameId = Some g → shape3 (board g) = true →
  makeMove gameId playerId x y s
  = ((makeMoveOff playerId x y g).1,
     <[gameId := (makeMoveOff playerId x y g).2]> s).
Proof.
  intros Hoff Hid Hg Hb.
  rewrite <- (makeMove_off_ins s gameId playerId x y g Hoff Hid Hb).
  by rewrite (keep_on s gameId g Hg).
Qed.

Lemma makeMove_on (s : Games) gameId playerId (x y : Z) g :
  201 ≤ gameId → s !! gameId = Some g → shape3 (board g) = true →
  makeMove gameId playerId x y s
  = (Normal (makeMoveOn playerId x y g).1,
     <[gameId := (makeMoveOn playerId x y g).2]> s).
Proof.
  intros Hid Hg Hb. rewrite <- (makeMove_ins s gameId playerId x y g Hid Hb).
  by rewrite (keep_on s gameId g Hg).
Qed.

(** Every call of [makeMove] on a registered game past the guard is one of
    the two. *)
Lemma makeMove_cases (s : Games) gameId playerId (x y : number) g :
  201 ≤ gameId → s !! gameId = Some g → shape3 (board g) = true →
  (∃ i j, asIndex x = Some i ∧ asIndex y = Some j
          ∧ makeMove gameId playerId x y s
            = (Normal (makeMoveOn playerId i j g).1,
               <[gameId := (makeMoveOn playerId i j g).2]> s))
  ∨ ((asIndex x = None ∨ asIndex y = None)
     ∧ makeMove gameId playerId x y s
       = ((makeMoveOff playerId x y g).1,
          <[gameId := (makeMoveOff playerId x y g).2]> s)).
Proof.
  intros Hid Hg Hb.
  destruct (asIndex x) as [i|] eqn:Hx, (asIndex y) as [j|] eqn:Hy.
  - left. exists i, j. split_and!; [done..|].
    rewrite <- (makeMove_grid s gameId playerId x y i j g Hx Hy Hid Hb).
    by rewrite (keep_on s gameId g Hg).
  - right. split; [by right|]. apply makeMove_off; auto.
  - right. split; [by left|]. apply makeMove_off; auto.
  - right. split; [by left|]. apply makeMove_off; auto.
Qed.

Lemma addPlayer_below (s : Games) gameId rnd :
  gameId < 201 → addPlayer gameId rnd s = (Normal GAME_DOESNT_EXIST, s).
Proof. intros H. unfold addPlayer. by rewrite (proj2 (Z.ltb_lt _ _) H). Qed.

Lemma makeMove_below (s : Games) gameId playerId (x y : number) :
  gameId < 201 → makeMove gameId playerId x y s = (Normal GAME_DOESNT_EXIST, s).
Proof. intros H. unfold makeMove. by rewrite (proj2 (Z.ltb_lt _ _) H). Qed.

Lemma addPlayer_missing (s : Games) gameId rnd :
  201 ≤ gameId → s !! gameId = None →
  addPlayer gameId rnd s = (Throw TypeError, s).
Proof.
  intros Hid Hg. unfold addPlayer, bind, game.
  by rewrite (proj2 (Z.ltb_ge _ _) Hid), Hg.
Qed.

Lemma makeMove_missing (s : Games) gameId playerId (x y : number) :
  201 ≤ gameId → s !! gameId = None →
  makeMove gameId playerId x y s = (Throw TypeError, s).
Proof.
  intros Hid Hg. unfold makeMove, bind, game.
  by rewrite (proj2 (Z.ltb_ge _ _) Hid), Hg.
Qed.

(** ** The invariant *)

Ltac wf_split H :=
  unfold wf_game in H; rewrite !andb_true_iff in H;
  destruct H as (((((?Hshape & ?Hseat1) & ?Hseat2) & ?Hcells) & ?Hguard) & ?Hturn).

Tactic Notation "fields" :=
  cbn [players board activePlayer isEnded
       set_players set_board set_activePlayer set_isEnded fst snd].
Tactic Notation "fields" "in" hyp(H) :=
  cbn [players board activePlayer isEnded
       set_players set_board set_activePlayer set_isEnded fst snd] in H.

Ltac wf_intro :=
  unfold wf_game; rewrite !andb_true_iff; repeat split.

Lemma forallb_insert (P : value → bool) (row : list value) (n : nat) (v : value) :
  forallb P row = true → P v = true → forallb P (<[n := v]> row) = true.
Proof.
  intros Hrow Hv. revert n.
  induction row as [|c row IH]; intros [|n]; simpl in *; try done;
    apply andb_true_iff in Hrow as [Hc Hrow]; apply andb_true_iff; split; auto.
Qed.

Lemma forallb2_writeCell (P : value → bool) (b : Board) (i j : Z) (v : value) :
  forallb (forallb P) b = true → P v = true →
  forallb (forallb P) (writeCell b i j v) = true.
Proof.
  unfold writeCell. intros Hb Hv. generalize (Z.to_nat i) as n.
  induction b as [|row b IH]; intros [|n]; try done; simpl in Hb |- *;
    apply andb_true_iff in Hb as [Hrow Hb]; apply andb_true_iff; split;
    try done.
  - by apply forallb_insert.
  - by apply IH.
Qed.

Lemma blank_cell_ok (ps : number * number) (b : Board) :
  blank b = true → forallb (forallb (cell_ok ps)) b = true.
Proof.
  unfold blank. intros H. rewrite forallb_forall in *. intros row Hrow.
  specialize (H row Hrow). rewrite forallb_forall in *. intros c Hc.
  specialize (H c Hc). by destruct c.
Qed.

Lemma seated_nonzero (p : number) : seated p = true → num_eq p 0 = false.
Proof.
  intros H%num_gt_spec. apply not_true_iff_false. intros E%num_eq_spec. lra.
Qed.

Lemma includes_l (ps : number * number) : includes ps ps.1 = true.
Proof. unfold includes, num_eq. by rewrite Qeq_bool_refl. Qed.

Lemma includes_r (ps : number * number) : includes ps ps.2 = true.
Proof. unfold includes, num_eq. by rewrite Qeq_bool_refl, orb_true_r. Qed.

Lemma wf_newGame gameId : wf_game gameId newGame = true.
Proof. unfold wf_game. cbn. by rewrite orb_true_r. Qed.

Lemma wf_fixTurn gameId g :
  wf_game gameId g = true →
  seated (players g).1 && seated (players g).2 = true →
  wf_game gameId (fixTurn g) = true.
Proof.
  intros Hwf Hs. unfold fixTurn. destruct (num_eq (activePlayer g) 0) eqn:E; [|done].
  wf_split Hwf. apply andb_true_iff in Hs as [Hs1 Hs2].
  wf_intro; fields; try done.
  by rewrite (seated_nonzero _ Hs1), Hs1, Hs2, includes_l.
Qed.

Lemma wf_addPlayerOn gameId rnd g :
  wf_game gameId g = true → 201 ≤ gameId → (0 <= rnd)%Q →
  wf_game gameId (addPlayerOn gameId rnd g).2 = true.
Proof.
  intros Hwf Hid Hrnd. unfold addPlayerOn.
  destruct (isEnded g) eqn:He; [done|].
  destruct (seated (players g).1 && seated (players g).2) eqn:Hs; [done|].
  wf_split Hwf. rewrite Hs in Hturn.
  destruct (num_eq (activePlayer g) 0) eqn:Ha; [|done].
  apply andb_true_iff in Hturn as [Hblank _].
  assert (seat_ok (num_add (inject_Z gameId) rnd) = true) as Hnew.
  { unfold seat_ok. apply orb_true_iff. right. apply Qle_bool_iff.
    by apply (num_add_ge 201). }
  destruct (num_le (players g).1 0); fields; wf_intro; fields; try done;
    try (by apply blank_cell_ok);
    try (by apply Z.leb_le in Hid as ->);
    by rewrite Ha, Hblank, He.
Qed.

Lemma wf_place gameId playerId x y g :
  wf_game gameId g = true →
  seated (players g).1 && seated (players g).2 = true →
  includes (players g) playerId = true →
  wf_game gameId (place playerId x y g) = true.
Proof.
  intros Hwf Hs Hp. pose proof (wf_fixTurn _ _ Hwf Hs) as Hwf'.
  assert (players (fixTurn g) = players g) as Hps.
  { unfold fixTurn. by destruct (num_eq _ _). }
  unfold place. wf_split Hwf'. rewrite Hps in *.
  apply andb_true_iff in Hs as [Hs1 Hs2].
  wf_intro; fields; rewrite ?Hps; try done.
  - by rewrite shape3_writeCell.
  - by apply forallb2_writeCell.
  - rewrite Hs1, Hs2. fields.
    destruct (num_eq (players g).1 playerId).
    + by rewrite (seated_nonzero _ Hs2), includes_r.
    + by rewrite (seated_nonzero _ Hs1), includes_l.
Qed.

Lemma wf_set_isEnded gameId g :
  wf_game gameId g = true → num_eq (activePlayer g) 0 = false →
  wf_game gameId (set_isEnded true g) = true.
Proof.
  intros Hwf Ha. wf_split Hwf. rewrite Ha in Hturn.
  wf_intro; fields; try done. by rewrite Ha.
Qed.

Lemma place_active_nonzero playerId x y g :
  seated (players g).1 && seated (players g).2 = true →
  num_eq (activePlayer (place playerId x y g)) 0 = false.
Proof.
  intros [Hs1 Hs2]%andb_true_iff. unfold place. fields.
  assert (players (fixTurn g) = players g) as ->.
  { unfold fixTurn. by destruct (num_eq _ _). }
  destruct (num_eq (players g).1 playerId); by apply seated_nonzero.
Qed.

Lemma wf_makeMoveOn gameId playerId x y g :
  wf_game gameId g = true →
  wf_game gameId (makeMoveOn playerId x y g).2 = true.
Proof.
  intros Hwf. unfold makeMoveOn.
  destruct (isEnded g); [done|].
  destruct (seated _ && seated _) eqn:Hs; [|done]. cbn [negb].
  destruct (includes _ _) eqn:Hp; [|done]. cbn [negb].
  destruct (negb (inRange _ _)); [done|].
  destruct (negb (num_eq _ _)); [by apply wf_fixTurn|].
  destruct (negb (strict_eq _ _)); [by apply wf_fixTurn|].
  pose proof (wf_place _ playerId x y _ Hwf Hs Hp) as Hwf'.
  pose proof (place_active_nonzero playerId x y g Hs) as Ha.
  destruct (checkLines _ _); [by apply wf_set_isEnded|].
  destruct (full _); [by apply wf_set_isEnded|done].
Qed.

Lemma wf_makeMoveOff gameId playerId (x y : number) g :
  wf_game gameId g = true →
  wf_game gameId (makeMoveOff playerId x y g).2 = true.
Proof.
  intros Hwf. unfold makeMoveOff.
  destruct (isEnded g); [done|].
  destruct (seated _ && seated _) eqn:Hs; [|done]. cbn [negb].
  destruct (includes _ _); [|done]. cbn [negb].
  destruct (onBoard x y); [|done]. cbn [negb].
  pose proof (wf_fixTurn _ _ Hwf Hs) as Hwf'.
  destruct (negb (num_eq playerId _)); [done|].
  by destruct (asIndex y).
Qed.

(** A move off the grid is never made: the call throws or returns an
    error code, and the game is as before or has its turn fixed. *)
Lemma makeMoveOff_state playerId (x y : number) g :
  (makeMoveOff playerId x y g).2 = g
  ∨ (seated (players g).1 && seated (players g).2 = true
     ∧ isEnded g = false
     ∧ (makeMoveOff playerId x y g).2 = fixTurn g).
Proof.
  unfold makeMoveOff.
  destruct (isEnded g) eqn:He; [by left|].
  destruct (seated _ && seated _) eqn:Hs; [|by left]. cbn [negb].
  destruct (includes _ _); [|by left]. cbn [negb].
  destruct (onBoard x y); [|by left]. cbn [negb].
  destruct (negb (num_eq playerId _)); [by right|].
  destruct (asIndex y); by right.
Qed.

Lemma makeMoveOff_refused playerId (x y : number) g :
  (makeMoveOff playerId x y g).1 = Throw TypeError
  ∨ ∃ r, (makeMoveOff playerId x y g).1 = Normal r
         ∧ isError makeMoveErrors r = true.
Proof.
  unfold makeMoveOff.
  destruct (isEnded g); [right; by eexists|].
  destruct (seated _ && seated _); [|right; by eexists]. cbn [negb].
  destruct (includes _ _); [|right; by eexists]. cbn [negb].
  destruct (onBoard x y); [|right; by eexists]. cbn [negb].
  destruct (negb (num_eq playerId _)); [right; by eexists|].
  destruct (asIndex y); [right; by eexists|by left].
Qed.

Lemma wf_Forall (s : Games) :
  wf s ↔ map_Forall (λ gameId g, wf_game gameId g = true) s.
Proof.
  unfold wf. rewrite forallb_forall, map_Forall_to_list, Forall_forall.
  split.
  - intros H [k g] Hin. apply (H (k, g)). by apply list_elem_of_In.
  - intros H [k g] Hin. apply (H (k, g)). by apply list_elem_of_In.
Qed.

Lemma wf_lookup (s : Games) gameId g :
  wf s → s !! gameId = Some g → wf_game gameId g = true.
Proof. intros Hwf%wf_Forall Hg. by apply (Hwf _ _ Hg). Qed.

Lemma wf_insert (s : Games) gameId g :
  wf s → wf_game gameId g = true → wf (<[gameId := g]> s).
Proof.
  intros Hwf%wf_Forall Hg. apply wf_Forall. by apply map_Forall_insert_2.
Qed.

Lemma wf_shape3 (s : Games) gameId g :
  wf s → s !! gameId = Some g → shape3 (board g) = true.
Proof. intros Hwf Hg. pose proof (wf_lookup _ _ _ Hwf Hg) as H. by wf_split H. Qed.

Lemma wf_exec (c : call) (s : Games) : wf s → valid_call c → wf (exec c s).
Proof.
  intros Hwf Hc. destruct c as [now rnd|gameId rnd|gameId playerId x y]; cbn.
  - apply wf_insert; [done|apply wf_newGame].
  - destruct (Z.lt_ge_cases gameId 201) as [Hid|Hid].
    { by rewrite addPlayer_below. }
    destruct (s !! gameId) as [g|] eqn:Hg.
    + rewrite (addPlayer_on _ _ _ _ Hid Hg). cbn.
      apply wf_insert; [done|].
      apply wf_addPlayerOn; [by apply (wf_lookup s)|done|apply Hc].
    + by rewrite addPlayer_missing.
  - destruct (Z.lt_ge_cases gameId 201) as [Hid|Hid].
    { by rewrite makeMove_below. }
    destruct (s !! gameId) as [g|] eqn:Hg.
    + destruct (makeMove_cases s gameId playerId x y g Hid Hg
                  (wf_shape3 _ _ _ Hwf Hg))
        as [(i & j & _ & _ & ->)|[_ ->]]; cbn [snd];
        (apply wf_insert; [done|]).
      * apply wf_makeMoveOn. by apply (wf_lookup s).
      * apply wf_makeMoveOff. by apply (wf_lookup s).
    + by rewrite makeMove_missing.
Qed.

Lemma reachable_wf (s : Games) : reachable s → wf s.
Proof. induction 1 as [|c s _ IH Hc]; [done|by apply wf_exec]. Qed.

(** ** The test suite of the source on the model

    [testAddPlayer] and the first game of [wins] and of [draws]
    (lines 311-380), with the draws 0.25 and 0.5 for the two players. *)

Example test_move_without_players :
  (makeMove Scenario.G 0 0 0 Scenario.created).1 = Normal GAME_NOT_STARTED.
Proof. vm_compute. reflexivity. Qed.

Example test_move_with_one_player :
  (makeMove Scenario.G Scenario.P1 0 0
     (exec (AddPlayer Scenario.G (1 # 4)) Scenario.created)).1
  = Normal GAME_NOT_STARTED.
Proof. vm_compute. reflexivity. Qed.

Example test_second_player_moves_first :
  (makeMove Scenario.G Scenario.P2 0 0 Scenario.started).1 = Normal WRONG_TURN.
Proof. vm_compute. reflexivity. Qed.

Example test_third_player :
  addPlayer Scenario.G (3 # 4) Scenario.started
  = (Normal GAME_ONGOING, Scenario.started).
Proof. vm_compute. reflexivity. Qed.

Example test_used_spot :
  (makeMove Scenario.G Scenario.P1 0 0 Scenario.beforeWin).1
  = Normal INVALID_LOCATION.
Proof. vm_compute. reflexivity. Qed.

Example test_outside_board :
  (makeMove Scenario.G Scenario.P1 (-5) 0 Scenario.beforeWin).1
  = Normal INVALID_LOCATION
  ∧ (makeMove Scenario.G Scenario.P1 0 7 Scenario.beforeWin).1
    = Normal INVALID_LOCATION.
Proof. split; vm_compute; reflexivity. Qed.

Example test_win :
  (makeMove Scenario.G Scenario.P1 0 2 Scenario.beforeWin).1 = Normal Scenario.P1
  ∧ (addPlayer Scenario.G (3 # 4) Scenario.won).1 = Normal GAME_ENDED
  ∧ (makeMove Scenario.G Scenario.P2 0 2 Scenario.won).1 = Normal GAME_ENDED.
Proof. split_and!; vm_compute; reflexivity. Qed.

Example test_draw :
  (makeMove Scenario.G Scenario.P1 1 0 Scenario.beforeDraw).1
  = Normal Scenario.P2.
Proof. vm_compute. reflexivity. Qed.

Example scenarios_reachable :
  reachable Scenario.started ∧ reachable Scenario.low.
Proof.
  assert (∀ r : number, r = (1 # 2)%Q ∨ r = (1 # 4)%Q ∨ r = (1 # 17179869184)%Q
                        → random r) as Hr
    by (intros r [->|[->| ->]]; split; reflexivity || discriminate).
  split; repeat (apply reachable_step; [|cbn; auto 6 with zarith]);
    try apply reachable_init.
  all: split; [discriminate|auto].
Qed.

(** ** Win detection *)

Lemma filled_3x3 c00 c01 c02 c10 c11 c12 c20 c21 c22 :
  filled [[c00; c01; c02]; [c10; c11; c12]; [c20; c21; c22]]
  = [[mark 1 c00; mark 2 c01; mark 3 c02];
     [mark 4 c10; mark 5 c11; mark 6 c12];
     [mark 7 c20; mark 8 c21; mark 9 c22]].
Proof. reflexivity. Qed.

(** The test of one line on the scratch matrix: the counters that stand
    for empty cells differ from the player's identifier, so the chain of
    equalities holds exactly when the player holds the three cells. *)
Lemma line_marked q1 q2 q3 c1 c2 c3 p :
  ¬ (q1 == p)%Q → ¬ (q2 == p)%Q → ¬ (q3 == p)%Q →
  strict_eq (mark q1 c1) (mark q2 c2)
  && strict_eq (mark q2 c2) (mark q3 c3)
  && strict_eq (mark q3 c3) (Num p)
  = held p c1 && held p c2 && held p c3.
Proof.
  intros H1 H2 H3. apply eq_true_iff_eq.
  rewrite !andb_true_iff.
  destruct c1 as [| |n1], c2 as [| |n2], c3 as [| |n3]; cbn;
    rewrite ?Qeq_bool_iff; split; intros [[E1 E2] E3];
    try done; try (exfalso; lra); repeat split; lra.
Qed.

Lemma counter_below (k : Z) (p : number) :
  k ≤ 9 → (201 <= p)%Q → ¬ (inject_Z k == p)%Q.
Proof.
  intros Hk Hp E. rewrite <- E in Hp.
  change (inject_Z 201 <= inject_Z k)%Q in Hp.
  rewrite <- Zle_Qle in Hp. lia.
Qed.

Lemma checkLines_filled (b : Board) (p : number) :
  shape3 b = true → (201 <= p)%Q →
  checkLines (filled b) p = hasLine b p.
Proof.
  intros (c00&c01&c02&c10&c11&c12&c20&c21&c22&->)%shape3_inv Hp.
  rewrite filled_3x3. unfold checkLines, hasLine, lines, existsb, occupies, holds, lineAt.
  cbv [cell index fst snd Z.ltb Z.compare Z.to_nat Pos.to_nat Pos.iter_op
       lookup list_lookup default Nat.add option_rect id].
  assert (∀ k : Z, k ≤ 9 → ¬ (inject_Z k == p)%Q) as Hk
    by (intros k ?; by apply counter_below).
  rewrite !line_marked by (apply (Hk 1) || apply (Hk 2) || apply (Hk 3)
    || apply (Hk 4) || apply (Hk 5) || apply (Hk 6) || apply (Hk 7)
    || apply (Hk 8) || apply (Hk 9); lia).
  fold (held p c00) (held p c01) (held p c02) (held p c10) (held p c11)
       (held p c12) (held p c20) (held p c21) (held p c22).
  destruct (held p c00), (held p c01), (held p c02), (held p c10),
    (held p c11), (held p c12), (held p c20), (held p c21), (held p c22);
    reflexivity.
Qed.


Lemma lineAt_filled (b : Board) (q : number) l :
  shape3 b = true → (201 <= q)%Q → In l lines →
  lineAt (filled b) q l.1.1 l.1.2 l.2 = occupies b q l.
Proof.
  intros (c00&c01&c02&c10&c11&c12&c20&c21&c22&->)%shape3_inv Hq Hl.
  assert (∀ k : Z, k ≤ 9 → ¬ (inject_Z k == q)%Q) as Hk
    by (intros k ?; by apply counter_below).
  rewrite filled_3x3. unfold lines in Hl. cbn [In] in Hl.
  repeat (destruct Hl as [<-|Hl]); try done; unfold lineAt, occupies, holds;
    cbv [cell index fst snd Z.ltb Z.compare Z.to_nat Pos.to_nat Pos.iter_op
         lookup list_lookup default Nat.add option_rect id];
    by rewrite line_marked by (apply (Hk 1) || apply (Hk 2) || apply (Hk 3)
      || apply (Hk 4) || apply (Hk 5) || apply (Hk 6) || apply (Hk 7)
      || apply (Hk 8) || apply (Hk 9); lia).
Qed.

Lemma occupies_empty (b : Board) (q : number) l c :
  In c [l.1.1; l.1.2; l.2] → cell b c.1 c.2 = Null → occupies b q l = false.
Proof.
  intros Hc Hnull. unfold occupies, holds. cbn [In] in Hc.
  destruct Hc as [<-|[<-|[<-|[]]]]; rewrite Hnull;
    by rewrite ?andb_false_r.
Qed.

(** ** Seated players *)

Lemma seated_201 (p : number) :
  seat_ok p = true → seated p = true → (201 <= p)%Q.
Proof.
  unfold seat_ok. intros [E%Qeq_bool_iff|H%Qle_bool_iff]%orb_true_iff Hs%num_gt_spec;
    [lra|done].
Qed.

Lemma includes_inv (ps : number * number) (p : number) :
  includes ps p = true → (ps.1 == p)%Q ∨ (ps.2 == p)%Q.
Proof.
  unfold includes. intros [H|H]%orb_true_iff; apply num_eq_spec in H; auto.
Qed.

Lemma player_201 gameId g p :
  wf_game gameId g = true →
  seated (players g).1 && seated (players g).2 = true →
  includes (players g) p = true → (201 <= p)%Q.
Proof.
  intros Hwf [Hs1 Hs2]%andb_true_iff Hp. wf_split Hwf.
  pose proof (seated_201 _ Hseat1 Hs1). pose proof (seated_201 _ Hseat2 Hs2).
  destruct (includes_inv _ _ Hp) as [<-|<-]; done.
Qed.

Lemma seated_guard gameId g :
  wf_game gameId g = true →
  seated (players g).1 && seated (players g).2 = true → 201 ≤ gameId.
Proof.
  intros Hwf [Hs1 Hs2]%andb_true_iff. wf_split Hwf.
  rewrite Hs1 in Hguard. cbn in Hguard. rewrite orb_false_r in Hguard. lia.
Qed.

(** ** Accepted moves *)

Lemma accepted_inv playerId x y g :
  accepted playerId x y g = true →
  isEnded g = false
  ∧ seated (players g).1 && seated (players g).2 = true
  ∧ includes (players g) playerId = true
  ∧ inRange x y = true
  ∧ num_eq playerId (activePlayer (fixTurn g)) = true
  ∧ strict_eq (cell (board g) y x) Null = true.
Proof.
  unfold accepted. rewrite !andb_true_iff, negb_true_iff. tauto.
Qed.

Lemma players_fixTurn g : players (fixTurn g) = players g.
Proof. unfold fixTurn. by destruct (num_eq _ _). Qed.

Lemma isEnded_fixTurn g : isEnded (fixTurn g) = isEnded g.
Proof. unfold fixTurn. by destruct (num_eq _ _). Qed.

Lemma board_place playerId x y g :
  board (place playerId x y g) = writeCell (board g) y x (Num playerId).
Proof. unfold place. fields. by rewrite board_fixTurn. Qed.

Lemma players_place playerId x y g : players (place playerId x y g) = players g.
Proof. unfold place. fields. by rewrite players_fixTurn. Qed.

Lemma isEnded_place playerId x y g : isEnded (place playerId x y g) = isEnded g.
Proof. unfold place. fields. by rewrite isEnded_fixTurn. Qed.

Lemma activePlayer_place playerId x y g :
  activePlayer (place playerId x y g) = otherPlayer g playerId.
Proof. unfold place, otherPlayer. fields. by rewrite players_fixTurn. Qed.

Lemma makeMoveOn_accepted playerId x y g :
  accepted playerId x y g = true →
  makeMoveOn playerId x y g
  = let g' := place playerId x y g in
    if checkLines (filled (board g')) playerId
    then (playerId, set_isEnded true g') else
    if full (board g') then (activePlayer g', set_isEnded true g') else
    (GAME_ONGOING, g').
Proof.
  intros (He & Hs & Hp & Hr & Ht & Hc)%accepted_inv. unfold makeMoveOn.
  by rewrite He, Hs, Hp, Hr, Ht, Hc.
Qed.

(** On a full board whose marks all belong to one identifier, that
    identifier has a line: a drawn game never returns the mover. *)
Lemma full_single_mark (ps : number * number) (b : Board) (p : number) :
  shape3 b = true → forallb (forallb (cell_ok ps)) b = true → full b = true →
  (ps.1 == p)%Q → (ps.2 == p)%Q → hasLine b p = true.
Proof.
  intros (c00&c01&c02&c10&c11&c12&c20&c21&c22&->)%shape3_inv Hok Hfull E1 E2.
  assert (∀ c, cell_ok ps c = true → negb (strict_eq c Null) = true → held p c = true) as Hheld.
  { intros [| |n]; try done. cbn. intros [H|H]%includes_inv _;
      apply Qeq_bool_iff; lra. }
  cbn in Hok, Hfull. rewrite !andb_true_iff in Hok, Hfull.
  unfold hasLine, lines, existsb, occupies, holds.
  cbv [cell index fst snd Z.ltb Z.compare Z.to_nat Pos.to_nat Pos.iter_op
       lookup list_lookup default Nat.add option_rect id].
  fold (held p c00) (held p c01) (held p c02).
  rewrite !Hheld by tauto. done.
Qed.

(** * The claims *)

(** C3.  After a successful [makeMove] by player [playerId] on a game of a
    well-formed registry, the call returns [playerId] with the game ended
    if and only if [playerId] holds all three cells of one of the eight
    lines of the resulting board.  The test that the code makes on a line
    is false for every seated player as soon as one cell of the line is
    empty: the counters that stand for empty cells never pass for a
    player. *)
Theorem win_iff_line (s : Games) (gameId : Z) (playerId : number) (x y : Z)
    (g : Game) :
  wf s → s !! gameId = Some g → accepted playerId x y g = true →
  ∃ r g',
    makeMove gameId playerId x y s = (Normal r, <[gameId := g']> s)
    ∧ board g' = writeCell (board g) y x (Num playerId)
    ∧ ((r == playerId)%Q ∧ isEnded g' = true
       ↔ hasLine (board g') playerId = true)
    ∧ (hasLine (board g') playerId = true → r = playerId)
    ∧ ∀ q l c,
        includes (players g') q = true → In l lines →
        In c [l.1.1; l.1.2; l.2] → cell (board g') c.1 c.2 = Null →
        lineAt (filled (board g')) q l.1.1 l.1.2 l.2 = false.
Proof.
  intros Hwf Hg Hacc. pose proof (wf_lookup _ _ _ Hwf Hg) as Hwfg.
  pose proof Hacc as (He & Hs & Hp & Hr & Ht & Hc)%accepted_inv.
  pose proof (seated_guard _ _ Hwfg Hs) as Hid.
  rewrite (makeMove_on _ _ _ _ _ _ Hid Hg (wf_shape3 _ _ _ Hwf Hg)).
  rewrite (makeMoveOn_accepted _ _ _ _ Hacc). cbv zeta.
  pose proof (wf_place _ playerId x y _ Hwfg Hs Hp) as Hwf'.
  pose proof (player_201 _ _ _ Hwfg Hs Hp) as H201.
  set (g' := place playerId x y g) in *.
  assert (shape3 (board g') = true) as Hshape by (by wf_split Hwf').
  assert (∀ e q l c,
    includes (players (set_isEnded e g')) q = true → In l lines →
    In c [l.1.1; l.1.2; l.2] → cell (board (set_isEnded e g')) c.1 c.2 = Null →
    lineAt (filled (board (set_isEnded e g'))) q l.1.1 l.1.2 l.2 = false) as Hsentinel.
  { intros e q l c Hq Hl Hin Hnull. fields in Hq. fields in Hnull. fields.
    unfold g' in Hq. rewrite players_place in Hq.
    rewrite lineAt_filled by eauto using player_201.
    by eapply occupies_empty. }
  rewrite checkLines_filled by done.
  destruct (hasLine (board g') playerId) eqn:Hline.
  { exists playerId, (set_isEnded true g'). fields.
    split_and!; [done|apply board_place|by rewrite Hline|done|apply Hsentinel]. }
  destruct (full (board g')) eqn:Hfull.
  - exists (activePlayer g'), (set_isEnded true g'). fields.
    split_and!; [done|apply board_place| |by rewrite Hline|apply Hsentinel].
    rewrite Hline. split; [|done]. intros [E _]. exfalso.
    unfold g' in E. rewrite activePlayer_place in E. unfold otherPlayer in E.
    assert ((players g).1 == playerId ∧ (players g).2 == playerId)%Q as [E1 E2].
    { destruct (num_eq (players g).1 playerId) eqn:E1.
      - apply num_eq_spec in E1. done.
      - apply num_eq_spec in E. by rewrite E1 in E. }
    wf_split Hwf'. unfold g' in Hcells. rewrite players_place in Hcells.
    rewrite (full_single_mark _ _ _ Hshape Hcells Hfull E1 E2) in Hline. done.
  - exists GAME_ONGOING, g'. pose proof (Hsentinel (isEnded g')) as Hsen.
    split_and!; [done|apply board_place| |by rewrite Hline|].
    + rewrite Hline. split; [|done]. intros [_ E].
      unfold g' in E. rewrite isEnded_place in E. congruence.
    + by destruct g'.
Qed.

Lemma win_iff_line_witness :
  wf Scenario.beforeWin
  ∧ accepted Scenario.P1 0 2 (Scenario.theGame Scenario.beforeWin) = true
  ∧ ∃ r g',
      makeMove Scenario.G Scenario.P1 0 2 Scenario.beforeWin
      = (Normal r, <[Scenario.G := g']> Scenario.beforeWin)
      ∧ ((r == Scenario.P1)%Q ∧ isEnded g' = true
         ↔ hasLine (board g') Scenario.P1 = true).
Proof.
  assert (wf Scenario.beforeWin) as Hwf by (vm_compute; reflexivity).
  assert (accepted Scenario.P1 0 2 (Scenario.theGame Scenario.beforeWin) = true)
    as Hacc by (vm_compute; reflexivity).
  split; [exact Hwf|]. split; [exact Hacc|].
  destruct (win_iff_line Scenario.beforeWin Scenario.G Scenario.P1 0 2
              (Scenario.theGame Scenario.beforeWin) Hwf)
    as (r & g' & Hrun & _ & Hiff & _);
    [vm_compute; reflexivity|exact Hacc|].
  exists r, g'. split; [exact Hrun|exact Hiff].
Defined.

Lemma forallb_concat (P : value → bool) (b : Board) :
  forallb (forallb P) b = forallb P (concat b).
Proof.
  induction b as [|row b IH]; [done|]. cbn. by rewrite forallb_app, IH.
Qed.

Lemma occupied_all (ps : number * number) (l : list value) :
  forallb (cell_ok ps) l = true →
  forallb (λ v, negb (strict_eq v Null)) l = true
  ↔ length (filter (λ v, occupied v = true) l) = length l.
Proof.
  induction l as [|c l IH]; [done|]. cbn [forallb length].
  intros [Hc Hl]%andb_true_iff. specialize (IH Hl).
  pose proof (length_filter (λ v, occupied v = true) l) as Hle.
  destruct c as [| |n]; [|done|].
  - rewrite filter_cons_False by done. cbn. split; [done|lia].
  - rewrite filter_cons_True by done. cbn. rewrite IH. lia.
Qed.

Lemma full_occupied (ps : number * number) (b : Board) :
  shape3 b = true → forallb (forallb (cell_ok ps)) b = true →
  full b = true ↔ occupiedCells b = 9%nat.
Proof.
  intros Hshape Hok. unfold full, occupiedCells.
  rewrite forallb_concat in Hok |- *. rewrite (occupied_all ps) by done.
  by destruct (shape3_inv _ Hshape) as (c00&c01&c02&c10&c11&c12&c20&c21&c22&->).
Qed.

(** C4.  After a successful [makeMove] that completes no line for the
    mover, the game ends if and only if all nine cells of the resulting
    board are occupied; the call then returns the other seated player, who
    is the one now held in [activePlayer] and differs from the mover.  If a
    cell is still empty the game is not ended and the call returns
    [GAME_ONGOING]. *)
Theorem draw_iff_board_full (s : Games) (gameId : Z) (playerId : number)
    (x y : Z) (g : Game) :
  wf s → s !! gameId = Some g → accepted playerId x y g = true →
  hasLine (writeCell (board g) y x (Num playerId)) playerId = false →
  ∃ r g',
    makeMove gameId playerId x y s = (Normal r, <[gameId := g']> s)
    ∧ board g' = writeCell (board g) y x (Num playerId)
    ∧ (isEnded g' = true ↔ occupiedCells (board g') = 9%nat)
    ∧ (occupiedCells (board g') = 9%nat →
       r = otherPlayer g playerId ∧ r = activePlayer g'
       ∧ ¬ (r == playerId)%Q)
    ∧ (occupiedCells (board g') ≠ 9%nat →
       isEnded g' = false ∧ r = GAME_ONGOING).
Proof.
  intros Hwf Hg Hacc Hline. pose proof (wf_lookup _ _ _ Hwf Hg) as Hwfg.
  pose proof Hacc as (He & Hs & Hp & Hr & Ht & Hc)%accepted_inv.
  pose proof (seated_guard _ _ Hwfg Hs) as Hid.
  rewrite (makeMove_on _ _ _ _ _ _ Hid Hg (wf_shape3 _ _ _ Hwf Hg)).
  rewrite (makeMoveOn_accepted _ _ _ _ Hacc). cbv zeta.
  pose proof (wf_place _ playerId x y _ Hwfg Hs Hp) as Hwf'.
  pose proof (player_201 _ _ _ Hwfg Hs Hp) as H201.
  pose proof (board_place playerId x y g) as Hb.
  pose proof (activePlayer_place playerId x y g) as Ha.
  pose proof (isEnded_place playerId x y g) as He'.
  pose proof (players_place playerId x y g) as Hps.
  set (g' := place playerId x y g) in *.
  assert (shape3 (board g') = true) as Hshape by (by wf_split Hwf').
  assert (forallb (forallb (cell_ok (players g))) (board g') = true) as Hok
    by (rewrite <- Hps; by wf_split Hwf').
  pose proof (full_occupied _ _ Hshape Hok) as Hfull.
  rewrite checkLines_filled, Hb, Hline by done. rewrite <- Hb in *.
  destruct (full (board g')) eqn:Ef.
  - exists (activePlayer g'), (set_isEnded true g'). fields.
    split_and!; [done|done|by rewrite <- Hfull| |by rewrite <- Hfull].
    intros _. split_and!; [done|done|]. rewrite Ha. unfold otherPlayer.
    intros E.
    assert ((players g).1 == playerId ∧ (players g).2 == playerId)%Q as [E1 E2].
    { destruct (num_eq (players g).1 playerId) eqn:E1.
      - apply num_eq_spec in E1. done.
      - apply num_eq_spec in E. by rewrite E1 in E. }
    rewrite (full_single_mark _ _ _ Hshape Hok Ef E1 E2) in Hline. done.
  - exists GAME_ONGOING, g'.
    split_and!; [done|done| | |].
    + rewrite <- Hfull, He', He. done.
    + rewrite <- Hfull. done.
    + intros _. by rewrite He', He.
Qed.

Lemma draw_iff_board_full_witness :
  wf Scenario.beforeDraw
  ∧ accepted Scenario.P1 1 0 (Scenario.theGame Scenario.beforeDraw) = true
  ∧ ∃ r g',
      makeMove Scenario.G Scenario.P1 1 0 Scenario.beforeDraw
      = (Normal r, <[Scenario.G := g']> Scenario.beforeDraw)
      ∧ (isEnded g' = true ↔ occupiedCells (board g') = 9%nat).
Proof.
  assert (wf Scenario.beforeDraw) as Hwf by (vm_compute; reflexivity).
  assert (accepted Scenario.P1 1 0 (Scenario.theGame Scenario.beforeDraw) = true)
    as Hacc by (vm_compute; reflexivity).
  split; [exact Hwf|]. split; [exact Hacc|].
  destruct (draw_iff_board_full Scenario.beforeDraw Scenario.G Scenario.P1 1 0
              (Scenario.theGame Scenario.beforeDraw) Hwf)
    as (r & g' & Hrun & _ & Hiff & _);
    [vm_compute; reflexivity|exact Hacc|vm_compute; reflexivity|].
  exists r, g'. split; [exact Hrun|exact Hiff].
Defined.

(** ** Error returns *)

Lemma positive_no_error (r : number) :
  (0 <= r)%Q →
  isError addPlayerErrors r = false ∧ isError makeMoveErrors r = false.
Proof.
  intros Hr.
  assert (∀ c : number, (c < 0)%Q → num_eq r c = false) as Hne.
  { intros c Hc. apply not_true_iff_false. intros E%num_eq_spec. lra. }
  unfold isError, addPlayerErrors, makeMoveErrors, existsb.
  rewrite !Hne; done.
Qed.

Lemma blank_cell (b : Board) (x y : Z) :
  shape3 b = true → blank b = true → inRange x y = true → cell b y x = Null.
Proof.
  assert (∀ c, strict_eq Null c = true → c = Null) as Hnull by (by intros []).
  intros (c00&c01&c02&c10&c11&c12&c20&c21&c22&->)%shape3_inv Hb
         [[->|[->| ->]] [->|[->| ->]]]%inRange_inv;
    cbn in Hb; rewrite !andb_true_iff in Hb; cbn; apply Hnull; tauto.
Qed.

Lemma otherPlayer_includes g p : includes (players g) (otherPlayer g p) = true.
Proof.
  unfold otherPlayer. destruct (num_eq _ _); [apply includes_r|apply includes_l].
Qed.

(** C6, amended.  On a well-formed registry, a call of [addPlayer] that
    returns one of its error codes leaves the registry unchanged.  A call
    of [makeMove], with any numbers as coordinates, that returns one of
    its error codes leaves the registry unchanged, except that a call
    which passes checks 1 to 5 on a game whose [activePlayer] is still
    unset has set it to [players[0]] (lines 100-102) before it returns
    [WRONG_TURN], or before it returns [INVALID_LOCATION] to the first
    player for a [boardX] that is not an integer.  [makeMove] throws,
    instead of returning a code, on an identifier from 201 on that is not
    registered, and for a [boardY] in range that is not an integer, then
    with the turn fixed. *)
Theorem errors_preserve_state (s : Games) (gameId : Z)
    (rnd playerId x y : number) :
  wf s → random rnd →
  (∀ r s', addPlayer gameId rnd s = (Normal r, s') →
     isError addPlayerErrors r = true → s' = s)
  ∧ (∀ r s', makeMove gameId playerId x y s = (Normal r, s') →
       isError makeMoveErrors r = true →
       s' = s
       ∨ ∃ g, s !! gameId = Some g ∧ (activePlayer g == 0)%Q
              ∧ s' = <[gameId := set_activePlayer (players g).1 g]> s
              ∧ (r = WRONG_TURN
                 ∨ (r = INVALID_LOCATION ∧ asIndex x = None
                    ∧ is_Some (asIndex y)
                    ∧ (playerId == (players g).1)%Q)))
  ∧ (∀ e s', makeMove gameId playerId x y s = (Throw e, s') →
       (201 ≤ gameId ∧ s !! gameId = None ∧ s' = s)
       ∨ ∃ g, s !! gameId = Some g ∧ asIndex y = None
              ∧ onBoard x y = true
              ∧ s' = <[gameId := fixTurn g]> s).
Proof.
  intros Hwf [Hrnd _].
  destruct (Z.lt_ge_cases gameId 201) as [Hid|Hid].
  { rewrite addPlayer_below, makeMove_below by done.
    split_and!; [intros r s' [= _ <-] _; auto..|done]. }
  destruct (s !! gameId) as [g|] eqn:Hg.
  2: { rewrite addPlayer_missing, makeMove_missing by done.
       split_and!; [done..|]. intros e s' Heq. left.
       by injection Heq as <-. }
  pose proof (wf_lookup _ _ _ Hwf Hg) as Hwfg.
  pose proof (keep_on _ _ _ Hg) as Hkeep.
  rewrite (addPlayer_on _ _ _ _ Hid Hg).
  assert (fixTurn g = g ∨ num_eq (activePlayer g) 0 = true) as Hfix.
  { unfold fixTurn. destruct (num_eq (activePlayer g) 0); auto. }
  assert (<[gameId := fixTurn g]> s = s
          ∨ ((activePlayer g == 0)%Q
             ∧ <[gameId := fixTurn g]> s
               = <[gameId := set_activePlayer (players g).1 g]> s))
    as Hturned.
  { destruct Hfix as [->|Ha]; [auto|]. right.
    unfold fixTurn. rewrite Ha. split; [by apply num_eq_spec|done]. }
  split; [|destruct (makeMove_cases s gameId playerId x y g Hid Hg
                       (wf_shape3 _ _ _ Hwf Hg))
             as [(i & j & Hx & Hy & ->)|[Hoff ->]]; split].
  - intros r s' [= <- <-]. unfold addPlayerOn.
    destruct (isEnded g); [done|].
    destruct (seated _ && seated _); [done|]. cbn [fst snd].
    intros Herr. exfalso.
    assert (0 <= num_add (inject_Z gameId) rnd)%Q as H0.
    { apply (num_add_ge 0); [lia|lia|done]. }
    destruct (positive_no_error _ H0). congruence.
  - intros r s' [= <- <-]. unfold makeMoveOn.
    destruct (isEnded g) eqn:He; [auto|].
    destruct (seated _ && seated _) eqn:Hs; [|auto]. cbn [negb].
    destruct (includes _ _) eqn:Hp; [|auto]. cbn [negb].
    destruct (inRange i j) eqn:Hr; [|auto]. cbn [negb].
    pose proof (player_201 _ _ _ Hwfg Hs Hp) as H201.
    destruct (negb (num_eq playerId _)).
    { cbn [fst snd]. intros _.
      destruct Hturned as [->|[? ->]]; [auto|]. right. exists g. auto. }
    destruct (negb (strict_eq _ _)) eqn:Hc.
    { cbn [fst snd]. intros _. destruct Hfix as [->|Ha]; [auto|]. exfalso.
      wf_split Hwfg. rewrite Ha in Hturn.
      apply andb_true_iff in Hturn as [Hblank _].
      by rewrite (blank_cell _ _ _ Hshape Hblank Hr) in Hc. }
    intros Herr. exfalso.
    assert (201 <= otherPlayer g playerId)%Q as Hother
      by (eapply player_201; eauto using otherPlayer_includes).
    destruct (checkLines _ _); cbn [fst] in Herr.
    { destruct (positive_no_error playerId); [lra|congruence]. }
    rewrite activePlayer_place in Herr.
    destruct (full _); cbn [fst] in Herr; [|done].
    destruct (positive_no_error (otherPlayer g playerId)); [lra|congruence].
  - intros e s' [=].
  - unfold makeMoveOff.
    destruct (isEnded g) eqn:He; [intros r s' [= <- <-]; auto|].
    destruct (seated _ && seated _) eqn:Hs; [|intros r s' [= <- <-]; auto].
    cbn [negb].
    destruct (includes _ _) eqn:Hp; [|intros r s' [= <- <-]; auto].
    cbn [negb].
    destruct (onBoard x y) eqn:Hr; [|intros r s' [= <- <-]; auto].
    cbn [negb].
    destruct (negb (num_eq playerId _)) eqn:Hturn.
    { cbn [fst snd]. intros r s' [= <- <-] _.
      destruct Hturned as [->|[? ->]]; [auto|]. right. exists g. auto. }
    destruct (asIndex y) as [j|] eqn:Hy; [|done].
    destruct Hoff as [Hx|?]; [|done].
    cbn [fst snd]. intros r s' [= <- <-] _.
    destruct Hfix as [Hsame|Ha]; [rewrite Hsame; auto|]. right.
    exists g. apply negb_false_iff, num_eq_spec in Hturn.
    unfold fixTurn in *. rewrite Ha in *. cbn in Hturn.
    split_and!; [done|by apply num_eq_spec|done|].
    right. split_and!; [done|done|by eexists|done].
  - unfold makeMoveOff.
    destruct (isEnded g) eqn:He; [done|].
    destruct (seated _ && seated _) eqn:Hs; [|done]. cbn [negb].
    destruct (includes _ _) eqn:Hp; [|done]. cbn [negb].
    destruct (onBoard x y) eqn:Hr; [|done]. cbn [negb].
    destruct (negb (num_eq playerId _)); [done|].
    destruct (asIndex y) as [j|] eqn:Hy; [done|].
    cbn [fst snd]. intros e s' Heq. injection Heq as <-. right.
    by exists g.
Qed.

Lemma errors_preserve_state_witness :
  wf Scenario.started ∧ random (1 # 2)
  ∧ (∀ r s', addPlayer Scenario.G (1 # 2) Scenario.started = (Normal r, s') →
       isError addPlayerErrors r = true → s' = Scenario.started)
  ∧ (∀ r s',
       makeMove Scenario.G Scenario.P1 (1 # 2) 0 Scenario.started
       = (Normal r, s') →
       isError makeMoveErrors r = true →
       s' = Scenario.started
       ∨ ∃ g, Scenario.started !! Scenario.G = Some g
              ∧ (activePlayer g == 0)%Q
              ∧ s' = <[Scenario.G := set_activePlayer (players g).1 g]>
                       Scenario.started
              ∧ (r = WRONG_TURN
                 ∨ (r = INVALID_LOCATION ∧ asIndex (1 # 2) = None
                    ∧ is_Some (asIndex 0)
                    ∧ (Scenario.P1 == (players g).1)%Q)))
  ∧ makeMove Scenario.G Scenario.P1 (1 # 2) 0 Scenario.started
    = (Normal INVALID_LOCATION,
       <[Scenario.G := fixTurn (Scenario.theGame Scenario.started)]>
         Scenario.started).
Proof.
  assert (wf Scenario.started) as Hwf by (vm_compute; reflexivity).
  assert (random (1 # 2)) as Hrnd by (split; reflexivity || discriminate).
  split; [exact Hwf|]. split; [exact Hrnd|].
  destruct (errors_preserve_state Scenario.started Scenario.G (1 # 2)
              Scenario.P1 (1 # 2) 0 Hwf Hrnd) as (Hadd & Hmove & _).
  split; [exact Hadd|]. split; [exact Hmove|].
  vm_compute. reflexivity.
Defined.

(** C6 as stated fails: right after both players are seated, a move by the
    second player is rejected with [WRONG_TURN], and the rejected call has
    set [activePlayer] from 0 to the first player. *)
Lemma rejected_move_fixes_turn :
  let result := makeMove Scenario.G Scenario.P2 0 0 Scenario.started in
  result.1 = Normal WRONG_TURN
  ∧ isError makeMoveErrors WRONG_TURN = true
  ∧ activePlayer (Scenario.theGame Scenario.started) = 0%Q
  ∧ activePlayer (Scenario.theGame result.2) = Scenario.P1
  ∧ result.2 ≠ Scenario.started.
Proof.
  cbv zeta. split_and!; try (vm_compute; reflexivity).
  intros E. apply (f_equal (λ s, activePlayer (Scenario.theGame s))) in E.
  vm_compute in E. discriminate E.
Qed.

(** Coordinates that are not integers, right after both players are
    seated.  With [boardX = 0.5] the first player passes the range check
    and the turn check, [board[0][0.5]] is [undefined], and the call
    returns [INVALID_LOCATION] with the turn fixed.  With [boardY = 0.5],
    [board[0.5]] is [undefined] and reading its property throws, again
    with the turn fixed.  Out of range, [2.5] is refused by the range
    check and nothing changes. *)
Example makeMove_between_cells :
  let turned := <[Scenario.G := fixTurn (Scenario.theGame Scenario.started)]>
                  Scenario.started in
  makeMove Scenario.G Scenario.P1 (1 # 2) 0 Scenario.started
  = (Normal INVALID_LOCATION, turned)
  ∧ makeMove Scenario.G Scenario.P1 0 (1 # 2) Scenario.started
    = (Throw TypeError, turned)
  ∧ makeMove Scenario.G Scenario.P1 (5 # 2) 0 Scenario.started
    = (Normal INVALID_LOCATION, Scenario.started)
  ∧ turned ≠ Scenario.started.
Proof.
  cbv zeta. split_and!; try (vm_compute; reflexivity).
  intros E. apply (f_equal (λ s, activePlayer (Scenario.theGame s))) in E.
  vm_compute in E. discriminate E.
Qed.

(** ** Identifiers *)

Lemma createGame_id_nonneg (now : Z) (rnd : number) :
  0 ≤ now → (0 <= rnd)%Q → 0 ≤ Qfloor (num_mul (inject_Z now) rnd).
Proof. apply num_mul_nonneg. Qed.


(** What [createGame] does on every registry: it returns the floor of the
    rounded product and binds it to a new game, whatever was registered
    under it; every other entry stays. *)
Lemma createGame_overwrites (s : Games) (now : Z) (rnd : number) :
  let gameId := Qfloor (num_mul (inject_Z now) rnd) in
  createGame now rnd s = (Normal gameId, <[gameId := newGame]> s).
Proof. reflexivity. Qed.

(** The product is rounded before it is floored: at
    [Date.now () = 1700000000000] the draw [4503599627386391 / 2^53] gives
    850000000003, where the floor of the exact product is 850000000002;
    at [Date.now () = 1779302145449] the draw [508752 / 2^52] gives 201,
    where the floor of the exact product is 200. *)
Example createGame_rounds :
  (createGame 1700000000000 (4503599627386391 # 2 ^ 53) ∅).1
  = Normal 850000000003
  ∧ Qfloor (inject_Z 1700000000000 * (4503599627386391 # 2 ^ 53))
    = 850000000002
  ∧ (createGame 1779302145449 (508752 # 2 ^ 52) ∅).1 = Normal 201
  ∧ Qfloor (inject_Z 1779302145449 * (508752 # 2 ^ 52)) = 200.
Proof. split_and!; vm_compute; reflexivity. Qed.

(** The sum is rounded too: on game 850000000000 the draw [2^-20] gives
    the identifier of the game, and the draw [1 - 2^-53] the next
    integer. *)
Example addPlayer_rounds :
  (addPlayer Scenario.G (1 # 2 ^ 20) Scenario.created).1
  = Normal (inject_Z Scenario.G)
  ∧ (addPlayer Scenario.G (2 ^ 53 - 1 # 2 ^ 53) Scenario.created).1
    = Normal (inject_Z (Scenario.G + 1)).
Proof. split_and!; vm_compute; reflexivity. Qed.

(** C7, evaluated.  [createGame] does not check that the identifier it
    draws is unused (its doc comment, line 16: "A valid unique ID for the
    new game").  One millisecond after the game [G] was created and both
    its players seated, [createGame] with the same draw returns [G] again
    and replaces the game by a new one.  The identifier is not outside
    the values that [addPlayer] returns either: with draw 0, [addPlayer]
    on the new game returns [G] itself. *)
Lemma createGame_reissues_identifier :
  let result := createGame (Scenario.t0 + 1) (1 # 2) Scenario.started in
  Scenario.started !! Scenario.G = Some (Scenario.theGame Scenario.started)
  ∧ result.1 = Normal Scenario.G
  ∧ Scenario.theGame Scenario.started ≠ newGame
  ∧ result.2 !! Scenario.G = Some newGame
  ∧ (addPlayer Scenario.G 0 result.2).1 = Normal (inject_Z Scenario.G).
Proof.
  cbv zeta. split_and!; try (vm_compute; reflexivity).
  intros E. apply (f_equal players) in E. vm_compute in E. discriminate E.
Qed.

(** C8, evaluated.  [addPlayer] does not check that the identifier it
    issues is new (its doc comment, line 33: "unique to this game").
    When [Math.random ()] returns 0 for both calls, the two players of the
    fresh game [G] receive the same identifier, and that identifier is the
    identifier of the game.  The draws need not be equal: the sum is
    rounded to a double, and with the different draws [2^-20] and [2^-21]
    both players of [G] receive [G] as well. *)
Lemma addPlayer_twice_same_identifier :
  let first := addPlayer Scenario.G 0 Scenario.created in
  let second := addPlayer Scenario.G 0 first.2 in
  let third := addPlayer Scenario.G (1 # 2 ^ 20) Scenario.created in
  let fourth := addPlayer Scenario.G (1 # 2 ^ 21) third.2 in
  Scenario.created !! Scenario.G = Some newGame
  ∧ first.1 = Normal (inject_Z Scenario.G)
  ∧ second.1 = Normal (inject_Z Scenario.G)
  ∧ players (Scenario.theGame second.2) = (inject_Z Scenario.G, inject_Z Scenario.G)
  ∧ third.1 = Normal (inject_Z Scenario.G)
  ∧ fourth.1 = Normal (inject_Z Scenario.G)
  ∧ players (Scenario.theGame fourth.2)
    = (inject_Z Scenario.G, inject_Z Scenario.G).
Proof. cbv zeta. split_and!; vm_compute; reflexivity. Qed.



(** ** The existence check *)

(** What the two operations do with an identifier that is not in the
    registry: the guard answers below 201, and from 201 on the access
    [games[gameId].isEnded] throws. *)
Lemma missing_game (s : Games) (gameId : Z) (rnd playerId x y : number) :
  s !! gameId = None →
  (gameId < 201 →
   addPlayer gameId rnd s = (Normal GAME_DOESNT_EXIST, s)
   ∧ makeMove gameId playerId x y s = (Normal GAME_DOESNT_EXIST, s))
  ∧ (201 ≤ gameId →
     addPlayer gameId rnd s = (Throw TypeError, s)
     ∧ makeMove gameId playerId x y s = (Throw TypeError, s)).
Proof.
  intros Hg. split; intros Hid.
  - by rewrite addPlayer_below, makeMove_below.
  - by rewrite addPlayer_missing, makeMove_missing.
Qed.

(** C1, evaluated.  With games registered under [G] only, identifier 500
    was never issued: [addPlayer] and [makeMove] throw a [TypeError]
    instead of returning [GAME_DOESNT_EXIST].  A negative identifier is
    answered by the guard. *)
Lemma unissued_identifier_throws :
  Scenario.started !! 500 = None
  ∧ addPlayer 500 (1 # 2) Scenario.started = (Throw TypeError, Scenario.started)
  ∧ makeMove 500 Scenario.P1 0 0 Scenario.started
    = (Throw TypeError, Scenario.started)
  ∧ addPlayer (-1) (1 # 2) Scenario.started
    = (Normal GAME_DOESNT_EXIST, Scenario.started).
Proof. split_and!; vm_compute; reflexivity. Qed.

(** ** Order of the checks *)

Lemma unseated_iff (p : number) :
  seat_ok p = true → seated p = false ↔ (p == -1)%Q.
Proof.
  unfold seat_ok, seated.
  intros [E%Qeq_bool_iff|H%Qle_bool_iff]%orb_true_iff;
    rewrite <- not_true_iff_false, num_gt_spec; split; intros; lra.
Qed.

(** The checks of [makeMove] on a registered game past the guard, in the
    order of lines 85-110: each result is returned when the earlier
    checks pass. *)
Lemma makeMove_precedence (s : Games) (gameId : Z) (playerId : number)
    (x y : Z) (g : Game) :
  wf s → 201 ≤ gameId → s !! gameId = Some g →
  let r := (makeMove gameId playerId x y s).1 in
  (isEnded g = true → r = Normal GAME_ENDED)
  ∧ (isEnded g = false →
     ((players g).1 == -1 ∨ (players g).2 == -1)%Q →
     r = Normal GAME_NOT_STARTED)
  ∧ (isEnded g = false → ¬ ((players g).1 == -1)%Q → ¬ ((players g).2 == -1)%Q →
     (includes (players g) playerId = false → r = Normal PLAYER_DOESNT_EXIST)
     ∧ (includes (players g) playerId = true →
        (¬ (0 ≤ x ≤ 2 ∧ 0 ≤ y ≤ 2) → r = Normal INVALID_LOCATION)
        ∧ (0 ≤ x ≤ 2 ∧ 0 ≤ y ≤ 2 →
           (¬ (playerId == turn g)%Q → r = Normal WRONG_TURN)
           ∧ ((playerId == turn g)%Q →
              (cell (board g) y x ≠ Null → r = Normal INVALID_LOCATION)
              ∧ (cell (board g) y x = Null →
                 accepted playerId x y g = true))))).
Proof.
  intros Hwf Hid Hg r. subst r.
  pose proof (wf_lookup _ _ _ Hwf Hg) as Hwfg.
  rewrite (makeMove_on _ _ _ _ _ _ Hid Hg (wf_shape3 _ _ _ Hwf Hg)).
  cbn [fst]. unfold makeMoveOn, accepted.
  wf_split Hwfg.
  pose proof (unseated_iff _ Hseat1) as Hu1.
  pose proof (unseated_iff _ Hseat2) as Hu2.
  split; [by intros ->|]. split.
  { intros -> Hun.
    assert (seated (players g).1 && seated (players g).2 = false) as ->; [|done].
    apply andb_false_iff. tauto. }
  intros -> Hp1 Hp2.
  assert (seated (players g).1 = true) as -> by (apply not_false_iff_true; tauto).
  assert (seated (players g).2 = true) as -> by (apply not_false_iff_true; tauto).
  cbn [negb andb]. split; [by intros ->|]. intros ->. cbn [negb andb].
  split.
  { intros Hout. assert (inRange x y = false) as ->; [|done].
    unfold inRange. apply negb_false_iff. lia. }
  intros Hin. assert (inRange x y = true) as -> by (unfold inRange; lia).
  cbn [negb andb]. fold (turn g). split.
  { intros Hne. assert (num_eq playerId (turn g) = false) as ->; [|done].
    apply not_true_iff_false. by rewrite num_eq_spec. }
  intros E%num_eq_spec. rewrite E. cbn [negb andb]. split.
  - intros Hc. assert (strict_eq (cell (board g) y x) Null = false) as ->; [|done].
    destruct (cell (board g) y x); done.
  - by intros ->.
Qed.

(** A move is applied exactly when the call returns no error code. *)
Lemma accepted_iff_no_error (s : Games) (gameId : Z) (playerId : number)
    (x y : Z) (g : Game) :
  wf s → 201 ≤ gameId → s !! gameId = Some g →
  accepted playerId x y g = true
  ↔ ∃ r, (makeMove gameId playerId x y s).1 = Normal r
         ∧ isError makeMoveErrors r = false.
Proof.
  intros Hwf Hid Hg. pose proof (wf_lookup _ _ _ Hwf Hg) as Hwfg.
  rewrite (makeMove_on _ _ _ _ _ _ Hid Hg (wf_shape3 _ _ _ Hwf Hg)).
  cbn [fst]. split.
  - intros Hacc. rewrite (makeMoveOn_accepted _ _ _ _ Hacc). cbv zeta.
    apply accepted_inv in Hacc as (He & Hs & Hp & _).
    pose proof (player_201 _ _ _ Hwfg Hs Hp) as H201.
    assert (201 <= otherPlayer g playerId)%Q as Hother
      by (eapply player_201; eauto using otherPlayer_includes).
    destruct (checkLines _ _).
    { exists playerId. split; [done|].
      destruct (positive_no_error playerId) as [_ H]; [lra|done]. }
    destruct (full _); [|by exists GAME_ONGOING].
    eexists. split; [done|]. rewrite activePlayer_place.
    destruct (positive_no_error (otherPlayer g playerId)) as [_ H]; [lra|done].
  - intros (r & [= <-] & Herr). revert Herr. unfold makeMoveOn, accepted.
    destruct (isEnded g); [done|].
    destruct (seated _ && seated _); [|done]. cbn [negb andb].
    destruct (includes _ _); [|done]. cbn [negb andb].
    destruct (inRange x y); [|done]. cbn [negb andb].
    destruct (num_eq playerId _); [|done]. cbn [negb andb].
    destruct (strict_eq _ _); done.
Qed.

(** C2, evaluated.  The first check of [makeMove] is the guard
    [gameId < 201], not the existence of the game.  With identifier 500
    never issued the call throws a [TypeError]; and on the registered
    game 98, which has no player, it returns [GAME_DOESNT_EXIST] where
    [GAME_NOT_STARTED] is the first applicable error. *)
Lemma makeMove_existence_check :
  Scenario.started !! 500 = None
  ∧ makeMove 500 Scenario.P2 3 0 Scenario.started
    = (Throw TypeError, Scenario.started)
  ∧ Scenario.low !! 98 = Some newGame
  ∧ makeMove 98 0 0 0 Scenario.low = (Normal GAME_DOESNT_EXIST, Scenario.low)
  ∧ makeMove Scenario.G Scenario.P2 3 0 Scenario.started
    = (Normal INVALID_LOCATION, Scenario.started).
Proof. split_and!; vm_compute; reflexivity. Qed.

(** ** Ended games *)

Lemma ended_game_guard gameId g :
  wf_game gameId g = true → isEnded g = true → 201 ≤ gameId.
Proof.
  intros Hwf He. apply (seated_guard _ _ Hwf). wf_split Hwf.
  rewrite He in Hturn. destruct (num_eq (activePlayer g) 0).
  - by rewrite andb_false_r in Hturn.
  - by apply andb_true_iff in Hturn as [? _].
Qed.

(** On a well-formed registry, [addPlayer] and [makeMove] on an ended game
    return [GAME_ENDED] and change nothing. *)
Lemma ended_game_rejects (s : Games) (gameId : Z) (g : Game) :
  wf s → s !! gameId = Some g → isEnded g = true →
  (∀ rnd, addPlayer gameId rnd s = (Normal GAME_ENDED, s))
  ∧ (∀ playerId x y, makeMove gameId playerId x y s = (Normal GAME_ENDED, s)).
Proof.
  intros Hwf Hg He. pose proof (wf_lookup _ _ _ Hwf Hg) as Hwfg.
  pose proof (ended_game_guard _ _ Hwfg He) as Hid. split.
  - intros rnd. rewrite (addPlayer_on _ _ _ _ Hid Hg). unfold addPlayerOn.
    rewrite He. cbn. by rewrite (keep_on _ _ _ Hg).
  - intros playerId x y.
    destruct (makeMove_cases s gameId playerId x y g Hid Hg
                (wf_shape3 _ _ _ Hwf Hg)) as [(i & j & _ & _ & ->)|[_ ->]].
    + unfold makeMoveOn. rewrite He. cbn. by rewrite (keep_on _ _ _ Hg).
    + unfold makeMoveOff. rewrite He. cbn. by rewrite (keep_on _ _ _ Hg).
Qed.

(** An ended game keeps its registry entry under every call, except a
    [createGame] that draws its identifier again. *)
Lemma ended_game_frozen (s : Games) (c : call) (k : Z) (g : Game) :
  wf s → s !! k = Some g → isEnded g = true →
  exec c s !! k = Some g
  ∨ ∃ now rnd, c = CreateGame now rnd
               ∧ Qfloor (num_mul (inject_Z now) rnd) = k
               ∧ exec c s !! k = Some newGame.
Proof.
  intros Hwf Hg He.
  destruct c as [now rnd|gameId rnd|gameId playerId x y]; cbn.
  - destruct (decide (Qfloor (num_mul (inject_Z now) rnd) = k)) as [<-|Hne].
    + right. exists now, rnd. by rewrite lookup_insert_eq.
    + left. by rewrite lookup_insert_ne.
  - left. destruct (Z.lt_ge_cases gameId 201) as [Hid|Hid].
    { by rewrite addPlayer_below. }
    destruct (s !! gameId) as [h|] eqn:Hh.
    2: { by rewrite addPlayer_missing. }
    destruct (decide (gameId = k)) as [->|Hne].
    + rewrite Hg in Hh. injection Hh as <-.
      by rewrite (proj1 (ended_game_rejects _ _ _ Hwf Hg He)).
    + rewrite (addPlayer_on _ _ _ _ Hid Hh). cbn. by rewrite lookup_insert_ne.
  - left. destruct (Z.lt_ge_cases gameId 201) as [Hid|Hid].
    { by rewrite makeMove_below. }
    destruct (s !! gameId) as [h|] eqn:Hh.
    2: { by rewrite makeMove_missing. }
    destruct (decide (gameId = k)) as [->|Hne].
    + rewrite Hg in Hh. injection Hh as <-.
      by rewrite (proj2 (ended_game_rejects _ _ _ Hwf Hg He)).
    + destruct (makeMove_cases s gameId playerId x y h Hid Hh
                  (wf_shape3 _ _ _ Hwf Hh)) as [(i & j & _ & _ & ->)|[_ ->]];
        cbn; by rewrite lookup_insert_ne.
Qed.

(** C5, evaluated.  The game [G] has ended with the win of the first
    player: [addPlayer] and [makeMove] return [GAME_ENDED] and leave the
    registry as it is.  A later [createGame] that draws [G] again replaces
    the ended game by a new one: [isEnded] is false again, the board is
    empty, and [addPlayer] seats a player. *)
Lemma createGame_resets_ended_game :
  let s' := (createGame (Scenario.t0 + 1) (1 # 2) Scenario.won).2 in
  isEnded (Scenario.theGame Scenario.won) = true
  ∧ addPlayer Scenario.G (1 # 2) Scenario.won = (Normal GAME_ENDED, Scenario.won)
  ∧ makeMove Scenario.G Scenario.P2 2 2 Scenario.won
    = (Normal GAME_ENDED, Scenario.won)
  ∧ (createGame (Scenario.t0 + 1) (1 # 2) Scenario.won).1 = Normal Scenario.G
  ∧ s' !! Scenario.G = Some newGame
  ∧ isEnded (Scenario.theGame s') = false
  ∧ (addPlayer Scenario.G (1 # 2) s').1 = Normal Scenario.P2.
Proof. cbv zeta. split_and!; vm_compute; reflexivity. Qed.

(** ** Order of the checks of addPlayer *)

(** [addPlayer] on a registered game past the guard: ended, then full,
    then slot 0 before slot 1. *)
Lemma addPlayer_order (s : Games) (gameId : Z) (rnd : number) (g : Game) :
  201 ≤ gameId → s !! gameId = Some g →
  let id := num_add (inject_Z gameId) rnd in
  (isEnded g = true → addPlayer gameId rnd s = (Normal GAME_ENDED, s))
  ∧ (isEnded g = false →
     (seated (players g).1 = true → seated (players g).2 = true →
      addPlayer gameId rnd s = (Normal GAME_ONGOING, s))
     ∧ (seated (players g).1 = false →
        addPlayer gameId rnd s
        = (Normal id, <[gameId := set_players (λ ps, (id, ps.2)) g]> s))
     ∧ (seated (players g).1 = true → seated (players g).2 = false →
        addPlayer gameId rnd s
        = (Normal id, <[gameId := set_players (λ ps, (ps.1, id)) g]> s))).
Proof.
  intros Hid Hg id. rewrite (addPlayer_on _ _ _ _ Hid Hg).
  unfold addPlayerOn. rewrite seated_le. fold id.
  pose proof (keep_on _ _ _ Hg) as Hkeep.
  split; [intros ->; cbn; by rewrite Hkeep|]. intros ->.
  split_and!.
  - intros -> ->. cbn. by rewrite Hkeep.
  - by intros ->.
  - by intros -> ->.
Qed.

(** C9, evaluated.  [createGame] at time [t0] with the draw 2^-34 issues
    identifier 98.  The game is registered, has not ended and has both
    slots free, yet [addPlayer] answers [GAME_DOESNT_EXIST] and seats
    nobody. *)
Lemma addPlayer_rejects_registered_game :
  (createGame Scenario.t0 (1 # 17179869184) ∅).1 = Normal 98
  ∧ Scenario.low !! 98 = Some newGame
  ∧ isEnded newGame = false
  ∧ players newGame = ((-1)%Q, (-1)%Q)
  ∧ addPlayer 98 (1 # 2) Scenario.low = (Normal GAME_DOESNT_EXIST, Scenario.low).
Proof. split_and!; vm_compute; reflexivity. Qed.

(** * Further properties of the engine: proofs *)

Lemma mark_passes (q p : number) (c : value) :
  strict_eq (mark q c) (Num p) = passesValue q p c.
Proof. by destruct c. Qed.

Lemma line_chain (m1 m2 m3 : value) (p : number) :
  strict_eq m1 m2 && strict_eq m2 m3 && strict_eq m3 (Num p)
  = strict_eq m1 (Num p) && strict_eq m2 (Num p) && strict_eq m3 (Num p).
Proof.
  apply eq_true_iff_eq. rewrite !andb_true_iff.
  destruct m1 as [| |n1], m2 as [| |n2], m3 as [| |n3]; cbn;
    rewrite ?Qeq_bool_iff; split; intros [[E1 E2] E3];
    try done; repeat split; lra.
Qed.

Lemma checkLines_exact (b : Board) (p : number) :
  shape3 b = true →
  checkLines (filled b) p = existsb (passesLine b p) lines.
Proof.
  intros (c00&c01&c02&c10&c11&c12&c20&c21&c22&->)%shape3_inv.
  rewrite filled_3x3.
  unfold checkLines, lines, existsb, passesLine, passes, lineAt, counterOf.
  cbv [cell index fst snd Z.ltb Z.compare Z.to_nat Pos.to_nat Pos.iter_op
       lookup list_lookup default Nat.add option_rect id
       Z.mul Z.add Pos.mul Pos.add Pos.succ inject_Z].
  rewrite !line_chain, !mark_passes.
  destruct (passesValue 1 p c00), (passesValue 2 p c01), (passesValue 3 p c02),
    (passesValue 4 p c10), (passesValue 5 p c11), (passesValue 6 p c12),
    (passesValue 7 p c20), (passesValue 8 p c21), (passesValue 9 p c22);
    reflexivity.
Qed.

Lemma passes_holds (b : Board) (p : number) (c : Z * Z) :
  0 ≤ c.1 ≤ 2 → 0 ≤ c.2 ≤ 2 →
  (∀ k : Z, 1 ≤ k ≤ 9 → ¬ (inject_Z k == p)%Q) →
  passes b p c = holds b p c.
Proof.
  intros H1 H2 Hp. unfold passes, holds, passesValue.
  destruct (cell b c.1 c.2); try done.
  apply not_true_iff_false. rewrite Qeq_bool_iff. apply Hp.
  unfold counterOf. lia.
Qed.

(** X1.  On a registered game with a 3x3 board, [_isPlayerWin] never
    throws and leaves the registry as it is.  It returns true exactly when
    some line passes for [playerID], where an empty cell passes if its
    counter (1 to 9, row by row) equals [playerID]; for a [playerID] that
    is none of 1..9 this is exactly: [playerID] holds a whole line. *)
Theorem isPlayerWin_exact (s : Games) (gameId : Z) (g : Game)
    (playerID : number) :
  s !! gameId = Some g → shape3 (board g) = true →
  _isPlayerWin playerID gameId s
  = (Normal (existsb (passesLine (board g) playerID) lines), s)
  ∧ ((∀ k : Z, 1 ≤ k ≤ 9 → ¬ (inject_Z k == playerID)%Q) →
     existsb (passesLine (board g) playerID) lines
     = hasLine (board g) playerID).
Proof.
  intros Hg Hshape. split.
  - unfold _isPlayerWin, bind. rewrite (game_on _ _ _ Hg), fillMatrix_on by done.
    by rewrite checkLines_exact.
  - intros Hp. unfold hasLine, lines, existsb, passesLine, occupies.
    rewrite !passes_holds by (cbn; lia || done). done.
Qed.

Lemma isPlayerWin_exact_witness :
  let g := {| players := (3%Q, 4%Q);
              board := [[Num 3; Num 3; Null]; [Null; Null; Null];
                        [Null; Null; Null]];
              activePlayer := 4%Q; isEnded := false |} in
  _isPlayerWin 3 500 {[500 := g]} = (Normal true, {[500 := g]})
  ∧ hasLine (board g) 3 = false.
Proof.
  intros g.
  destruct (isPlayerWin_exact {[500 := g]} 500 g 3) as [Hrun _];
    [vm_compute; reflexivity|vm_compute; reflexivity|].
  split; [|vm_compute; reflexivity].
  rewrite Hrun. f_equal.
Defined.

(** ** Marks, lines and the board *)

Lemma Qeq_bool_proper (n p q : number) :
  (p == q)%Q → Qeq_bool n p = Qeq_bool n q.
Proof.
  intros E. apply eq_true_iff_eq. rewrite !Qeq_bool_iff. by rewrite E.
Qed.

Lemma held_proper (p q : number) (c : value) :
  (p == q)%Q → held p c = held q c.
Proof. intros E. destruct c; try done. by apply Qeq_bool_proper. Qed.

Lemma holds_proper (b : Board) (p q : number) (c : Z * Z) :
  (p == q)%Q → holds b p c = holds b q c.
Proof.
  intros E. unfold holds. destruct (cell b c.1 c.2); try done.
  by apply Qeq_bool_proper.
Qed.

Lemma hasLine_proper (b : Board) (p q : number) :
  (p == q)%Q → hasLine b p = hasLine b q.
Proof.
  intros E. unfold hasLine, lines, existsb, occupies.
  by rewrite !(holds_proper b p q).
Qed.

Lemma marks_proper (b : Board) (p q : number) :
  (p == q)%Q → marks b p = marks b q.
Proof.
  intros E. unfold marks. f_equal. apply map_ext. intros c.
  by rewrite (held_proper p q).
Qed.

Lemma blank_inv (b : Board) :
  shape3 b = true → blank b = true → b = emptyBoard.
Proof.
  assert (∀ c, strict_eq Null c = true → c = Null) as Hnull by (by intros []).
  intros (c00&c01&c02&c10&c11&c12&c20&c21&c22&->)%shape3_inv Hb.
  cbn in Hb. rewrite !andb_true_iff in Hb.
  destruct Hb as ((?&?&?&_)&(?&?&?&_)&(?&?&?&_)&_).
  by rewrite (Hnull c00), (Hnull c01), (Hnull c02), (Hnull c10), (Hnull c11),
    (Hnull c12), (Hnull c20), (Hnull c21), (Hnull c22).
Qed.

Lemma emptyBoard_facts (q : number) :
  hasLine emptyBoard q = false ∧ marks emptyBoard q = 0%nat
  ∧ full emptyBoard = false.
Proof. done. Qed.

Ltac simpl_cell_in H :=
  cbv [cell index fst snd Z.ltb Z.compare Z.to_nat Pos.to_nat Pos.iter_op
       lookup list_lookup default Nat.add option_rect id] in H.

Ltac simpl_write :=
  repeat match goal with
  | |- context [writeCell ?b ?i ?j ?v] =>
      let r := eval cbv [writeCell alter list_alter insert list_insert
                         Z.to_nat Pos.to_nat Pos.iter_op Nat.add]
               in (writeCell b i j v) in
      change (writeCell b i j v) with r
  end.

Section WriteCell.
Context (b : Board) (x y : Z) (P : number).
Hypothesis Hshape : shape3 b = true.
Hypothesis Hrange : inRange x y = true.
Hypothesis Hnull : cell b y x = Null.

Lemma marks_writeCell (q : number) :
  marks (writeCell b y x (Num P)) q
  = (marks b q + Nat.b2n (Qeq_bool P q))%nat.
Proof.
  destruct (shape3_inv _ Hshape) as (c00&c01&c02&c10&c11&c12&c20&c21&c22&->).
  destruct (inRange_inv _ _ Hrange) as [[->|[->| ->]] [->|[->| ->]]];
    simpl_cell_in Hnull; subst; unfold marks; simpl_write;
    cbn [concat app map sum_list sum_list_with held Nat.b2n]; unfold id; lia.
Qed.

Lemma hasLine_writeCell_other (q : number) :
  Qeq_bool P q = false →
  hasLine (writeCell b y x (Num P)) q = hasLine b q.
Proof.
  intros Hne.
  destruct (shape3_inv _ Hshape) as (c00&c01&c02&c10&c11&c12&c20&c21&c22&->).
  destruct (inRange_inv _ _ Hrange) as [[->|[->| ->]] [->|[->| ->]]];
    simpl_cell_in Hnull; subst; simpl_write;
    unfold hasLine, lines, existsb, occupies, holds;
    cbv [cell index fst snd Z.ltb Z.compare Z.to_nat Pos.to_nat Pos.iter_op
         lookup list_lookup default Nat.add option_rect id];
    rewrite ?Hne; reflexivity.
Qed.

Lemma occupiedCells_writeCell :
  occupiedCells (writeCell b y x (Num P)) = S (occupiedCells b).
Proof.
  destruct (shape3_inv _ Hshape) as (c00&c01&c02&c10&c11&c12&c20&c21&c22&->).
  assert (∀ l : list value,
    length (filter (λ v, occupied v = true) l)
    = sum_list (map (λ v, Nat.b2n (occupied v)) l)) as Hsum.
  { induction l as [|c l IH]; [done|].
    destruct c; rewrite ?filter_cons_True, ?filter_cons_False by done;
      cbn [map sum_list sum_list_with occupied Nat.b2n length];
      rewrite IH; done. }
  unfold occupiedCells. rewrite !Hsum.
  destruct (inRange_inv _ _ Hrange) as [[->|[->| ->]] [->|[->| ->]]];
    simpl_cell_in Hnull; subst; simpl_write;
    cbn [concat app map sum_list sum_list_with occupied Nat.b2n];
    unfold id; lia.
Qed.

Lemma cell_writeCell (i j : Z) :
  0 ≤ i ≤ 2 → 0 ≤ j ≤ 2 →
  cell (writeCell b y x (Num P)) i j
  = if decide (i = y ∧ j = x) then Num P else cell b i j.
Proof.
  intros Hi Hj.
  destruct (shape3_inv _ Hshape) as (c00&c01&c02&c10&c11&c12&c20&c21&c22&->).
  destruct (inRange_inv _ _ Hrange) as [[->|[->| ->]] [->|[->| ->]]];
    assert (i = 0 ∨ i = 1 ∨ i = 2) as [->|[->| ->]] by lia;
    assert (j = 0 ∨ j = 1 ∨ j = 2) as [->|[->| ->]] by lia;
    reflexivity.
Qed.
End WriteCell.

(** ** The invariant [sound] *)

Ltac sound_split H :=
  unfold sound_game in H; rewrite !andb_true_iff in H;
  destruct H as [[[?Hwf ?Hturnok] ?Hendok] ?Hseats].

Lemma turn_ok_spec (g : Game) :
  turn_ok g = true
  ↔ (marks (board g) (players g).1 = marks (board g) (players g).2
     ∧ ((activePlayer g == 0)%Q ∨ (activePlayer g == (players g).1)%Q))
    ∨ (marks (board g) (players g).1 = S (marks (board g) (players g).2)
       ∧ (activePlayer g == (players g).2)%Q
       ∧ ¬ ((players g).1 == (players g).2)%Q).
Proof.
  unfold turn_ok.
  rewrite orb_true_iff, !andb_true_iff, orb_true_iff, !Nat.eqb_eq,
    negb_true_iff, <- not_true_iff_false, !num_eq_spec.
  rewrite Nat.add_1_r. tauto.
Qed.

Lemma sound_wf gameId g : sound_game gameId g = true → wf_game gameId g = true.
Proof. intros H. by sound_split H. Qed.

Lemma sound_newGame gameId : sound_game gameId newGame = true.
Proof. unfold sound_game. by rewrite wf_newGame. Qed.

Lemma wf_unstarted gameId g :
  wf_game gameId g = true →
  seated (players g).1 && seated (players g).2 = false →
  board g = emptyBoard ∧ activePlayer g == 0 ∧ isEnded g = false.
Proof.
  intros Hwf Hs. wf_split Hwf. rewrite Hs in Hturn.
  destruct (num_eq (activePlayer g) 0) eqn:Ha; [|done].
  apply andb_true_iff in Hturn as [Hblank He%negb_true_iff].
  split_and!; [by apply blank_inv|by apply num_eq_spec|done].
Qed.

Lemma sound_addPlayerOn gameId rnd g :
  sound_game gameId g = true → 201 ≤ gameId → (0 <= rnd)%Q →
  sound_game gameId (addPlayerOn gameId rnd g).2 = true.
Proof.
  intros Hsound Hid Hrnd. pose proof Hsound as Hkeep. sound_split Hsound.
  pose proof (wf_addPlayerOn _ rnd _ Hwf Hid Hrnd) as Hwf'.
  unfold sound_game. rewrite Hwf'. clear Hwf'. unfold addPlayerOn.
  destruct (isEnded g) eqn:He; [fields; by rewrite Hturnok, Hendok, Hseats|].
  destruct (seated (players g).1 && seated (players g).2) eqn:Hs;
    [fields; by rewrite Hturnok, Hendok, Hseats|].
  destruct (wf_unstarted _ _ Hwf Hs) as (Hb & Ha & _).
  apply num_eq_spec in Ha.
  assert (seated (num_add (inject_Z gameId) rnd) = true) as Hid'.
  { apply num_gt_spec.
    pose proof (num_add_ge 201 gameId rnd ltac:(lia) Hid Hrnd).
    assert (inject_Z 201 == 201)%Q by done. lra. }
  rewrite seated_le.
  destruct (seated (players g).1) eqn:Hs1; cbn [negb]; unfold turn_ok, end_ok, seats_ok;
    fields; rewrite Hb, He, Ha, ?Hs1, ?Hid', ?orb_true_r; done.
Qed.

Lemma sound_fixTurn gameId g :
  sound_game gameId g = true →
  seated (players g).1 && seated (players g).2 = true →
  sound_game gameId (fixTurn g) = true.
Proof.
  intros Hsound Hs. pose proof Hsound as Hkeep. sound_split Hsound.
  pose proof (wf_fixTurn _ _ Hwf Hs) as Hwf'. revert Hwf'.
  unfold fixTurn. destruct (num_eq (activePlayer g) 0) eqn:Ha; [|done].
  intros Hwf'. unfold sound_game. rewrite Hwf'.
  wf_split Hwf. rewrite Ha in Hturn. apply andb_true_iff in Hturn as [Hblank _].
  pose proof (blank_inv _ Hshape Hblank) as Hb.
  apply andb_true_iff. split; [|done].
  apply andb_true_iff. split.
  - apply turn_ok_spec. left. fields. rewrite Hb.
    split; [done|right; apply Qeq_refl].
  - revert Hendok. unfold end_ok. fields. by destruct (isEnded g).
Qed.

Lemma fixTurn_active_nonzero g :
  seated (players g).1 && seated (players g).2 = true →
  num_eq (activePlayer (fixTurn g)) 0 = false.
Proof.
  intros [Hs1 _]%andb_true_iff. unfold fixTurn.
  destruct (num_eq (activePlayer g) 0) eqn:Ha; [|done].
  fields. by apply seated_nonzero.
Qed.

Lemma sound_place gameId playerId x y g :
  sound_game gameId g = true → accepted playerId x y g = true →
  wf_game gameId (place playerId x y g) = true
  ∧ turn_ok (place playerId x y g) = true
  ∧ (hasLine (board (place playerId x y g)) playerId = false →
     hasLine (board (place playerId x y g)) (players g).1 = false
     ∧ hasLine (board (place playerId x y g)) (players g).2 = false).
Proof.
  intros Hsound (He & Hs & Hp & Hr & Ht & Hc)%accepted_inv.
  pose proof (sound_fixTurn _ _ Hsound Hs) as Hsound1.
  pose proof (fixTurn_active_nonzero g Hs) as Hnz.
  pose proof (sound_wf _ _ Hsound) as Hwf. sound_split Hsound1.
  pose proof (wf_place _ playerId x y _ Hwf Hs Hp) as Hwf'.
  assert (shape3 (board g) = true) as Hshape by (by wf_split Hwf).
  assert (cell (board g) y x = Null) as Hnull
    by (by destruct (cell (board g) y x)).
  apply num_eq_spec in Ht.
  assert (∀ q, (playerId == q)%Q ∨ Qeq_bool playerId q = false) as Hcmp.
  { intros q. destruct (Qeq_bool playerId q) eqn:E; [|by right].
    left. by apply Qeq_bool_iff. }
  split_and!; [done| |].
  - apply turn_ok_spec in Hturnok. apply turn_ok_spec.
    rewrite board_place, players_place, activePlayer_place.
    rewrite !(marks_writeCell _ _ _ _ Hshape Hr Hnull).
    rewrite players_fixTurn, board_fixTurn in Hturnok.
    unfold otherPlayer.
    destruct Hturnok as [[Hm [Ha|Ha]]|(Hm & Ha & Hne)].
    + apply num_eq_spec in Ha. congruence.
    + assert (playerId == (players g).1)%Q as E0 by (by rewrite Ht).
      assert (num_eq (players g).1 playerId = true) as ->
        by (apply num_eq_spec; by symmetry).
      assert (Qeq_bool playerId (players g).1 = true) as ->
        by (by apply Qeq_bool_iff).
      destruct (Hcmp (players g).2) as [E1|E1].
      * left. assert (Qeq_bool playerId (players g).2 = true) as ->
          by (by apply Qeq_bool_iff).
        split; [lia|]. right. by rewrite <- E0, <- E1.
      * right. rewrite E1. cbn [Nat.b2n]. split_and!; [lia|done|].
        intros E. apply not_true_iff_false in E1. apply E1, Qeq_bool_iff.
        by rewrite E0.
    + assert (playerId == (players g).2)%Q as E1 by (by rewrite Ht).
      assert (Qeq_bool playerId (players g).2 = true) as ->
        by (by apply Qeq_bool_iff).
      assert (Qeq_bool playerId (players g).1 = false) as E0.
      { apply not_true_iff_false. intros E%Qeq_bool_iff. apply Hne.
        by rewrite <- E, <- E1. }
      assert (num_eq (players g).1 playerId = false) as ->.
      { apply not_true_iff_false. intros E%num_eq_spec. apply Hne.
        by rewrite E, E1. }
      rewrite E0. cbn [Nat.b2n]. left. split; [lia|by right].
  - rewrite board_place. intros Hno.
    assert (isEnded (fixTurn g) = false) as He1 by (by rewrite isEnded_fixTurn).
    unfold end_ok in Hendok. rewrite He1, players_fixTurn, board_fixTurn in Hendok.
    rewrite !andb_true_iff, !negb_true_iff in Hendok.
    destruct Hendok as [[H0 H1] _].
    split.
    + destruct (Hcmp (players g).1) as [E|E].
      * by rewrite <- (hasLine_proper _ _ _ E).
      * by rewrite (hasLine_writeCell_other _ _ _ _ Hshape Hr Hnull).
    + destruct (Hcmp (players g).2) as [E|E].
      * by rewrite <- (hasLine_proper _ _ _ E).
      * by rewrite (hasLine_writeCell_other _ _ _ _ Hshape Hr Hnull).
Qed.

Lemma sound_makeMoveOn gameId playerId x y g :
  sound_game gameId g = true →
  sound_game gameId (makeMoveOn playerId x y g).2 = true.
Proof.
  intros Hsound. pose proof (sound_wf _ _ Hsound) as Hwf.
  destruct (accepted playerId x y g) eqn:Hacc.
  - rewrite (makeMoveOn_accepted _ _ _ _ Hacc). cbv zeta.
    destruct (sound_place _ _ _ _ _ Hsound Hacc) as (Hwf' & Hturn' & Hlines).
    pose proof Hacc as (He & Hs & Hp & Hr & Ht & Hc)%accepted_inv.
    pose proof (place_active_nonzero playerId x y g Hs) as Ha.
    pose proof (player_201 _ _ _ Hwf Hs Hp) as H201.
    assert (shape3 (board (place playerId x y g)) = true) as Hshape
      by (by wf_split Hwf').
    rewrite checkLines_filled by done.
    unfold sound_game.
    assert (seats_ok (place playerId x y g) = true) as Hseats'.
    { unfold seats_ok. rewrite players_place.
      apply andb_true_iff in Hs as [-> _]. apply orb_true_r. }
    destruct (hasLine (board (place playerId x y g)) playerId) eqn:Hline.
    { fields. rewrite (wf_set_isEnded _ _ Hwf' Ha).
      unfold turn_ok, end_ok, seats_ok in *. fields. rewrite Hturn', Hseats'.
      cbn [andb]. rewrite players_place, andb_true_r.
      destruct (includes_inv _ _ Hp) as [E|E];
        rewrite (hasLine_proper _ _ _ E), Hline; by rewrite ?orb_true_r. }
    destruct (Hlines eq_refl) as [H0 H1].
    destruct (full (board (place playerId x y g))) eqn:Hfull.
    { fields. rewrite (wf_set_isEnded _ _ Hwf' Ha).
      unfold turn_ok, end_ok, seats_ok in *. fields.
      rewrite Hturn', Hfull, Hseats'. by rewrite !orb_true_r. }
    fields. rewrite Hwf', Hturn', Hseats'. unfold end_ok.
    by rewrite isEnded_place, He, players_place, H0, H1, Hfull.
  - revert Hacc. unfold makeMoveOn, accepted.
    destruct (isEnded g); [done|].
    destruct (seated _ && seated _) eqn:Hs; [|done]. cbn [negb andb].
    destruct (includes _ _); [|done]. cbn [negb andb].
    destruct (inRange x y); [|done]. cbn [negb andb].
    destruct (num_eq playerId _); [|intros _; by apply sound_fixTurn].
    cbn [negb andb].
    destruct (strict_eq _ _); [done|intros _; by apply sound_fixTurn].
Qed.

Lemma sound_makeMoveOff gameId playerId (x y : number) g :
  sound_game gameId g = true →
  sound_game gameId (makeMoveOff playerId x y g).2 = true.
Proof.
  intros Hsound.
  destruct (makeMoveOff_state playerId x y g) as [->|(Hs & _ & ->)]; [done|].
  by apply sound_fixTurn.
Qed.

Lemma sound_Forall (s : Games) :
  sound s ↔ map_Forall (λ gameId g, sound_game gameId g = true) s.
Proof.
  unfold sound. rewrite forallb_forall, map_Forall_to_list, Forall_forall.
  split.
  - intros H [k g] Hin. apply (H (k, g)). by apply list_elem_of_In.
  - intros H [k g] Hin. apply (H (k, g)). by apply list_elem_of_In.
Qed.

Lemma sound_lookup (s : Games) gameId g :
  sound s → s !! gameId = Some g → sound_game gameId g = true.
Proof. intros Hs%sound_Forall Hg. by apply (Hs _ _ Hg). Qed.

Lemma sound_insert (s : Games) gameId g :
  sound s → sound_game gameId g = true → sound (<[gameId := g]> s).
Proof.
  intros Hs%sound_Forall Hg. apply sound_Forall. by apply map_Forall_insert_2.
Qed.

Lemma sound_is_wf (s : Games) : sound s → wf s.
Proof.
  intros Hs%sound_Forall. apply wf_Forall. intros k g Hg.
  by apply sound_wf, (Hs _ _ Hg).
Qed.

Lemma sound_exec (c : call) (s : Games) :
  sound s → valid_call c → sound (exec c s).
Proof.
  intros Hs Hc. pose proof (sound_is_wf _ Hs) as Hwf.
  destruct c as [now rnd|gameId rnd|gameId playerId x y]; cbn.
  - apply sound_insert; [done|apply sound_newGame].
  - destruct (Z.lt_ge_cases gameId 201) as [Hid|Hid].
    { by rewrite addPlayer_below. }
    destruct (s !! gameId) as [g|] eqn:Hg.
    + rewrite (addPlayer_on _ _ _ _ Hid Hg). cbn.
      apply sound_insert; [done|].
      apply sound_addPlayerOn; [by apply (sound_lookup s)|done|apply Hc].
    + by rewrite addPlayer_missing.
  - destruct (Z.lt_ge_cases gameId 201) as [Hid|Hid].
    { by rewrite makeMove_below. }
    destruct (s !! gameId) as [g|] eqn:Hg.
    + destruct (makeMove_cases s gameId playerId x y g Hid Hg
                  (wf_shape3 _ _ _ Hwf Hg)) as [(i & j & _ & _ & ->)|[_ ->]];
        cbn; (apply sound_insert; [done|]).
      * apply sound_makeMoveOn. by apply (sound_lookup s).
      * apply sound_makeMoveOff. by apply (sound_lookup s).
    + by rewrite makeMove_missing.
Qed.

Lemma reachable_sound (s : Games) : reachable s → sound s.
Proof. induction 1 as [|c s _ IH Hc]; [done|by apply sound_exec]. Qed.

(** ** Scenarios are reachable *)

Lemma random_scenario (r : number) :
  r = (1 # 2)%Q ∨ r = (1 # 4)%Q ∨ r = (1 # 17179869184)%Q → random r.
Proof. intros [->|[->| ->]]; split; reflexivity || discriminate. Qed.

Ltac reach :=
  repeat (apply reachable_step;
          [|cbn; try split; try discriminate;
            try (apply random_scenario; auto)]);
  try apply reachable_init; try exact I.

Lemma scenario_reachable :
  reachable Scenario.created ∧ reachable Scenario.started
  ∧ reachable Scenario.beforeWin ∧ reachable Scenario.won
  ∧ reachable Scenario.beforeDraw ∧ reachable Scenario.low.
Proof.
  unfold Scenario.won, Scenario.beforeWin, Scenario.beforeDraw.
  cbn [Scenario.play negb].
  split_and!; reach.
Qed.

(** ** State of a game in a reachable registry *)

Lemma marks_sum (ps : number * number) (l : list value) :
  ¬ (ps.1 == ps.2)%Q → forallb (cell_ok ps) l = true →
  (sum_list (map (λ c, Nat.b2n (held ps.1 c)) l)
   + sum_list (map (λ c, Nat.b2n (held ps.2 c)) l))%nat
  = length (filter (λ v, occupied v = true) l).
Proof.
  intros Hne. induction l as [|c l IH]; [done|].
  cbn [forallb]. intros [Hc Hl]%andb_true_iff. specialize (IH Hl).
  destruct c as [| |n]; [|done|].
  - rewrite filter_cons_False by done. cbn. lia.
  - rewrite filter_cons_True by done. cbn [map sum_list sum_list_with length held].
    apply includes_inv in Hc as [E|E].
    + assert (Qeq_bool n ps.1 = true) as -> by (apply Qeq_bool_iff; by symmetry).
      assert (Qeq_bool n ps.2 = false) as ->.
      { apply not_true_iff_false. intros E'%Qeq_bool_iff. apply Hne.
        by rewrite E, E'. }
      cbn. lia.
    + assert (Qeq_bool n ps.2 = true) as -> by (apply Qeq_bool_iff; by symmetry).
      assert (Qeq_bool n ps.1 = false) as ->.
      { apply not_true_iff_false. intros E'%Qeq_bool_iff. apply Hne.
        by rewrite E, E'. }
      cbn. lia.
Qed.

(** X2.  In every registry reachable from the empty one, a game has ended
    exactly when one of its two players holds a whole line or all nine
    cells are occupied. *)
Theorem ended_iff_line_or_full (s : Games) (gameId : Z) (g : Game) :
  reachable s → s !! gameId = Some g →
  isEnded g = true
  ↔ hasLine (board g) (players g).1 = true
    ∨ hasLine (board g) (players g).2 = true
    ∨ occupiedCells (board g) = 9%nat.
Proof.
  intros Hs%reachable_sound Hg. pose proof (sound_lookup _ _ _ Hs Hg) as H.
  sound_split H. pose proof Hwf as Hwf'. wf_split Hwf'.
  rewrite <- (full_occupied _ _ Hshape Hcells).
  unfold end_ok in Hendok. destruct (isEnded g).
  - rewrite !orb_true_iff in Hendok. tauto.
  - rewrite !andb_true_iff, !negb_true_iff in Hendok.
    destruct Hendok as [[-> ->] ->]. split; [done|]. intros [?|[?|?]]; done.
Qed.

Lemma ended_iff_line_or_full_witness :
  reachable Scenario.won
  ∧ Scenario.won !! Scenario.G = Some (Scenario.theGame Scenario.won)
  ∧ (isEnded (Scenario.theGame Scenario.won) = true
     ↔ hasLine (board (Scenario.theGame Scenario.won))
         (players (Scenario.theGame Scenario.won)).1 = true
       ∨ hasLine (board (Scenario.theGame Scenario.won))
           (players (Scenario.theGame Scenario.won)).2 = true
       ∨ occupiedCells (board (Scenario.theGame Scenario.won)) = 9%nat).
Proof.
  assert (reachable Scenario.won) as Hr by apply scenario_reachable.
  assert (Scenario.won !! Scenario.G = Some (Scenario.theGame Scenario.won))
    as Hg by (vm_compute; reflexivity).
  split; [exact Hr|]. split; [exact Hg|].
  exact (ended_iff_line_or_full _ _ _ Hr Hg).
Defined.

(** X3.  In every reachable registry, on a game whose two seated players
    have different identifiers, the marks on the board are those of the
    two players, the first player has as many marks as the second or one
    more, and the turn is with the first player in the first case and with
    the second in the other: the players alternate, the first-seated
    player moving first. *)
Theorem turn_follows_marks (s : Games) (gameId : Z) (g : Game) :
  reachable s → s !! gameId = Some g →
  seated (players g).1 = true → seated (players g).2 = true →
  ¬ ((players g).1 == (players g).2)%Q →
  (marks (board g) (players g).1 + marks (board g) (players g).2)%nat
  = occupiedCells (board g)
  ∧ ((marks (board g) (players g).1 = marks (board g) (players g).2
      ∧ (turn g == (players g).1)%Q)
     ∨ (marks (board g) (players g).1 = S (marks (board g) (players g).2)
        ∧ (turn g == (players g).2)%Q)).
Proof.
  intros Hs%reachable_sound Hg Hs1 Hs2 Hne.
  pose proof (sound_lookup _ _ _ Hs Hg) as H.
  sound_split H. pose proof Hwf as Hwf'. wf_split Hwf'. split.
  - unfold marks, occupiedCells. apply marks_sum; [done|].
    by rewrite <- forallb_concat.
  - apply turn_ok_spec in Hturnok. unfold turn, fixTurn.
    destruct Hturnok as [[Hm [Ha|Ha]]|(Hm & Ha & _)].
    + left. split; [done|]. apply num_eq_spec in Ha. by rewrite Ha.
    + left. split; [done|]. by destruct (num_eq (activePlayer g) 0).
    + right. split; [done|].
      assert (num_eq (activePlayer g) 0 = false) as ->; [|done].
      apply not_true_iff_false. intros E%num_eq_spec.
      apply num_gt_spec in Hs2. lra.
Qed.

Lemma turn_follows_marks_witness :
  let g := Scenario.theGame Scenario.beforeWin in
  marks (board g) (players g).1 = marks (board g) (players g).2
  ∧ (turn g == (players g).1)%Q
  ∧ (marks (board g) (players g).1 + marks (board g) (players g).2)%nat
    = occupiedCells (board g).
Proof.
  intros g.
  destruct (turn_follows_marks Scenario.beforeWin Scenario.G g)
    as [Hsum [[Hm Ht]|[Hm Ht]]];
    [apply scenario_reachable|vm_compute; reflexivity..|vm_compute; discriminate
    | |vm_compute in Hm; discriminate Hm].
  split; [exact Hm|]. split; [exact Ht|exact Hsum].
Defined.

(** ** Frame: a call touches one entry of the registry *)

Lemma fillMatrix_state (b : Board) (s : Games) : (fillMatrix b s).2 = s.
Proof.
  unfold fillMatrix, for3, fillCell, bind, readCell, ret, throw.
  destruct (index b 0), (index b 1), (index b 2); reflexivity.
Qed.

Lemma makeMove_frame_ins (s : Games) (gameId : Z) (playerId x y : number)
    (h : Game) :
  ∃ r h', makeMove gameId playerId x y (<[gameId := h]> s)
          = (r, <[gameId := h']> s).
Proof.
  unfold makeMove. destruct (gameId <? 201); [by eexists _, _|].
  unfold bind at 1. rewrite game_ins.
  destruct (isEnded h); [by eexists _, _|].
  destruct (_ || _); [by eexists _, _|].
  destruct (negb (includes _ _)); [by eexists _, _|].
  destruct (_ || _ || _ || _); [by eexists _, _|].
  unfold bind at 1. rewrite fixTurn_ins.
  unfold bind at 1. rewrite game_ins.
  destruct (negb (num_eq playerId _)); [by eexists _, _|].
  unfold bind at 1. unfold readAt.
  destruct (at_ (board (fixTurn h)) y); [|by eexists _, _].
  unfold ret at 1.
  destruct (negb (strict_eq _ _)); [by eexists _, _|].
  unfold bind at 1. rewrite update_ins.
  unfold bind at 1. rewrite update_ins.
  unfold bind at 1. unfold _isPlayerWin, bind at 1. rewrite game_ins.
  unfold bind at 1.
  match goal with
  | |- context [fillMatrix ?b ?st] =>
      pose proof (fillMatrix_state b st) as Hst;
      destruct (fillMatrix b st) as [[matrix|e] st']; cbn [snd] in Hst; subst st'
  end; [|by eexists _, _].
  unfold ret at 1.
  destruct (checkLines _ _).
  { unfold bind. rewrite update_ins. by eexists _, _. }
  unfold bind at 1. rewrite _isDraw_ins.
  destruct (full _); [|by eexists _, _].
  unfold bind. rewrite update_ins, game_ins. by eexists _, _.
Qed.

Lemma addPlayer_frame_ins (s : Games) (gameId : Z) (rnd : number) (h : Game) :
  ∃ r h', addPlayer gameId rnd (<[gameId := h]> s) = (r, <[gameId := h']> s).
Proof.
  unfold addPlayer. destruct (gameId <? 201); [by eexists _, _|].
  unfold bind at 1. rewrite game_ins.
  destruct (isEnded h); [by eexists _, _|].
  destruct (_ && _); [by eexists _, _|].
  unfold bind. destruct (num_le _ _); rewrite update_ins; by eexists _, _.
Qed.

Lemma exec_frame (c : call) (s : Games) :
  framed (target c) s (exec c s)
  ∨ (isCreateGame c = true ∧ exec c s = <[target c := newGame]> s).
Proof.
  destruct c as [now rnd|gameId rnd|gameId playerId x y]; cbn [exec target].
  - right. done.
  - left. destruct (s !! gameId) as [g|] eqn:Hg.
    + destruct (addPlayer_frame_ins s gameId rnd g) as (r & h' & E).
      rewrite (keep_on _ _ _ Hg) in E. rewrite E. right. exists h'.
      split; [by eexists|done].
    + left. unfold addPlayer. destruct (gameId <? 201); [done|].
      unfold bind, game. by rewrite Hg.
  - left. destruct (s !! gameId) as [g|] eqn:Hg.
    + destruct (makeMove_frame_ins s gameId playerId x y g) as (r & h' & E).
      rewrite (keep_on _ _ _ Hg) in E. rewrite E. right. exists h'.
      split; [by eexists|done].
    + left. unfold makeMove. destruct (gameId <? 201); [done|].
      unfold bind, game. by rewrite Hg.
Qed.

Lemma calls_are_local_aux (c : call) (s : Games) (k : Z) :
  (k ≠ target c → exec c s !! k = s !! k)
  ∧ (is_Some (s !! k) → is_Some (exec c s !! k))
  ∧ (is_Some (exec c s !! k) →
     is_Some (s !! k) ∨ (isCreateGame c = true ∧ k = target c)).
Proof.
  destruct (exec_frame c s) as [[->|(g' & Hsome & ->)]|[Hc ->]].
  - split_and!; auto.
  - split_and!.
    + intros Hk. by rewrite lookup_insert_ne.
    + intros Hk. destruct (decide (target c = k)) as [<-|Hne].
      * rewrite lookup_insert_eq. by eexists.
      * by rewrite lookup_insert_ne.
    + destruct (decide (target c = k)) as [<-|Hne]; [auto|].
      rewrite lookup_insert_ne by done. auto.
  - split_and!.
    + intros Hk. by rewrite lookup_insert_ne.
    + intros Hk. destruct (decide (target c = k)) as [<-|Hne].
      * rewrite lookup_insert_eq. by eexists.
      * by rewrite lookup_insert_ne.
    + destruct (decide (target c = k)) as [<-|Hne]; [auto|].
      rewrite lookup_insert_ne by done. auto.
Qed.

(** X4.  For every registry and every call: the call leaves the entry of
    every game other than the one it addresses as it is, it removes no
    game from the registry, and the only game it can add is the one that
    [createGame] registers. *)
Theorem calls_are_local (c : call) (s : Games) (k : Z) :
  (k ≠ target c → exec c s !! k = s !! k)
  ∧ (is_Some (s !! k) → is_Some (exec c s !! k))
  ∧ (is_Some (exec c s !! k) →
     is_Some (s !! k) ∨ (isCreateGame c = true ∧ k = target c)).
Proof. apply calls_are_local_aux. Qed.

(** ** Nothing is undone *)

Lemma cell_in_range (b : Board) (i j : Z) (v : number) :
  shape3 b = true → cell b i j = Num v → 0 ≤ i ≤ 2 ∧ 0 ≤ j ≤ 2.
Proof.
  intros (c00&c01&c02&c10&c11&c12&c20&c21&c22&->)%shape3_inv.
  unfold cell, index.
  destruct (i <? 0) eqn:Hi; [done|]. apply Z.ltb_ge in Hi.
  destruct (Z.to_nat i) as [|[|[|n]]] eqn:Ei; [| | |done];
    (destruct (j <? 0) eqn:Hj; [done|]); apply Z.ltb_ge in Hj;
    (destruct (Z.to_nat j) as [|[|[|m]]] eqn:Ej; [| | |done]); lia.
Qed.

Lemma makeMoveOn_keeps playerId x y g :
  shape3 (board g) = true →
  let g' := (makeMoveOn playerId x y g).2 in
  players g' = players g
  ∧ (isEnded g = true → g' = g)
  ∧ (∀ i j v, cell (board g) i j = Num v → cell (board g') i j = Num v).
Proof.
  intros Hshape. cbv zeta. unfold makeMoveOn.
  destruct (isEnded g) eqn:He; [done|].
  destruct (negb (seated _ && seated _)); [done|].
  destruct (negb (includes _ _)); [done|].
  destruct (inRange x y) eqn:Hr; [|done]. cbn [negb].
  destruct (negb (num_eq playerId _)).
  { cbn [snd]. rewrite players_fixTurn, board_fixTurn. by split_and!. }
  destruct (strict_eq (cell (board g) y x) Null) eqn:Hc; cbn [negb].
  2: { cbn [snd]. rewrite players_fixTurn, board_fixTurn. by split_and!. }
  assert (cell (board g) y x = Null) as Hnull
    by (by destruct (cell (board g) y x)).
  assert (∀ e, players (set_isEnded e (place playerId x y g)) = players g
    ∧ (false = true → set_isEnded e (place playerId x y g) = g)
    ∧ (∀ i j v, cell (board g) i j = Num v →
         cell (board (set_isEnded e (place playerId x y g))) i j = Num v)) as H.
  { intros e. fields. rewrite players_place, board_place.
    split_and!; [done|done|]. intros i j v Hv.
    destruct (cell_in_range _ _ _ _ Hshape Hv) as [Hi Hj].
    rewrite (cell_writeCell _ _ _ _ Hshape Hr Hnull) by done.
    destruct (decide (i = y ∧ j = x)) as [[-> ->]|_]; [congruence|done]. }
  destruct (checkLines _ _); [apply H|].
  destruct (full _); [apply H|].
  specialize (H (isEnded (place playerId x y g))).
  by destruct (place playerId x y g).
Qed.

Lemma makeMoveOff_keeps playerId (x y : number) g :
  let g' := (makeMoveOff playerId x y g).2 in
  players g' = players g
  ∧ (isEnded g = true → g' = g)
  ∧ board g' = board g.
Proof.
  cbv zeta.
  destruct (makeMoveOff_state playerId x y g) as [->|(_ & He & ->)]; [done|].
  rewrite players_fixTurn, board_fixTurn. split_and!; [done| |done].
  congruence.
Qed.

Lemma addPlayerOn_keeps gameId rnd g :
  let g' := (addPlayerOn gameId rnd g).2 in
  board g' = board g
  ∧ (isEnded g = true → g' = g)
  ∧ (seated (players g).1 = true → (players g').1 = (players g).1)
  ∧ (seated (players g).2 = true → (players g').2 = (players g).2).
Proof.
  cbv zeta. unfold addPlayerOn.
  destruct (isEnded g); [done|].
  destruct (seated (players g).1) eqn:Hs1, (seated (players g).2) eqn:Hs2;
    cbn [andb]; try done; rewrite seated_le, Hs1; done.
Qed.

(** X5.  On a well-formed registry, no call of [addPlayer] or [makeMove]
    undoes anything: the game stays registered, a seated player keeps the
    slot, every mark on the board stays where it is, and an ended game is
    left exactly as it is.  [createGame] changes an existing game only
    when it draws the identifier of that game. *)
Theorem nothing_is_undone (c : call) (s : Games) (k : Z) (g : Game) :
  wf s → s !! k = Some g →
  isCreateGame c = false ∨ target c ≠ k →
  ∃ g', exec c s !! k = Some g'
        ∧ (seated (players g).1 = true → (players g').1 = (players g).1)
        ∧ (seated (players g).2 = true → (players g').2 = (players g).2)
        ∧ (∀ i j v, cell (board g) i j = Num v → cell (board g') i j = Num v)
        ∧ (isEnded g = true → g' = g).
Proof.
  intros Hwf Hg Hc.
  destruct (decide (target c = k)) as [<-|Hne].
  2: { exists g. rewrite (proj1 (calls_are_local_aux c s k)) by done. auto. }
  destruct Hc as [Hc|Hc]; [|done].
  destruct c as [now rnd|gameId rnd|gameId playerId x y]; [done| |];
    cbn [exec target] in *.
  - destruct (Z.lt_ge_cases gameId 201) as [Hid|Hid].
    { rewrite addPlayer_below by done. exists g. auto. }
    rewrite (addPlayer_on _ _ _ _ Hid Hg). cbn [snd].
    rewrite lookup_insert_eq. eexists. split; [done|].
    destruct (addPlayerOn_keeps gameId rnd g) as (Hb & He & H1 & H2).
    split_and!; [done|done| |done]. intros i j v. by rewrite Hb.
  - destruct (Z.lt_ge_cases gameId 201) as [Hid|Hid].
    { rewrite makeMove_below by done. exists g. auto. }
    pose proof (wf_shape3 _ _ _ Hwf Hg) as Hshape.
    destruct (makeMove_cases s gameId playerId x y g Hid Hg Hshape)
      as [(i & j & _ & _ & ->)|[_ ->]];
      cbn [snd]; rewrite lookup_insert_eq; (eexists; split; [done|]).
    + destruct (makeMoveOn_keeps playerId i j g Hshape) as (Hp & He & Hcells).
      rewrite Hp. auto.
    + destruct (makeMoveOff_keeps playerId x y g) as (Hp & He & Hb).
      rewrite Hp, Hb. auto.
Qed.

Lemma nothing_is_undone_witness :
  let c := MakeMove Scenario.G Scenario.P1 0 2 in
  let g := Scenario.theGame Scenario.beforeWin in
  wf Scenario.beforeWin
  ∧ ∃ g', exec c Scenario.beforeWin !! Scenario.G = Some g'
          ∧ (players g').1 = (players g).1 ∧ (players g').2 = (players g).2
          ∧ (∀ i j v, cell (board g) i j = Num v → cell (board g') i j = Num v).
Proof.
  intros c g.
  assert (wf Scenario.beforeWin) as Hwf by (vm_compute; reflexivity).
  split; [exact Hwf|].
  destruct (nothing_is_undone c Scenario.beforeWin Scenario.G g Hwf)
    as (g' & Hg' & H1 & H2 & Hcells & _);
    [vm_compute; reflexivity|left; reflexivity|].
  exists g'. split; [exact Hg'|]. split; [|split; [|exact Hcells]].
  - apply H1. vm_compute. reflexivity.
  - apply H2. vm_compute. reflexivity.
Defined.

(** ** The identifier of a new game *)

(** X26.  [createGame] always returns.  At a time [0 <= now < 2^53] and
    with a draw in [0, 1), the identifier it returns is an integer between
    0 and [now]; the registry then holds under it a game with an empty
    board, both slots at -1, the turn unset and [isEnded] false, and every
    other entry is as before. *)
Theorem createGame_result (s : Games) (now : Z) (rnd : number) :
  0 ≤ now < 2 ^ 53 → random rnd →
  ∃ gameId s',
    createGame now rnd s = (Normal gameId, s')
    ∧ 0 ≤ gameId ≤ now
    ∧ s' !! gameId
      = Some {| players := ((-1)%Q, (-1)%Q);
                board := [[Null; Null; Null]; [Null; Null; Null];
                          [Null; Null; Null]];
                activePlayer := 0%Q; isEnded := false |}
    ∧ ∀ k, k ≠ gameId → s' !! k = s !! k.
Proof.
  intros Hnow [Hrnd Hrnd1]. eexists _, _. split; [reflexivity|].
  split_and!.
  - apply num_mul_nonneg; [lia|done].
  - apply num_mul_le; [done|done|lra].
  - apply lookup_insert_eq.
  - intros k Hk. by apply lookup_insert_ne.
Qed.

Lemma createGame_result_witness :
  0 ≤ Scenario.t0 < 2 ^ 53 ∧ random (1 # 2)
  ∧ ∃ s', createGame Scenario.t0 (1 # 2) Scenario.started
          = (Normal Scenario.G, s')
          ∧ 0 ≤ Scenario.G ≤ Scenario.t0.
Proof.
  assert (0 ≤ Scenario.t0 < 2 ^ 53) as Hnow by (vm_compute; split; discriminate || reflexivity).
  assert (random (1 # 2)) as Hrnd by (split; reflexivity || discriminate).
  split; [exact Hnow|]. split; [exact Hrnd|].
  destruct (createGame_result Scenario.started Scenario.t0 (1 # 2) Hnow Hrnd)
    as (gameId & s' & Hrun & Hrange & _).
  assert (gameId = Scenario.G) as ->.
  { assert ((createGame Scenario.t0 (1 # 2) Scenario.started).1
            = Normal Scenario.G) as Hc by (vm_compute; reflexivity).
    rewrite Hrun in Hc. by injection Hc. }
  exists s'. split; [exact Hrun|exact Hrange].
Defined.

(** ** Moves between the cells *)

(** X25.  A move is made only at integer coordinates.  On a well-formed
    registry, when [boardX] or [boardY] is not an integer, [makeMove]
    returns one of its error codes or throws a [TypeError], and every game
    keeps its board, its players and its [isEnded]. *)
Theorem makeMove_off_grid (s : Games) (gameId : Z) (playerId x y : number) :
  wf s → asIndex x = None ∨ asIndex y = None →
  ∃ c s',
    makeMove gameId playerId x y s = (c, s')
    ∧ (c = Throw TypeError
       ∨ ∃ r, c = Normal r ∧ isError makeMoveErrors r = true)
    ∧ ∀ k g, s !! k = Some g →
        ∃ g', s' !! k = Some g' ∧ board g' = board g
              ∧ players g' = players g ∧ isEnded g' = isEnded g.
Proof.
  intros Hwf Hoff.
  destruct (Z.lt_ge_cases gameId 201) as [Hid|Hid].
  { rewrite makeMove_below by done. eexists _, _. split; [done|].
    split; [right; by eexists|]. intros k g Hk. by exists g. }
  destruct (s !! gameId) as [h|] eqn:Hh.
  2: { rewrite makeMove_missing by done. eexists _, _. split; [done|].
       split; [by left|]. intros k g Hk. by exists g. }
  rewrite (makeMove_off _ _ _ _ _ _ Hoff Hid Hh (wf_shape3 _ _ _ Hwf Hh)).
  eexists _, _. split; [done|]. split.
  - destruct (makeMoveOff_refused playerId x y h) as [->|(r & -> & Hr)];
      [by left|right; by exists r].
  - intros k g Hk. destruct (decide (gameId = k)) as [<-|Hne].
    + rewrite lookup_insert_eq. eexists. split; [done|].
      assert (g = h) as -> by congruence.
      destruct (makeMoveOff_state playerId x y h) as [->|(_ & _ & ->)];
        [done|].
      by rewrite board_fixTurn, players_fixTurn, isEnded_fixTurn.
    + rewrite lookup_insert_ne by done. by exists g.
Qed.

Lemma makeMove_off_grid_witness :
  wf Scenario.started ∧ asIndex (1 # 2) = None
  ∧ ∃ s', makeMove Scenario.G Scenario.P1 (1 # 2) 0 Scenario.started
          = (Normal INVALID_LOCATION, s')
          ∧ ∃ g', s' !! Scenario.G = Some g'
                  ∧ board g' = board (Scenario.theGame Scenario.started).
Proof.
  assert (wf Scenario.started) as Hwf by (vm_compute; reflexivity).
  split; [exact Hwf|]. split; [reflexivity|].
  destruct (makeMove_off_grid Scenario.started Scenario.G Scenario.P1
              (1 # 2) 0 Hwf (or_introl eq_refl))
    as (c & s' & Hrun & _ & Hkeep).
  exists s'. split.
  - rewrite Hrun. f_equal.
    assert ((makeMove Scenario.G Scenario.P1 (1 # 2) 0 Scenario.started).1
            = Normal INVALID_LOCATION) as Hc by (vm_compute; reflexivity).
    rewrite Hrun in Hc. exact Hc.
  - destruct (Hkeep Scenario.G (Scenario.theGame Scenario.started))
      as (g' & Hg' & Hb & _); [vm_compute; reflexivity|].
    exists g'. split; [exact Hg'|exact Hb].
Defined.

(** ** Consecutive moves *)

Lemma ongoing_result playerId x y g gameId :
  wf_game gameId g = true → accepted playerId x y g = true →
  ((makeMoveOn playerId x y g).1 == GAME_ONGOING)%Q →
  makeMoveOn playerId x y g = (GAME_ONGOING, place playerId x y g).
Proof.
  intros Hwf Hacc. rewrite (makeMoveOn_accepted _ _ _ _ Hacc). cbv zeta.
  apply accepted_inv in Hacc as (He & Hs & Hp & _).
  pose proof (player_201 _ _ _ Hwf Hs Hp) as H201.
  assert (201 <= otherPlayer g playerId)%Q as Hother
    by (eapply player_201; eauto using otherPlayer_includes).
  destruct (checkLines _ _).
  { cbn [fst]. unfold GAME_ONGOING. intros E. lra. }
  destruct (full _); [|done].
  cbn [fst]. rewrite activePlayer_place. unfold GAME_ONGOING. intros E. lra.
Qed.

(** X6.  After a move that was applied and left the game going
    ([GAME_ONGOING]), the cell holds the mover's mark, the board has one
    occupied cell more, and the turn has passed: every seated player other
    than the next one, the mover included when the two identifiers
    differ, is refused with [WRONG_TURN] on any cell of the board, and the
    next player is refused with [INVALID_LOCATION] on the cell just
    taken.  Both refusals leave the registry as it is. *)
Theorem next_move_after_ongoing (s s' : Games) (gameId : Z)
    (playerId : number) (x y : Z) (g : Game) :
  wf s → s !! gameId = Some g → accepted playerId x y g = true →
  makeMove gameId playerId x y s = (Normal GAME_ONGOING, s') →
  ∃ g', s' = <[gameId := g']> s
    ∧ cell (board g') y x = Num playerId
    ∧ occupiedCells (board g') = S (occupiedCells (board g))
    ∧ activePlayer g' = otherPlayer g playerId
    ∧ (∀ q x' y', includes (players g) q = true →
         ¬ (q == otherPlayer g playerId)%Q → 0 ≤ x' ≤ 2 → 0 ≤ y' ≤ 2 →
         makeMove gameId q x' y' s' = (Normal WRONG_TURN, s'))
    ∧ makeMove gameId (otherPlayer g playerId) x y s'
      = (Normal INVALID_LOCATION, s').
Proof.
  intros Hwf Hg Hacc Hrun. pose proof (wf_lookup _ _ _ Hwf Hg) as Hwfg.
  pose proof Hacc as (He & Hs & Hp & Hr & Ht & Hc)%accepted_inv.
  pose proof (seated_guard _ _ Hwfg Hs) as Hid.
  pose proof (wf_shape3 _ _ _ Hwf Hg) as Hshape.
  rewrite (makeMove_on _ _ _ _ _ _ Hid Hg Hshape) in Hrun.
  injection Hrun as Hres <-.
  rewrite (ongoing_result _ _ _ _ _ Hwfg Hacc) in * by (by rewrite Hres).
  cbn [fst snd] in *. clear Hres.
  set (g' := place playerId x y g).
  assert (cell (board g) y x = Null) as Hnull
    by (by destruct (cell (board g) y x)).
  pose proof (wf_place _ playerId x y _ Hwfg Hs Hp) as Hwf'.
  assert (shape3 (board g') = true) as Hshape' by (by wf_split Hwf').
  pose proof (place_active_nonzero playerId x y g Hs) as Hnz.
  assert (fixTurn g' = g') as Hfix by (unfold fixTurn, g'; by rewrite Hnz).
  destruct (inRange_inv _ _ Hr) as [Hx Hy].
  assert (cell (board g') y x = Num playerId) as Hcell.
  { unfold g'.
    rewrite board_place, (cell_writeCell _ _ _ _ Hshape Hr Hnull) by lia.
    by rewrite decide_True. }
  assert (∀ q (x' y' : Z),
    makeMove gameId q x' y' (<[gameId := g']> s)
    = (Normal (makeMoveOn q x' y' g').1,
       <[gameId := (makeMoveOn q x' y' g').2]> s)) as Hnext
    by (intros; by apply makeMove_ins).
  assert (isEnded g' = false) as He'
    by (unfold g'; by rewrite isEnded_place).
  assert (players g' = players g) as Hps' by apply players_place.
  assert (activePlayer g' = otherPlayer g playerId) as Ha'
    by apply activePlayer_place.
  exists g'. split_and!; [done|done| |done| |].
  - unfold g'. rewrite board_place.
    by apply occupiedCells_writeCell.
  - intros q x' y' Hq Hne Hx' Hy'. rewrite Hnext. unfold makeMoveOn.
    rewrite He', Hps', Hs, Hq.
    cbn [negb]. assert (inRange x' y' = true) as -> by (unfold inRange; lia).
    cbn [negb]. rewrite Hfix.
    assert (num_eq q (activePlayer g') = false) as ->; [|done].
    apply not_true_iff_false. intros E%num_eq_spec. apply Hne.
    by rewrite E, Ha'.
  - rewrite Hnext. unfold makeMoveOn.
    rewrite He', Hps', Hs, otherPlayer_includes, Hr. cbn [negb]. rewrite Hfix.
    assert (num_eq (otherPlayer g playerId) (activePlayer g') = true) as ->.
    { apply num_eq_spec. by rewrite Ha'. }
    cbn [negb]. by rewrite Hcell.
Qed.

Lemma next_move_after_ongoing_witness :
  let first := makeMove Scenario.G Scenario.P1 0 0 Scenario.started in
  wf Scenario.started
  ∧ first.1 = Normal GAME_ONGOING
  ∧ makeMove Scenario.G Scenario.P1 1 1 first.2 = (Normal WRONG_TURN, first.2)
  ∧ makeMove Scenario.G Scenario.P2 0 0 first.2
    = (Normal INVALID_LOCATION, first.2).
Proof.
  intros first.
  assert (wf Scenario.started) as Hwf by (vm_compute; reflexivity).
  assert (first = (Normal GAME_ONGOING, first.2)) as Hrun
    by (vm_compute; reflexivity).
  split; [exact Hwf|]. split; [exact (f_equal fst Hrun)|].
  destruct (next_move_after_ongoing Scenario.started first.2 Scenario.G
              Scenario.P1 0 0 (Scenario.theGame Scenario.started) Hwf)
    as (g' & _ & _ & _ & _ & Hturn & Hreplay);
    [vm_compute; reflexivity|vm_compute; reflexivity|exact Hrun|].
  split.
  - apply Hturn; [vm_compute; reflexivity|vm_compute; discriminate|lia|lia].
  - exact Hreplay.
Defined.

(** ** Results *)

Lemma error_negative (codes : list number) (r : number) :
  codes = addPlayerErrors ∨ codes = makeMoveErrors →
  isError codes r = true → (r < 0)%Q.
Proof.
  intros [-> | ->]; unfold isError, addPlayerErrors, makeMoveErrors, existsb;
    rewrite !orb_true_iff, !num_eq_spec;
    unfold GAME_DOESNT_EXIST, GAME_NOT_STARTED, GAME_ENDED, GAME_ONGOING,
      PLAYER_DOESNT_EXIST, WRONG_TURN, INVALID_LOCATION;
    intros H; repeat destruct H as [H|H]; try done; lra.
Qed.

(** X7.  On a well-formed registry the result of [makeMove] tells what
    happened.  A negative result is one of the six error codes or
    [GAME_ONGOING].  A non-negative result is returned only by a move that
    ended the game: it is at least 201, it is the identifier of a player
    seated in the game, and the game is ended afterwards. *)
Theorem makeMove_result (s s' : Games) (gameId : Z) (playerId r : number)
    (x y : Z) :
  wf s → makeMove gameId playerId x y s = (Normal r, s') →
  ((r < 0)%Q → isError makeMoveErrors r = true ∨ r = GAME_ONGOING)
  ∧ ((0 <= r)%Q →
     (201 <= r)%Q
     ∧ ∃ g', s' !! gameId = Some g' ∧ isEnded g' = true
             ∧ includes (players g') r = true).
Proof.
  intros Hwf.
  destruct (Z.lt_ge_cases gameId 201) as [Hid|Hid].
  { rewrite makeMove_below by done. intros [= <- <-].
    split; [by left|]. unfold GAME_DOESNT_EXIST. intros H. lra. }
  destruct (s !! gameId) as [g|] eqn:Hg.
  2: { by rewrite makeMove_missing. }
  pose proof (wf_lookup _ _ _ Hwf Hg) as Hwfg.
  rewrite (makeMove_on _ _ _ _ _ _ Hid Hg (wf_shape3 _ _ _ Hwf Hg)).
  intros [= <- <-]. rewrite lookup_insert_eq.
  destruct (accepted playerId x y g) eqn:Hacc.
  - rewrite (makeMoveOn_accepted _ _ _ _ Hacc). cbv zeta.
    pose proof Hacc as (He & Hs & Hp & _)%accepted_inv.
    pose proof (player_201 _ _ _ Hwfg Hs Hp) as H201.
    assert (201 <= otherPlayer g playerId)%Q as Hother
      by (eapply player_201; eauto using otherPlayer_includes).
    destruct (checkLines _ _); cbn [fst snd].
    { split; [intros H; lra|]. intros _. split; [done|]. eexists.
      split; [done|]. fields. by rewrite players_place. }
    destruct (full _); cbn [fst snd].
    { rewrite activePlayer_place. split; [intros H; lra|]. intros _.
      split; [done|]. eexists. split; [done|]. fields.
      rewrite players_place. by rewrite otherPlayer_includes. }
    split; [by right|]. unfold GAME_ONGOING. intros H. lra.
  - assert (isError makeMoveErrors (makeMoveOn playerId x y g).1 = true) as Herr.
    { revert Hacc. unfold makeMoveOn, accepted.
      destruct (isEnded g); [done|].
      destruct (seated _ && seated _); [|done]. cbn [negb andb].
      destruct (includes _ _); [|done]. cbn [negb andb].
      destruct (inRange x y); [|done]. cbn [negb andb].
      destruct (num_eq playerId _); [|done]. cbn [negb andb].
      destruct (strict_eq _ _); done. }
    split; [by left|]. intros H.
    pose proof (error_negative _ _ (or_intror eq_refl) Herr). lra.
Qed.

Lemma makeMove_result_witness :
  let run := makeMove Scenario.G Scenario.P1 0 2 Scenario.beforeWin in
  wf Scenario.beforeWin
  ∧ run.1 = Normal Scenario.P1
  ∧ (201 <= Scenario.P1)%Q
  ∧ ∃ g', run.2 !! Scenario.G = Some g' ∧ isEnded g' = true
          ∧ includes (players g') Scenario.P1 = true.
Proof.
  intros run.
  assert (wf Scenario.beforeWin) as Hwf by (vm_compute; reflexivity).
  assert (run = (Normal Scenario.P1, run.2)) as Hrun
    by (vm_compute; reflexivity).
  split; [exact Hwf|]. split; [exact (f_equal fst Hrun)|].
  apply (makeMove_result Scenario.beforeWin run.2 Scenario.G Scenario.P1
           Scenario.P1 0 2 Hwf Hrun).
  vm_compute. discriminate.
Defined.

(** X8.  On a well-formed registry, with a draw in [0, 1), the result of
    [addPlayer] tells what happened.  A negative result is one of its
    three error codes and the registry is unchanged.  A non-negative
    result is the new identifier, the double [gameId + rnd] of line 50:
    it is at least 201, the game is registered under an identifier of at
    least 201, and the identifier is now in one of the two slots of the
    game.  For a game identifier below 2^53 - 1 the new identifier lies
    between [gameId] and [gameId + 1], both ends included. *)
Theorem addPlayer_result (s s' : Games) (gameId : Z) (rnd r : number) :
  wf s → random rnd → addPlayer gameId rnd s = (Normal r, s') →
  ((r < 0)%Q → isError addPlayerErrors r = true ∧ s' = s)
  ∧ ((0 <= r)%Q →
     r = num_add (inject_Z gameId) rnd ∧ (201 <= r)%Q ∧ 201 ≤ gameId
     ∧ (gameId + 1 < 2 ^ 53 →
        (inject_Z gameId <= r)%Q ∧ (r <= inject_Z (gameId + 1))%Q)
     ∧ ∃ g g', s !! gameId = Some g ∧ s' !! gameId = Some g'
               ∧ includes (players g') r = true
               ∧ board g' = board g).
Proof.
  intros Hwf [Hrnd Hrnd1].
  destruct (Z.lt_ge_cases gameId 201) as [Hid|Hid].
  { rewrite addPlayer_below by done. intros [= <- <-].
    split; [done|]. unfold GAME_DOESNT_EXIST. intros H. lra. }
  destruct (s !! gameId) as [g|] eqn:Hg.
  2: { by rewrite addPlayer_missing. }
  rewrite (addPlayer_on _ _ _ _ Hid Hg). intros [= <- <-].
  rewrite lookup_insert_eq. pose proof (keep_on _ _ _ Hg) as Hkeep.
  unfold addPlayerOn.
  destruct (isEnded g); cbn [fst snd].
  { split; [done|]. unfold GAME_ENDED. intros H. lra. }
  destruct (seated _ && seated _); cbn [fst snd].
  { split; [done|]. unfold GAME_ONGOING. intros H. lra. }
  assert (201 <= num_add (inject_Z gameId) rnd)%Q as H201.
  { pose proof (num_add_ge 201 gameId rnd ltac:(lia) Hid Hrnd).
    assert (inject_Z 201 == 201)%Q by done. lra. }
  split; [intros H; lra|]. intros _. split_and!; [done..| |].
  { intros Hbig. split.
    - apply num_add_ge; [lia|lia|done].
    - apply num_add_le; [done| |lra].
      rewrite (Zle_Qle 201 gameId) in Hid.
      assert (inject_Z 201 == 201)%Q by done. lra. }
  exists g. eexists. split_and!; [done|done| |].
  - destruct (num_le _ _); fields; [apply includes_l|apply includes_r].
  - by destruct (num_le _ _).
Qed.

Lemma addPlayer_result_witness :
  let run := addPlayer Scenario.G (1 # 4) Scenario.created in
  wf Scenario.created ∧ random (1 # 4)
  ∧ run.1 = Normal Scenario.P1
  ∧ Scenario.P1 = num_add (inject_Z Scenario.G) (1 # 4) ∧ (201 <= Scenario.P1)%Q.
Proof.
  intros run.
  assert (wf Scenario.created) as Hwf by (vm_compute; reflexivity).
  assert (random (1 # 4)) as Hrnd by (split; reflexivity || discriminate).
  assert (run = (Normal Scenario.P1, run.2)) as Hrun
    by (vm_compute; reflexivity).
  split; [exact Hwf|]. split; [exact Hrnd|].
  split; [exact (f_equal fst Hrun)|].
  destruct (addPlayer_result Scenario.created run.2 Scenario.G (1 # 4)
              Scenario.P1 Hwf Hrnd Hrun) as [_ H].
  destruct H as (H1 & H2 & _); [vm_compute; discriminate|].
  split; [exact H1|exact H2].
Defined.

Lemma addPlayerOn_seats gameId rnd g :
  201 ≤ gameId → (0 <= rnd)%Q → isEnded g = false →
  let g' := (addPlayerOn gameId rnd g).2 in
  isEnded g' = false
  ∧ seated (players g').1 = true
  ∧ (seated (players g).1 = true → seated (players g').2 = true).
Proof.
  intros Hid Hrnd He. cbv zeta.
  assert (seated (num_add (inject_Z gameId) rnd) = true) as Hseat.
  { apply num_gt_spec.
    pose proof (num_add_ge 201 gameId rnd ltac:(lia) Hid Hrnd).
    assert (inject_Z 201 == 201)%Q by done. lra. }
  unfold addPlayerOn. rewrite He, seated_le.
  destruct (seated (players g).1) eqn:H1.
  - destruct (seated (players g).2) eqn:H2; cbn [andb negb snd]; fields; done.
  - cbn [andb negb snd]. fields. done.
Qed.

(** X9.  At most two players are admitted: on a well-formed registry, on
    a registered game that has passed the guard and has not ended,
    whatever its slots hold, the third of three consecutive [addPlayer]
    calls with draws in [0, 1) returns [GAME_ONGOING] and changes nothing,
    and both slots are then filled. *)
Theorem third_player_is_rejected (s : Games) (gameId : Z) (g : Game)
    (r1 r2 r3 : number) :
  wf s → 201 ≤ gameId → s !! gameId = Some g → isEnded g = false →
  random r1 → random r2 → random r3 →
  let s2 := (addPlayer gameId r2 (addPlayer gameId r1 s).2).2 in
  addPlayer gameId r3 s2 = (Normal GAME_ONGOING, s2)
  ∧ ∃ g2, s2 !! gameId = Some g2
          ∧ seated (players g2).1 = true ∧ seated (players g2).2 = true.
Proof.
  intros Hwf Hid Hg He [Hr1 _] [Hr2 _] _ s2. subst s2.
  rewrite (addPlayer_on _ _ _ _ Hid Hg). cbn [snd].
  rewrite addPlayer_ins by done. cbn [snd].
  rewrite addPlayer_ins by done.
  destruct (addPlayerOn_seats gameId r1 g Hid Hr1 He) as (He1 & Hs11 & _).
  destruct (addPlayerOn_seats gameId r2 _ Hid Hr2 He1) as (He2 & Hs1 & Hs2).
  specialize (Hs2 Hs11).
  set (g2 := (addPlayerOn gameId r2 (addPlayerOn gameId r1 g).2).2) in *.
  unfold addPlayerOn. rewrite He2, Hs1, Hs2. cbn [andb fst snd].
  split; [done|].
  exists g2. by rewrite lookup_insert_eq.
Qed.

Lemma third_player_is_rejected_witness :
  let s2 := (addPlayer Scenario.G (1 # 2)
               (addPlayer Scenario.G (1 # 4) Scenario.created).2).2 in
  wf Scenario.created ∧ 201 ≤ Scenario.G
  ∧ addPlayer Scenario.G (1 # 2) s2 = (Normal GAME_ONGOING, s2).
Proof.
  intros s2.
  assert (wf Scenario.created) as Hwf by (vm_compute; reflexivity).
  assert (201 ≤ Scenario.G) as Hid by (vm_compute; discriminate).
  assert (∀ r, r = (1 # 4)%Q ∨ r = (1 # 2)%Q → random r) as Hr
    by (intros r [->| ->]; split; reflexivity || discriminate).
  split; [exact Hwf|]. split; [exact Hid|].
  apply (third_player_is_rejected Scenario.created Scenario.G newGame
           (1 # 4) (1 # 2) (1 # 2) Hwf Hid);
    [vm_compute; reflexivity|reflexivity|auto..].
Defined.

(** ** Invariants of reachable registries *)

(** X10.  In every reachable registry, a game with a free slot has not
    begun: its second slot is free (slot 0 is filled first), its board is
    empty, its turn is unset, it has not ended, and past the guard every
    [makeMove] on it returns [GAME_NOT_STARTED] and changes nothing. *)
Theorem unstarted_game_is_untouched (s : Games) (gameId : Z) (g : Game) :
  reachable s → s !! gameId = Some g →
  ((players g).1 == -1 ∨ (players g).2 == -1)%Q →
  ((players g).2 == -1)%Q
  ∧ board g = [[Null; Null; Null]; [Null; Null; Null]; [Null; Null; Null]]
  ∧ (activePlayer g == 0)%Q ∧ isEnded g = false
  ∧ (201 ≤ gameId → ∀ playerId x y,
       makeMove gameId playerId x y s = (Normal GAME_NOT_STARTED, s)).
Proof.
  intros Hs%reachable_sound Hg Hfree.
  pose proof (sound_lookup _ _ _ Hs Hg) as H. sound_split H.
  pose proof Hwf as Hwf'. wf_split Hwf'.
  pose proof (unseated_iff _ Hseat1) as Hu1.
  pose proof (unseated_iff _ Hseat2) as Hu2.
  assert (seated (players g).2 = false) as Hs2.
  { destruct Hfree as [E|E]; [|by apply Hu2].
    apply Hu1 in E. unfold seats_ok in Hseats. rewrite E in Hseats.
    rewrite orb_false_r in Hseats. by apply negb_true_iff. }
  assert (seated (players g).1 && seated (players g).2 = false) as Hboth
    by (by rewrite Hs2, andb_false_r).
  destruct (wf_unstarted _ _ Hwf Hboth) as (Hb & Ha & He).
  split_and!; [by apply Hu2|done|done|done|].
  intros Hid playerId x y.
  destruct (makeMove_cases s gameId playerId x y g Hid Hg Hshape)
    as [(i & j & _ & _ & ->)|[_ ->]]; unfold makeMoveOn, makeMoveOff;
    rewrite He, Hboth; cbn; by rewrite (keep_on _ _ _ Hg).
Qed.

Lemma unstarted_game_is_untouched_witness :
  let s := exec (AddPlayer Scenario.G (1 # 4)) Scenario.created in
  reachable s
  ∧ ((players (Scenario.theGame s)).2 == -1)%Q
  ∧ makeMove Scenario.G Scenario.P1 0 0 s = (Normal GAME_NOT_STARTED, s).
Proof.
  intros s.
  assert (reachable s) as Hr.
  { apply reachable_step; [apply scenario_reachable|].
    split; reflexivity || discriminate. }
  split; [exact Hr|].
  destruct (unstarted_game_is_untouched s Scenario.G (Scenario.theGame s) Hr)
    as (Hp & _ & _ & _ & Hmove);
    [vm_compute; reflexivity|right; vm_compute; reflexivity|].
  split; [exact Hp|]. apply Hmove. vm_compute. discriminate.
Defined.

(** X11.  In every reachable registry the board of a game has three rows
    of three cells; a cell is empty or holds the identifier of a player
    seated in this game; a slot holds -1 or an identifier of at least 201;
    and a game with a seated player has an identifier of at least 201. *)
Theorem board_holds_seated_players (s : Games) (gameId : Z) (g : Game) :
  reachable s → s !! gameId = Some g →
  length (board g) = 3%nat
  ∧ (∀ row, In row (board g) → length row = 3%nat)
  ∧ (∀ i j, 0 ≤ i ≤ 2 → 0 ≤ j ≤ 2 →
       cell (board g) i j = Null
       ∨ ∃ v, cell (board g) i j = Num v
              ∧ includes (players g) v = true ∧ (201 <= v)%Q)
  ∧ (((players g).1 == -1)%Q ∨ (201 <= (players g).1)%Q)
  ∧ (((players g).2 == -1)%Q ∨ (201 <= (players g).2)%Q)
  ∧ ((201 <= (players g).1)%Q ∨ (201 <= (players g).2)%Q → 201 ≤ gameId).
Proof.
  intros Hs%reachable_wf Hg. pose proof (wf_lookup _ _ _ Hs Hg) as Hwf.
  pose proof Hwf as Hwf'. wf_split Hwf'.
  assert (∀ p, seat_ok p = true → (p == -1)%Q ∨ (201 <= p)%Q) as Hseat.
  { intros p [E|E]%orb_true_iff; [left; by apply Qeq_bool_iff|].
    right. by apply Qle_bool_iff. }
  assert (∀ p, (201 <= p)%Q → seated p = true) as Hseated.
  { intros p Hp. apply num_gt_spec. lra. }
  split_and!; [| | |by apply Hseat|by apply Hseat|].
  - unfold shape3 in Hshape. apply andb_true_iff in Hshape as [H _].
    by apply Nat.eqb_eq.
  - unfold shape3 in Hshape. apply andb_true_iff in Hshape as [_ H].
    rewrite forallb_forall in H. intros row Hrow. by apply Nat.eqb_eq, H.
  - intros i j Hi Hj.
    assert (cell_ok (players g) (cell (board g) i j) = true) as Hok.
    { destruct (shape3_inv _ Hshape)
        as (c00&c01&c02&c10&c11&c12&c20&c21&c22&Hb).
      rewrite Hb in *. cbn in Hcells. rewrite !andb_true_iff in Hcells.
      assert (i = 0 ∨ i = 1 ∨ i = 2) as [->|[->| ->]] by lia;
        assert (j = 0 ∨ j = 1 ∨ j = 2) as [->|[->| ->]] by lia;
        cbn; tauto. }
    destruct (cell (board g) i j) as [| |v] eqn:Hc; [by left|done|].
    right. exists v. split_and!; [done|done|].
    destruct (num_eq (activePlayer g) 0) eqn:Ha.
    + apply andb_true_iff in Hturn as [Hblank _].
      assert (inRange j i = true) as Hr by (unfold inRange; lia).
      rewrite (blank_cell _ _ _ Hshape Hblank Hr) in Hc. done.
    + apply andb_true_iff in Hturn as [Hboth _].
      by apply (player_201 _ _ _ Hwf Hboth).
  - intros Hp. apply Z.leb_le.
    destruct (201 <=? gameId) eqn:E; [done|]. cbn [orb] in Hguard.
    apply negb_true_iff, orb_false_iff in Hguard as [H1 H2].
    destruct Hp as [Hp|Hp]; apply Hseated in Hp; congruence.
Qed.

Lemma board_holds_seated_players_witness :
  let g := Scenario.theGame Scenario.beforeDraw in
  reachable Scenario.beforeDraw
  ∧ length (board g) = 3%nat
  ∧ (cell (board g) 0 1 = Null
     ∨ ∃ v, cell (board g) 0 1 = Num v
            ∧ includes (players g) v = true ∧ (201 <= v)%Q).
Proof.
  intros g.
  assert (reachable Scenario.beforeDraw) as Hr by apply scenario_reachable.
  split; [exact Hr|].
  destruct (board_holds_seated_players Scenario.beforeDraw Scenario.G g Hr)
    as (Hlen & _ & Hcell & _); [vm_compute; reflexivity|].
  split; [exact Hlen|]. apply Hcell; lia.
Defined.

(** * The test suite: proofs *)

(** ** invalidGameId *)

Lemma invalidGameIdFrom_spec (fuel : nat) (i : Z) (w : Suite) :
  (size (filter (λ k : Z, (i ≤ k)%Z) (dom (testGames w) : gset Z)) < fuel)%nat →
  ∃ j, invalidGameIdFrom fuel i w = (Done j, w)
       ∧ i ≤ j ∧ testGames w !! j = None
       ∧ ∀ k, i ≤ k < j → is_Some (testGames w !! k).
Proof.
  revert i. induction fuel as [|fuel IH]; intros i Hsize; [lia|].
  cbn [invalidGameIdFrom]. unfold andThen, inTestGames.
  destruct (testGames w !! i) as [game|] eqn:Hi.
  - rewrite bool_decide_eq_true_2 by (by eexists). cbn [negb].
    destruct (IH (i + 1)) as (j & Hrun & Hle & Hj & Hbelow).
    { assert (filter (λ k, i + 1 ≤ k) (dom (testGames w) : gset Z)
              ⊂ filter (λ k, i ≤ k) (dom (testGames w))) as Hsub.
      { split.
        - intros k [Hk Hin]%elem_of_filter. apply elem_of_filter. split; [lia|done].
        - intros Hsup. assert (i ∈ filter (λ k, i + 1 ≤ k) (dom (testGames w) : gset Z)) as Hin.
          { apply Hsup, elem_of_filter. split; [lia|]. apply elem_of_dom. by eexists. }
          apply elem_of_filter in Hin as [? _]. lia. }
      apply subset_size in Hsub. lia. }
    exists j. rewrite Hrun. split_and!; [done|lia|done|].
    intros k Hk. destruct (decide (k = i)) as [->|Hne]; [by eexists|].
    apply Hbelow. lia.
  - rewrite bool_decide_eq_false_2 by (by intros [? ?]). cbn [negb].
    exists i. split_and!; [done|lia|done|]. intros k Hk. lia.
Qed.

Lemma invalidGameId_run (w : Suite) :
  ∃ i, invalidGameId w = (Done i, w)
       ∧ 200 ≤ i ∧ testGames w !! i = None
       ∧ ∀ k, 200 ≤ k < i → is_Some (testGames w !! k).
Proof.
  unfold invalidGameId. apply invalidGameIdFrom_spec.
  pose proof (subseteq_size (filter (λ k, 200 ≤ k) (dom (testGames w) : gset Z))
                (dom (testGames w))) as Hle.
  rewrite size_dom in Hle.
  assert (filter (λ k, 200 ≤ k) (dom (testGames w) : gset Z) ⊆ dom (testGames w)) as Hsub
    by (intros k [_ Hin]%elem_of_filter; done).
  specialize (Hle Hsub). lia.
Qed.

(** X12.  [invalidGameId] returns, leaves the suite as it is, and its
    result is the least integer from 200 on that is not a key of
    [testGames]: the loop without bound ends within one round more than
    there are test games. *)
Theorem invalidGameId_least (w : Suite) :
  ∃ i, invalidGameId w = (Done i, w)
       ∧ 200 ≤ i ∧ testGames w !! i = None
       ∧ ∀ k, 200 ≤ k < i → is_Some (testGames w !! k).
Proof. exact (invalidGameId_run w). Qed.

(** ** Running the suite *)

Lemma suite_eta (w : Suite) : mkSuite (engine w) (testGames w) = w.
Proof. by destruct w. Qed.

Lemma call_normal {A} (m : M A) (w : Suite) (a : A) (s' : Games) :
  m (engine w) = (Normal a, s') →
  call_ m w = (Done a, mkSuite s' (testGames w)).
Proof. intros H. unfold call_. by rewrite H. Qed.

Lemma call_throw {A} (m : M A) (w : Suite) (e : exn) (s' : Games) :
  m (engine w) = (Throw e, s') →
  call_ m w = (Thrown (EngineError e), mkSuite s' (testGames w)).
Proof. intros H. unfold call_. by rewrite H. Qed.

Lemma andThen_done {A B} (m : T A) (k : A → T B) (w w' : Suite) (a : A) :
  m w = (Done a, w') → andThen m k w = k a w'.
Proof. intros H. unfold andThen. by rewrite H. Qed.

Lemma andThen_thrown {A B} (m : T A) (k : A → T B) (w w' : Suite) (t : thrown) :
  m w = (Thrown t, w') → andThen m k w = (Thrown t, w').
Proof. intros H. unfold andThen. by rewrite H. Qed.

Lemma andThen_check {B} (text : string) (k : unit → T B) (w : Suite) :
  andThen (check true text) k w = k tt w.
Proof. reflexivity. Qed.

Lemma andThen_check_fails {B} (text : string) (k : unit → T B) (w : Suite) :
  andThen (check false text) k w = (Thrown (Message text), w).
Proof. reflexivity. Qed.

Lemma forEach_skip {A} (l : list A) (body : A → T unit) (w : Suite) :
  (∀ a, In a l → body a w = (Done tt, w)) →
  forEach l body w = (Done tt, w).
Proof.
  induction l as [|a l IH]; [done|]. intros H. cbn [forEach]. unfold andThen.
  rewrite (H a) by (by left). apply IH. intros b Hb. apply H. by right.
Qed.

Lemma createTestGame_new (w : Suite) (now : Z) (rnd : number) :
  0 ≤ now → (0 <= rnd)%Q →
  let gameId := Qfloor (num_mul (inject_Z now) rnd) in
  testGames w !! gameId = None →
  createTestGame now rnd w
  = (Done gameId,
     mkSuite (<[gameId := newGame]> (engine w))
             (<[gameId := ((-1)%Q, (-1)%Q)]> (testGames w))).
Proof.
  intros Hnow Hrnd gameId Hnew.
  pose proof (createGame_id_nonneg now rnd Hnow Hrnd) as Hid.
  fold gameId in Hid. apply Z.leb_le in Hid.
  unfold createTestGame, andThen, call_, createGame, check, inTestGames,
    setTestGame, done_, raise. fold gameId. cbn [engine testGames].
  rewrite Hid. cbn [engine testGames].
  rewrite bool_decide_eq_false_2; [done|].
  rewrite Hnew. by intros [? ?].
Qed.

Lemma createTestGame_known (w : Suite) (now : Z) (rnd : number) :
  0 ≤ now → (0 <= rnd)%Q →
  let gameId := Qfloor (num_mul (inject_Z now) rnd) in
  is_Some (testGames w !! gameId) →
  createTestGame now rnd w
  = (Thrown (Message "Duplicate game id"),
     mkSuite (<[gameId := newGame]> (engine w)) (testGames w)).
Proof.
  intros Hnow Hrnd gameId Hknown.
  pose proof (createGame_id_nonneg now rnd Hnow Hrnd) as Hid.
  fold gameId in Hid. apply Z.leb_le in Hid.
  unfold createTestGame, andThen, call_, createGame, check, inTestGames,
    setTestGame, done_, raise. fold gameId. cbn [engine testGames].
  rewrite Hid. cbn [engine testGames].
  by rewrite bool_decide_eq_true_2.
Qed.

(** X13.  [createTestGame], at a time [now >= 0] with a draw in [0, 1),
    never reports a negative identifier.  When the identifier drawn is new
    to the suite, it returns it and records the game with both slots at
    -1.  When the suite already knows the identifier, it throws
    "Duplicate game id", and by then the engine has replaced the earlier
    game by a new one. *)
Theorem createTestGame_outcome (w : Suite) (now : Z) (rnd : number) :
  0 ≤ now → random rnd →
  let gameId := Qfloor (num_mul (inject_Z now) rnd) in
  (testGames w !! gameId = None →
   createTestGame now rnd w
   = (Done gameId,
      mkSuite (<[gameId := newGame]> (engine w))
              (<[gameId := ((-1)%Q, (-1)%Q)]> (testGames w))))
  ∧ (is_Some (testGames w !! gameId) →
     createTestGame now rnd w
     = (Thrown (Message "Duplicate game id"),
        mkSuite (<[gameId := newGame]> (engine w)) (testGames w))).
Proof.
  intros Hnow [Hrnd _] gameId. split.
  - by apply createTestGame_new.
  - by apply createTestGame_known.
Qed.

Lemma createTestGame_outcome_witness :
  let w := mkSuite Scenario.started (players <$> Scenario.started) in
  0 ≤ Scenario.t0 + 1 ∧ random (1 # 2)
  ∧ createTestGame (Scenario.t0 + 1) (1 # 2) w
    = (Thrown (Message "Duplicate game id"),
       mkSuite (<[Scenario.G := newGame]> Scenario.started) (testGames w)).
Proof.
  intros w.
  assert (0 ≤ Scenario.t0 + 1) as Hnow by (vm_compute; discriminate).
  assert (random (1 # 2)) as Hrnd by (split; reflexivity || discriminate).
  split; [exact Hnow|]. split; [exact Hrnd|].
  destruct (createTestGame_outcome w (Scenario.t0 + 1) (1 # 2) Hnow Hrnd)
    as [_ Hdup].
  apply Hdup. vm_compute. by eexists.
Defined.

(** ** addTestPlayer *)

Lemma addTestPlayer_below (w : Suite) (gameId : Z) (rnd : number) :
  gameId < 201 → addTestPlayer gameId rnd w = (Done GAME_DOESNT_EXIST, w).
Proof.
  intros Hid. unfold addTestPlayer, andThen.
  rewrite (call_normal _ _ _ _ (addPlayer_below _ _ rnd Hid)).
  cbn. by rewrite suite_eta.
Qed.

Lemma addTestPlayer_missing (w : Suite) (gameId : Z) (rnd : number) :
  201 ≤ gameId → engine w !! gameId = None →
  addTestPlayer gameId rnd w = (Thrown (EngineError TypeError), w).
Proof.
  intros Hid Hg. unfold addTestPlayer, andThen.
  rewrite (call_throw _ _ _ _ (addPlayer_missing _ _ rnd Hid Hg)).
  by rewrite suite_eta.
Qed.

Lemma isValidId_seated (p : number) :
  seat_ok p = true → isValidId p = seated p.
Proof.
  intros Hp. unfold isValidId. destruct (seated p) eqn:Hs.
  - apply Qle_bool_iff. pose proof (seated_201 p Hp Hs). lra.
  - apply not_true_iff_false. intros H%Qle_bool_iff.
    apply (unseated_iff p Hp) in Hs. lra.
Qed.

Lemma mirrored_lookup (w : Suite) (gameId : Z) :
  mirrored w → testGames w !! gameId = players <$> engine w !! gameId.
Proof. intros ->. apply lookup_fmap. Qed.

(** X14.  [addTestPlayer] on a suite whose dictionary mirrors the players of
    a well-formed registry, for a registered game with an identifier of at
    least 201: it returns what [addPlayer] returns and the dictionary still
    mirrors the registry, except when the identifier issued for the second
    slot equals the one in the first slot; then it throws
    "Duplicate player id in game" after the engine has seated the player.
    It never throws one of its other two messages. *)
Theorem addTestPlayer_mirrored (w : Suite) (gameId : Z) (rnd : number) (g : Game) :
  wf (engine w) → mirrored w → random rnd →
  201 ≤ gameId → engine w !! gameId = Some g →
  let r := (addPlayerOn gameId rnd g).1 in
  let s' := <[gameId := (addPlayerOn gameId rnd g).2]> (engine w) in
  addTestPlayer gameId rnd w
  = if Qle_bool 0 r && seated (players g).1 && num_eq (players g).1 r
    then (Thrown (Message "Duplicate player id in game"),
          mkSuite s' (testGames w))
    else (Done r, mkSuite s' (players <$> s')).
Proof.
  intros Hwf Hm [Hrnd _] Hid Hg r s'.
  pose proof (wf_lookup _ _ _ Hwf Hg) as Hwg. wf_split Hwg.
  pose proof (mirrored_lookup w gameId Hm) as Htg. rewrite Hg in Htg.
  cbn in Htg.
  unfold addTestPlayer, andThen.
  rewrite (call_normal _ _ _ _ (addPlayer_on _ _ rnd _ Hid Hg)).
  fold r s'. subst r s'. unfold addPlayerOn.
  destruct (isEnded g) eqn:He.
  { cbn. rewrite (insert_id _ _ _ Hg), <- Hm. by rewrite suite_eta. }
  destruct (seated (players g).1 && seated (players g).2) eqn:Hboth.
  { cbn. rewrite (insert_id _ _ _ Hg), <- Hm. by rewrite suite_eta. }
  cbn [fst snd].
  assert (201 <= num_add (inject_Z gameId) rnd)%Q as Hnew.
  { pose proof (num_add_ge 201 gameId rnd ltac:(lia) Hid Hrnd).
    assert (inject_Z 201 == 201)%Q by done. lra. }
  assert (Qle_bool 0 (num_add (inject_Z gameId) rnd) = true) as Hpos
    by (apply Qle_bool_iff; lra).
  rewrite Hpos. cbn [negb andb].
  unfold inTestGames, testGame, setTestGame, done_, raise.
  cbn [engine testGames]. rewrite Htg.
  rewrite bool_decide_eq_true_2 by (by eexists).
  cbn [negb engine testGames]. rewrite Htg.
  rewrite (isValidId_seated _ Hseat1), (isValidId_seated _ Hseat2).
  rewrite num_le_gt. fold (seated (players g).1).
  destruct (seated (players g).1) eqn:Hs1; cbn [negb andb].
  - cbn [andb] in Hboth. rewrite Hboth. cbn [negb].
    destruct (num_eq (players g).1 (num_add (inject_Z gameId) rnd)); [done|].
    cbn [engine testGames]. f_equal. f_equal.
    rewrite fmap_insert, <- Hm. by destruct g as [[p0 p1] b a e].
  - cbn [engine testGames]. f_equal. f_equal.
    rewrite fmap_insert, <- Hm. by destruct g as [[p0 p1] b a e].
Qed.

Lemma addTestPlayer_mirrored_witness :
  let w := mkSuite Scenario.started (players <$> Scenario.started) in
  wf (engine w) ∧ mirrored w ∧ random (1 # 2) ∧ 201 ≤ Scenario.G
  ∧ engine w !! Scenario.G = Some (Scenario.theGame Scenario.started)
  ∧ addTestPlayer Scenario.G (1 # 2) w = (Done GAME_ONGOING, w).
Proof.
  intros w.
  assert (wf (engine w)) as Hwf by (vm_compute; reflexivity).
  assert (mirrored w) as Hm by reflexivity.
  assert (random (1 # 2)) as Hrnd by (split; reflexivity || discriminate).
  assert (201 ≤ Scenario.G) as Hid by (vm_compute; discriminate).
  assert (engine w !! Scenario.G = Some (Scenario.theGame Scenario.started))
    as Hg
    by (vm_compute; reflexivity).
  split; [exact Hwf|]. split; [exact Hm|]. split; [exact Hrnd|].
  split; [exact Hid|]. split; [exact Hg|].
  rewrite (addTestPlayer_mirrored w Scenario.G (1 # 2) _ Hwf Hm Hrnd Hid Hg).
  vm_compute. reflexivity.
Defined.

Lemma mirrored_tracked (w : Suite) : mirrored w → tracked w.
Proof.
  intros Hm k Hk. rewrite (mirrored_lookup w k Hm) in Hk.
  by apply fmap_None in Hk.
Qed.

Lemma negative_ids_refused (rnd : nat → number) (w : Suite) :
  forEach (seq 0 9) (λ k,
    let i := - 1 - Z.of_nat k in
    let* r := addTestPlayer i (rnd k) in
    check (num_eq r GAME_DOESNT_EXIST) "Negative game id should not be valid") w
  = (Done tt, w).
Proof.
  apply forEach_skip. intros k _. cbv beta zeta. unfold andThen.
  by rewrite addTestPlayer_below by lia.
Qed.

Lemma testInvalidGameIds_pass (w : Suite) (rnd : nat → number) :
  testGames w !! 200 = None → testInvalidGameIds rnd w = (Done tt, w).
Proof.
  intros H200. unfold testInvalidGameIds.
  rewrite (andThen_done _ _ _ _ _ (negative_ids_refused rnd w)).
  destruct (invalidGameId_run w) as (i & Hrun & Hle & Hi & Hbelow).
  assert (i = 200) as ->.
  { destruct (decide (i = 200)) as [|Hne]; [done|].
    destruct (Hbelow 200) as [? Hsome]; [lia|]. by rewrite H200 in Hsome. }
  rewrite (andThen_done _ _ _ _ _ Hrun).
  rewrite (andThen_done _ _ _ _ _ (addTestPlayer_below w 200 _ ltac:(lia))).
  change (num_eq GAME_DOESNT_EXIST GAME_DOESNT_EXIST) with true.
  rewrite andThen_check. rewrite (andThen_done _ _ _ _ _ Hrun).
  rewrite (andThen_done _ _ _ _ _
             (call_normal _ _ _ _ (makeMove_below _ 200 _ _ _ ltac:(lia)))).
  by rewrite suite_eta.
Qed.

Lemma testInvalidGameIds_throws (w : Suite) (rnd : nat → number) :
  tracked w → is_Some (testGames w !! 200) →
  testInvalidGameIds rnd w = (Thrown (EngineError TypeError), w).
Proof.
  intros Htracked H200. unfold testInvalidGameIds.
  rewrite (andThen_done _ _ _ _ _ (negative_ids_refused rnd w)).
  destruct (invalidGameId_run w) as (i & Hrun & Hle & Hi & Hbelow).
  assert (201 ≤ i) as Hid.
  { destruct (decide (i = 200)) as [->|]; [|lia].
    rewrite Hi in H200. by destruct H200. }
  rewrite (andThen_done _ _ _ _ _ Hrun).
  by rewrite (andThen_thrown _ _ _ _ _
                (addTestPlayer_missing w i _ Hid (Htracked i Hi))).
Qed.

(** X15.  [testInvalidGameIds] on a suite that knows every game of the
    registry.  It passes, leaving the suite as it is, when the suite has
    no test game 200.  When it has one, the identifier that
    [invalidGameId] picks is at least 201 and not registered, so the run
    ends with the [TypeError] of [addPlayer] and not with one of the
    messages of [check]. *)
Theorem testInvalidGameIds_outcome (w : Suite) (rnd : nat → number) :
  tracked w →
  testInvalidGameIds rnd w
  = (if bool_decide (is_Some (testGames w !! 200))
     then Thrown (EngineError TypeError) else Done tt, w).
Proof.
  intros Htracked. case_bool_decide as H200.
  - by apply testInvalidGameIds_throws.
  - apply testInvalidGameIds_pass.
    destruct (testGames w !! 200); [destruct H200; by eexists|done].
Qed.

Lemma testInvalidGameIds_outcome_witness :
  let w := mkSuite (<[200 := newGame]> ∅) (<[200 := ((-1)%Q, (-1)%Q)]> ∅) in
  createTestGame 400 (1 # 2) (mkSuite ∅ ∅) = (Done 200, w)
  ∧ tracked w
  ∧ testInvalidGameIds (λ _, 0%Q) w = (Thrown (EngineError TypeError), w).
Proof.
  intros w.
  assert (tracked w) as Htracked
    by (apply mirrored_tracked; vm_compute; reflexivity).
  split; [vm_compute; reflexivity|]. split; [exact Htracked|].
  rewrite (testInvalidGameIds_outcome w (λ _, 0%Q) Htracked).
  vm_compute. reflexivity.
Defined.

(** ** testAddPlayer *)

(** [addTestPlayer] on the game the suite has just worked on. *)
Lemma addTestPlayer_ins (s : Games) (t : gmap Z (number * number))
    (gameId : Z) (rnd : number) (g : Game) (ps : number * number) :
  201 ≤ gameId →
  let r := (addPlayerOn gameId rnd g).1 in
  let s' := <[gameId := (addPlayerOn gameId rnd g).2]> s in
  addTestPlayer gameId rnd (mkSuite (<[gameId := g]> s) (<[gameId := ps]> t))
  = if negb (Qle_bool 0 r) then (Done r, mkSuite s' (<[gameId := ps]> t))
    else if negb (isValidId ps.1)
    then (Done r, mkSuite s' (<[gameId := (r, ps.2)]> t))
    else if num_eq ps.1 r
    then (Thrown (Message "Duplicate player id in game"),
          mkSuite s' (<[gameId := ps]> t))
    else if negb (isValidId ps.2)
    then (Done r, mkSuite s' (<[gameId := (ps.1, r)]> t))
    else (Thrown (Message "Received a player id from a full game"),
          mkSuite s' (<[gameId := ps]> t)).
Proof.
  intros Hid r s'. unfold addTestPlayer, andThen, call_.
  cbn [engine testGames]. rewrite addPlayer_ins by done. fold r s'.
  destruct (negb (Qle_bool 0 r)); [done|].
  unfold inTestGames, testGame, setTestGame, done_, raise.
  cbn [engine testGames]. rewrite lookup_insert_eq.
  rewrite bool_decide_eq_true_2 by (by eexists).
  cbn [negb engine testGames]. rewrite lookup_insert_eq.
  destruct (negb (isValidId ps.1)).
  { cbn [engine testGames]. by rewrite insert_insert_eq. }
  destruct (num_eq ps.1 r); [done|].
  destruct (negb (isValidId ps.2)); [|done].
  cbn [engine testGames]. by rewrite insert_insert_eq.
Qed.

Lemma issued_201 (gameId : Z) (rnd : number) :
  201 ≤ gameId → random rnd → (201 <= issued gameId rnd)%Q.
Proof.
  intros Hid [Hrnd _]. unfold issued.
  pose proof (num_add_ge 201 gameId rnd ltac:(lia) Hid Hrnd).
  assert (inject_Z 201 == 201)%Q by done. lra.
Qed.

Lemma issued_seated (p : number) : (201 <= p)%Q →
  seated p = true ∧ Qle_bool 0 p = true ∧ num_le p 0 = false.
Proof.
  intros Hp. split_and!.
  - apply num_gt_spec. lra.
  - apply Qle_bool_iff. lra.
  - apply not_true_iff_false. intros H%num_le_spec. lra.
Qed.

(** Different draws can be issued the same identifier: the sum is
    rounded. *)
Example issued_rounds :
  issued 850000000000 (1 # 2 ^ 20) = issued 850000000000 (1 # 2 ^ 21)
  ∧ Qeq_bool (1 # 2 ^ 20) (1 # 2 ^ 21) = false.
Proof. split; vm_compute; reflexivity. Qed.

Section TestAddPlayer.
Variables (gameId : Z) (r0 r1 : number).
Hypothesis Hid : 201 ≤ gameId.
Hypothesis Hr0 : random r0.
Hypothesis Hr1 : random r1.

Lemma addPlayerOn_newGame :
  addPlayerOn gameId r0 newGame = (issued gameId r0, oneSeated gameId r0).
Proof. reflexivity. Qed.

Lemma addPlayerOn_oneSeated :
  addPlayerOn gameId r1 (oneSeated gameId r0)
  = (issued gameId r1, twoSeated gameId r0 r1).
Proof.
  destruct (issued_seated _ (issued_201 _ _ Hid Hr0)) as (Hs & _ & Hle).
  unfold addPlayerOn, oneSeated. fields. rewrite Hs, Hle. reflexivity.
Qed.

Lemma addPlayerOn_full (rnd : number) (a : number) :
  let g := mkGame (issued gameId r0, issued gameId r1) emptyBoard a false in
  addPlayerOn gameId rnd g = (GAME_ONGOING, g).
Proof.
  destruct (issued_seated _ (issued_201 _ _ Hid Hr0)) as (Hs1 & _ & _).
  destruct (issued_seated _ (issued_201 _ _ Hid Hr1)) as (Hs2 & _ & _).
  intros g. unfold addPlayerOn, g. fields. by rewrite Hs1, Hs2.
Qed.

Lemma makeMoveOn_newGame :
  makeMoveOn 0 0 0 newGame = (GAME_NOT_STARTED, newGame).
Proof. reflexivity. Qed.

Lemma makeMoveOn_oneSeated :
  makeMoveOn (issued gameId r0) 0 0 (oneSeated gameId r0)
  = (GAME_NOT_STARTED, oneSeated gameId r0).
Proof.
  unfold makeMoveOn, oneSeated. fields.
  change (seated (-1)) with false. by rewrite andb_false_r.
Qed.

Lemma makeMoveOn_twoSeated :
  num_eq (issued gameId r0) (issued gameId r1) = false →
  makeMoveOn (issued gameId r1) 0 0 (twoSeated gameId r0 r1)
  = (WRONG_TURN, turnFixed gameId r0 r1).
Proof.
  intros Hne.
  destruct (issued_seated _ (issued_201 _ _ Hid Hr0)) as (Hs1 & _ & _).
  destruct (issued_seated _ (issued_201 _ _ Hid Hr1)) as (Hs2 & _ & _).
  assert (num_eq (issued gameId r1) (issued gameId r0) = false) as Hne'.
  { apply not_true_iff_false. intros H%num_eq_spec.
    apply not_true_iff_false in Hne. apply Hne, num_eq_spec. by symmetry. }
  unfold makeMoveOn, twoSeated, includes. fields. rewrite Hs1, Hs2.
  assert (num_eq (issued gameId r1) (issued gameId r1) = true) as ->
    by (apply num_eq_spec; reflexivity).
  rewrite orb_true_r. cbn [andb negb inRange].
  change (inRange 0 0) with true. cbn [negb].
  unfold fixTurn. fields. change (num_eq 0 0) with true. fields.
  by rewrite Hne'.
Qed.
End TestAddPlayer.

Lemma call_makeMove_ins (s : Games) (t : gmap Z (number * number))
    (gameId : Z) (playerId : number) (x y : Z) (g : Game) :
  201 ≤ gameId → shape3 (board g) = true →
  call_ (makeMove gameId playerId x y) (mkSuite (<[gameId := g]> s) t)
  = (Done (makeMoveOn playerId x y g).1,
     mkSuite (<[gameId := (makeMoveOn playerId x y g).2]> s) t).
Proof.
  intros Hid Hb. apply call_normal. cbn [engine]. by apply makeMove_ins.
Qed.

Lemma call_makeMove_origin (s : Games) (t : gmap Z (number * number))
    (gameId : Z) (playerId : number) (g : Game) :
  201 ≤ gameId → shape3 (board g) = true →
  call_ (makeMove gameId playerId 0 0) (mkSuite (<[gameId := g]> s) t)
  = (Done (makeMoveOn playerId 0 0 g).1,
     mkSuite (<[gameId := (makeMoveOn playerId 0 0 g).2]> s) t).
Proof. apply (call_makeMove_ins s t gameId playerId 0 0 g). Qed.

Lemma testAddPlayer_run (w : Suite) (now : Z) (rnd0 : number)
    (rnd : nat → number) :
  0 ≤ now → random rnd0 → (∀ i, random (rnd i)) →
  let gameId := Qfloor (num_mul (inject_Z now) rnd0) in
  let id1 := issued gameId (rnd 0%nat) in
  let id2 := issued gameId (rnd 1%nat) in
  testAddPlayer now rnd0 rnd w
  = if bool_decide (is_Some (testGames w !! gameId))
    then (Thrown (Message "Duplicate game id"),
          mkSuite (<[gameId := newGame]> (engine w)) (testGames w))
    else if gameId <? 201
    then (Thrown (Message "Made a move with no players added"),
          mkSuite (<[gameId := newGame]> (engine w))
                  (<[gameId := ((-1)%Q, (-1)%Q)]> (testGames w)))
    else if num_eq id1 id2
    then (Thrown (Message "Duplicate player id in game"),
          mkSuite (<[gameId := twoSeated gameId (rnd 0%nat) (rnd 1%nat)]> (engine w))
                  (<[gameId := (id1, (-1)%Q)]> (testGames w)))
    else (Done tt,
          mkSuite (<[gameId := turnFixed gameId (rnd 0%nat) (rnd 1%nat)]> (engine w))
                  (<[gameId := (id1, id2)]> (testGames w))).
Proof.
  intros Hnow [Hrnd0 _] Hrnd gameId id1 id2.
  unfold testAddPlayer. unfold andThen at 1.
  case_bool_decide as Hknown.
  { by rewrite createTestGame_known. }
  rewrite createTestGame_new
    by (done || by destruct (testGames w !! _); [destruct Hknown; eexists|]).
  fold gameId. generalize (engine w) (testGames w). intros s t.
  destruct (gameId <? 201) eqn:Hlow.
  { apply Z.ltb_lt in Hlow.
    rewrite (andThen_done _ _ _ _ _
               (call_normal _ _ _ _ (makeMove_below _ _ _ _ _ Hlow))).
    reflexivity. }
  apply Z.ltb_ge in Hlow.
  pose proof (Hrnd 0%nat) as Hr0. pose proof (Hrnd 1%nat) as Hr1.
  destruct (issued_seated _ (issued_201 _ _ Hlow Hr0)) as (_ & Hpos1 & _).
  destruct (issued_seated _ (issued_201 _ _ Hlow Hr1)) as (_ & Hpos2 & _).
  rewrite (andThen_done _ _ _ _ _
             (call_makeMove_origin _ _ _ _ newGame Hlow eq_refl)).
  rewrite makeMoveOn_newGame. cbn [fst snd].
  change (num_eq GAME_NOT_STARTED GAME_NOT_STARTED) with true.
  rewrite andThen_check.
  assert (addTestPlayer gameId (rnd 0%nat)
            (mkSuite (<[gameId := newGame]> s)
                     (<[gameId := ((-1)%Q, (-1)%Q)]> t))
          = (Done id1,
             mkSuite (<[gameId := oneSeated gameId (rnd 0%nat)]> s)
                     (<[gameId := (id1, (-1)%Q)]> t))) as Hfirst.
  { rewrite addTestPlayer_ins by done. rewrite addPlayerOn_newGame.
    cbn [fst snd]. rewrite Hpos1. reflexivity. }
  rewrite (andThen_done _ _ _ _ _ Hfirst).
  unfold isValidId at 1. subst id1. rewrite Hpos1, andThen_check.
  rewrite (andThen_done _ _ _ _ _
             (call_makeMove_origin _ _ _ _
                (oneSeated gameId (rnd 0%nat)) Hlow eq_refl)).
  rewrite makeMoveOn_oneSeated. cbn [fst snd].
  change (num_eq GAME_NOT_STARTED GAME_NOT_STARTED) with true.
  rewrite andThen_check.
  pose proof (addTestPlayer_ins s t gameId (rnd 1%nat)
                (oneSeated gameId (rnd 0%nat))
                (issued gameId (rnd 0%nat), (-1)%Q) Hlow) as Hsecond.
  rewrite addPlayerOn_oneSeated in Hsecond by done.
  cbn [fst snd] in Hsecond. unfold isValidId in Hsecond.
  rewrite Hpos1, Hpos2 in Hsecond. cbn [negb] in Hsecond. subst id2.
  destruct (num_eq (issued gameId (rnd 0%nat)) (issued gameId (rnd 1%nat)))
    eqn:Hsame.
  { by rewrite (andThen_thrown _ _ _ _ _ Hsecond). }
  change (negb (Qle_bool 0 (-1))) with true in Hsecond. cbv iota in Hsecond.
  rewrite (andThen_done _ _ _ _ _ Hsecond).
  unfold isValidId at 1. rewrite Hpos2, andThen_check.
  rewrite (andThen_done _ _ _ _ _
             (call_makeMove_origin _ _ _ _
                (twoSeated gameId (rnd 0%nat) (rnd 1%nat)) Hlow eq_refl)).
  rewrite makeMoveOn_twoSeated by done. cbn [fst snd].
  change (num_eq WRONG_TURN WRONG_TURN) with true.
  rewrite andThen_check.
  apply forEach_skip. intros i _.
  pose proof (addTestPlayer_ins s t gameId (rnd (2 + i)%nat)
                (turnFixed gameId (rnd 0%nat) (rnd 1%nat))
                (issued gameId (rnd 0%nat), issued gameId (rnd 1%nat)) Hlow)
    as Hthird.
  unfold turnFixed in Hthird.
  rewrite (addPlayerOn_full gameId (rnd 0%nat) (rnd 1%nat) Hlow Hr0 Hr1)
    in Hthird.
  cbn [fst snd] in Hthird.
  change (negb (Qle_bool 0 GAME_ONGOING)) with true in Hthird.
  cbv iota in Hthird.
  by rewrite (andThen_done _ _ _ _ _ Hthird).
Qed.

(** X16.  What [testAddPlayer] does, at a time [now >= 0] and with draws
    in [0, 1), on any suite.  It throws "Duplicate game id" when the
    suite knows the identifier drawn; otherwise
    "Made a move with no players added" when that identifier is below
    201, the engine answering [GAME_DOESNT_EXIST] for the game it has just
    created; otherwise "Duplicate player id in game" when the two
    players are issued the same identifier, which equal draws give and
    different draws can give too, the sum being rounded; otherwise it
    passes, and leaves the game
    with both players seated, an empty board and the turn with the
    first player. *)
Theorem testAddPlayer_outcome (w : Suite) (now : Z) (rnd0 : number)
    (rnd : nat → number) :
  0 ≤ now → random rnd0 → (∀ i, random (rnd i)) →
  let gameId := Qfloor (num_mul (inject_Z now) rnd0) in
  let id1 := issued gameId (rnd 0%nat) in
  let id2 := issued gameId (rnd 1%nat) in
  testAddPlayer now rnd0 rnd w
  = if bool_decide (is_Some (testGames w !! gameId))
    then (Thrown (Message "Duplicate game id"),
          mkSuite (<[gameId := newGame]> (engine w)) (testGames w))
    else if gameId <? 201
    then (Thrown (Message "Made a move with no players added"),
          mkSuite (<[gameId := newGame]> (engine w))
                  (<[gameId := ((-1)%Q, (-1)%Q)]> (testGames w)))
    else if num_eq id1 id2
    then (Thrown (Message "Duplicate player id in game"),
          mkSuite (<[gameId := twoSeated gameId (rnd 0%nat) (rnd 1%nat)]> (engine w))
                  (<[gameId := (id1, (-1)%Q)]> (testGames w)))
    else (Done tt,
          mkSuite (<[gameId := turnFixed gameId (rnd 0%nat) (rnd 1%nat)]> (engine w))
                  (<[gameId := (id1, id2)]> (testGames w))).
Proof. apply testAddPlayer_run. Qed.

Lemma testAddPlayer_outcome_witness :
  let rnd := λ i : nat, if Nat.eqb i 0 then (1 # 4)%Q else (1 # 2)%Q in
  0 ≤ Scenario.t0 ∧ random (1 # 2) ∧ random (1 # 17179869184)
  ∧ (∀ i, random (rnd i))
  ∧ (testAddPlayer Scenario.t0 (1 # 2) rnd (mkSuite ∅ ∅)).1 = Done tt
  ∧ (testAddPlayer Scenario.t0 (1 # 17179869184) rnd (mkSuite ∅ ∅)).1
    = Thrown (Message "Made a move with no players added").
Proof.
  intros rnd.
  assert (0 ≤ Scenario.t0) as Hnow by (vm_compute; discriminate).
  assert (random (1 # 2)) as Hhalf by (split; reflexivity || discriminate).
  assert (random (1 # 17179869184)) as Hlow
    by (split; reflexivity || discriminate).
  assert (∀ i, random (rnd i)) as Hrnd
    by (intros [|i]; split; reflexivity || discriminate).
  split; [exact Hnow|]. split; [exact Hhalf|]. split; [exact Hlow|].
  split; [exact Hrnd|]. split.
  - rewrite (testAddPlayer_outcome (mkSuite ∅ ∅) Scenario.t0 (1 # 2) rnd
               Hnow Hhalf Hrnd).
    vm_compute. reflexivity.
  - rewrite (testAddPlayer_outcome (mkSuite ∅ ∅) Scenario.t0 (1 # 17179869184)
               rnd Hnow Hlow Hrnd).
    vm_compute. reflexivity.
Defined.

(** ** testCreateGame *)

Lemma createGames_run (inputs : nat → Z * number) (l : list nat) (w : Suite) :
  (∀ i, 0 ≤ (inputs i).1 ∧ random (inputs i).2) →
  let ids := map (λ i, drawnId (inputs i)) l in
  let fresh := NoDup ids ∧ Forall (λ id, testGames w !! id = None) ids in
  ∃ w',
    forEach l (λ i, createTestGame (inputs i).1 (inputs i).2 >> done_ tt) w
    = (if bool_decide fresh
       then Done tt else Thrown (Message "Duplicate game id"), w')
    ∧ (fresh → ∀ k,
         (k ∈ ids → engine w' !! k = Some newGame
                    ∧ testGames w' !! k = Some ((-1)%Q, (-1)%Q))
         ∧ (k ∉ ids → engine w' !! k = engine w !! k
                      ∧ testGames w' !! k = testGames w !! k)).
Proof.
  intros Hin. revert w. induction l as [|i l IH]; intros w ids fresh.
  { exists w. split.
    - rewrite bool_decide_eq_true_2; [done|]. split; constructor.
    - intros _ k. split; [|done]. by intros ?%elem_of_nil. }
  destruct (Hin i) as [Hnow [Hrnd _]].
  cbn [forEach]. unfold andThen at 1. unfold andThen at 1.
  destruct (testGames w !! drawnId (inputs i)) as [ps|] eqn:Hi.
  { rewrite createTestGame_known by (done || by eexists).
    eexists. split.
    - rewrite bool_decide_eq_false_2; [done|].
      intros [_ Hall]. apply Forall_cons in Hall as [Hnone _].
      cbn beta in Hnone. by rewrite Hi in Hnone.
    - intros [_ Hall]. apply Forall_cons in Hall as [Hnone _].
      cbn beta in Hnone. by rewrite Hi in Hnone. }
  rewrite createTestGame_new by done. cbv beta iota. unfold done_ at 1.
  cbv beta iota.
  change (Qfloor (num_mul (inject_Z (inputs i).1) (inputs i).2))
    with (drawnId (inputs i)).
  set (w1 := mkSuite _ _).
  destruct (IH w1) as (w' & Hrun & Hstate). exists w'.
  set (id := drawnId (inputs i)) in *.
  set (ids' := map (λ i, drawnId (inputs i)) l) in *.
  assert (fresh ↔ NoDup ids' ∧ Forall (λ id, testGames w1 !! id = None) ids')
    as Hfresh.
  { unfold fresh, ids. cbn [map]. fold ids'.
    rewrite NoDup_cons, Forall_cons, !Forall_forall. subst w1.
    cbn [testGames]. split.
    - intros [[Hni Hnd] [_ Hall]]. split; [done|]. intros k Hk.
      rewrite lookup_insert_ne; [by apply Hall|]. by intros <-.
    - intros [Hnd Hall]. split; [split; [|done]|split; [done|]].
      + intros Hk. specialize (Hall _ Hk). by rewrite lookup_insert_eq in Hall.
      + intros k Hk. specialize (Hall _ Hk).
        destruct (decide (id = k)) as [->|Hne].
        * by rewrite lookup_insert_eq in Hall.
        * by rewrite lookup_insert_ne in Hall. }
  split.
  - rewrite Hrun. by rewrite (bool_decide_ext _ _ Hfresh).
  - intros Hf. pose proof (proj1 Hf) as Hni.
    unfold ids in Hni. cbn [map] in Hni. fold ids' in Hni.
    apply NoDup_cons in Hni as [Hni _].
    apply Hfresh in Hf. specialize (Hstate Hf).
    intros k. destruct (Hstate k) as [Hinside Houtside].
    unfold ids. cbn [map]. fold ids'. split.
    + intros [->|Hk]%elem_of_cons; [|by apply Hinside].
      destruct (Houtside Hni) as [-> ->]. subst w1. cbn [engine testGames].
      by rewrite !lookup_insert_eq.
    + intros Hk. apply not_elem_of_cons in Hk as [Hne Hk].
      destruct (Houtside Hk) as [-> ->]. subst w1. cbn [engine testGames].
      by rewrite !lookup_insert_ne.
Qed.

(** X17.  [testCreateGame], with times [>= 0] and draws in [0, 1), passes
    exactly when the ten identifiers drawn differ from each other and are
    new to the suite, and throws "Duplicate game id" otherwise.  When it
    passes, each of the ten identifiers is registered with a new game and
    recorded with both slots at -1, and nothing else has changed. *)
Theorem testCreateGame_outcome (inputs : nat → Z * number) (w : Suite) :
  (∀ i, 0 ≤ (inputs i).1 ∧ random (inputs i).2) →
  let ids := map (λ i, drawnId (inputs i)) (seq 0 10) in
  let fresh := NoDup ids ∧ Forall (λ id, testGames w !! id = None) ids in
  ∃ w',
    testCreateGame inputs w
    = (if bool_decide fresh
       then Done tt else Thrown (Message "Duplicate game id"), w')
    ∧ (fresh → ∀ k,
         (k ∈ ids → engine w' !! k = Some newGame
                    ∧ testGames w' !! k = Some ((-1)%Q, (-1)%Q))
         ∧ (k ∉ ids → engine w' !! k = engine w !! k
                      ∧ testGames w' !! k = testGames w !! k)).
Proof. intros Hin. by apply createGames_run. Qed.

Lemma testCreateGame_outcome_witness :
  let early := λ i : nat, (2 * Z.of_nat i, (1 # 2)%Q) in
  let same := λ i : nat, (Scenario.t0 + Z.of_nat i, (1 # 2)%Q) in
  (∀ i, 0 ≤ (early i).1 ∧ random (early i).2)
  ∧ (∀ i, 0 ≤ (same i).1 ∧ random (same i).2)
  ∧ (testCreateGame early (mkSuite ∅ ∅)).1 = Done tt
  ∧ (testCreateGame same (mkSuite ∅ ∅)).1
    = Thrown (Message "Duplicate game id").
Proof.
  intros early same.
  assert (random (1 # 2)) as Hhalf by (split; reflexivity || discriminate).
  assert (∀ i, 0 ≤ (early i).1 ∧ random (early i).2) as Hearly.
  { intros i. split; [|exact Hhalf]. unfold early. cbn [fst]. lia. }
  assert (∀ i, 0 ≤ (same i).1 ∧ random (same i).2) as Hsame.
  { intros i. split; [|exact Hhalf]. unfold same, Scenario.t0. cbn [fst]. lia. }
  split; [exact Hearly|]. split; [exact Hsame|]. split.
  - destruct (testCreateGame_outcome early (mkSuite ∅ ∅) Hearly)
      as (w' & Hrun & _).
    rewrite Hrun. vm_compute. reflexivity.
  - destruct (testCreateGame_outcome same (mkSuite ∅ ∅) Hsame)
      as (w' & Hrun & _).
    rewrite Hrun. vm_compute. reflexivity.
Defined.

(** The identifiers that the suite compares are the rounded ones.  The
    different draws [2^-20] and [2^-21] seat two players of [G] under one
    identifier, and [testAddPlayer] throws.  The products at time
    1700000000000 with draw [4503599627386391 / 2^53] and at time
    1700000000006 with draw [1/2] both give 850000000003, and
    [testCreateGame] throws. *)
Example rounded_duplicates :
  (testAddPlayer Scenario.t0 (1 # 2)
     (λ i, if Nat.eqb i 0 then 1 # 2 ^ 20 else 1 # 2 ^ 21) (mkSuite ∅ ∅)).1
  = Thrown (Message "Duplicate player id in game")
  ∧ (testCreateGame
       (λ i, if Nat.eqb i 0 then (1700000000000, 4503599627386391 # 2 ^ 53)
             else if Nat.eqb i 1 then (1700000000006, 1 # 2)
             else (2 * Z.of_nat i, 1 # 2))
       (mkSuite ∅ ∅)).1
    = Thrown (Message "Duplicate game id").
Proof. split; vm_compute; reflexivity. Qed.

(** ** Full games *)

Section FullGame.
Variables (p1 p2 : number) (game : list (Z * Z)).
Hypothesis Hp1 : (201 <= p1)%Q.
Hypothesis Hp2 : (201 <= p2)%Q.
Hypothesis Hne : Qeq_bool p1 p2 = false.

Lemma playable_S (k : nat) : playable game (S k) → playable game k.
Proof. intros H i Hi. apply H. lia. Qed.

Lemma shape3_boardAfter (k : nat) : shape3 (boardAfter p1 p2 game k) = true.
Proof.
  induction k as [|k IH]; [reflexivity|].
  cbn [boardAfter]. by rewrite shape3_writeCell.
Qed.

Lemma cell_boardAfter (k : nat) (i j : Z) :
  playable game k → 0 ≤ i ≤ 2 → 0 ≤ j ≤ 2 →
  cell (boardAfter p1 p2 game k) i j
  = match moverAt game k (i, j) with
    | None => Null
    | Some first => Num (if first then p1 else p2)
    end.
Proof.
  revert i j. induction k as [|k IH]; intros i j Hplay H1 H2.
  { assert (i = 0 ∨ i = 1 ∨ i = 2) as [->|[->| ->]] by lia;
      assert (j = 0 ∨ j = 1 ∨ j = 2) as [->|[->| ->]] by lia; reflexivity. }
  destruct (Hplay k) as [Hrange Hfree]; [lia|].
  pose proof (inRange_inv _ _ Hrange) as [Hx Hy].
  assert (cell (boardAfter p1 p2 game k) (nthMove game k).2 (nthMove game k).1
          = Null) as Hnull.
  { rewrite IH by (by apply playable_S || lia). by rewrite Hfree. }
  cbn [boardAfter moverAt].
  rewrite (cell_writeCell _ _ _ _ (shape3_boardAfter k) Hrange Hnull) by done.
  case_decide as Hc; case_bool_decide as Hc'.
  - done.
  - destruct Hc'. by destruct Hc as [-> ->].
  - destruct Hc. by inversion Hc'.
  - apply IH; by try apply playable_S.
Qed.

Lemma free_boardAfter (k : nat) :
  playable game (S k) →
  cell (boardAfter p1 p2 game k) (nthMove game k).2 (nthMove game k).1 = Null.
Proof.
  intros Hplay. destruct (Hplay k) as [Hrange Hfree]; [lia|].
  pose proof (inRange_inv _ _ Hrange) as [Hx Hy].
  rewrite cell_boardAfter by (by apply playable_S || lia).
  by rewrite Hfree.
Qed.

Lemma taken_boardAfter (k i : nat) :
  playable game k → (i < k)%nat →
  cell (boardAfter p1 p2 game k) (nthMove game i).2 (nthMove game i).1 ≠ Null.
Proof.
  intros Hplay Hi. destruct (Hplay i Hi) as [Hrange _].
  pose proof (inRange_inv _ _ Hrange) as [Hx Hy].
  rewrite cell_boardAfter by (done || lia).
  assert (is_Some (moverAt game k ((nthMove game i).2, (nthMove game i).1)))
    as [first ->]; [|done].
  clear Hplay. induction k as [|k IH]; [lia|]. cbn [moverAt].
  case_bool_decide as Hc; [by eexists|].
  apply IH. destruct (decide (i = k)) as [->|]; [by destruct Hc|lia].
Qed.

Lemma holds_boardAfter (k : nat) (first : bool) (c : Z * Z) :
  playable game k → 0 ≤ c.1 ≤ 2 → 0 ≤ c.2 ≤ 2 →
  holds (boardAfter p1 p2 game k) (if first then p1 else p2) c
  = owns game k first c.
Proof.
  intros Hplay H1 H2. unfold holds, owns. destruct c as [i j].
  cbn [fst snd] in *. rewrite cell_boardAfter by done.
  assert (Qeq_bool p1 p1 = true) as H11 by (by apply Qeq_bool_iff).
  assert (Qeq_bool p2 p2 = true) as H22 by (by apply Qeq_bool_iff).
  assert (Qeq_bool p2 p1 = false) as H21.
  { apply not_true_iff_false. intros H%Qeq_bool_iff.
    apply not_true_iff_false in Hne. apply Hne, Qeq_bool_iff. by symmetry. }
  destruct (moverAt game k (i, j)) as [[]|], first;
    rewrite ?H11, ?H22, ?Hne, ?H21; by case_bool_decide.
Qed.

Lemma hasLine_boardAfter (k : nat) (first : bool) :
  playable game k →
  hasLine (boardAfter p1 p2 game k) (if first then p1 else p2)
  = lineFor game k first.
Proof.
  intros Hplay. unfold hasLine, lineFor, lines, occupies. cbn [existsb fst snd].
  by rewrite !holds_boardAfter by (done || (cbn [fst snd]; lia)).
Qed.

Lemma occupiedCells_boardAfter (k : nat) :
  playable game k → occupiedCells (boardAfter p1 p2 game k) = k.
Proof.
  induction k as [|k IH]; intros Hplay; [reflexivity|].
  destruct (Hplay k) as [Hrange _]; [lia|].
  cbn [boardAfter].
  rewrite (occupiedCells_writeCell _ _ _ _ (shape3_boardAfter k) Hrange
             (free_boardAfter k Hplay)).
  by rewrite IH by (by apply playable_S).
Qed.

Lemma cells_boardAfter (k : nat) :
  forallb (forallb (cell_ok (p1, p2))) (boardAfter p1 p2 game k) = true.
Proof.
  induction k as [|k IH]; [reflexivity|]. cbn [boardAfter].
  apply forallb2_writeCell; [done|]. unfold cell_ok, includes, num_eq.
  cbn [fst snd]. destruct (Nat.even k).
  - apply orb_true_iff. left. by apply Qeq_bool_iff.
  - apply orb_true_iff. right. by apply Qeq_bool_iff.
Qed.
Local Abbreviation cur := (mover p1 p2).
Local Abbreviation oth := (mover p2 p1).

Lemma players_facts (i : nat) :
  seated p1 = true ∧ seated p2 = true
  ∧ num_eq (cur i) 0 = false
  ∧ includes (p1, p2) (cur i) = true ∧ includes (p1, p2) (oth i) = true
  ∧ num_eq (oth i) (cur i) = false ∧ num_eq (cur i) (cur i) = true
  ∧ (201 <= cur i)%Q.
Proof.
  assert (Qeq_bool p1 p1 = true) as H11 by (by apply Qeq_bool_iff).
  assert (Qeq_bool p2 p2 = true) as H22 by (by apply Qeq_bool_iff).
  assert (Qeq_bool p2 p1 = false) as H21.
  { apply not_true_iff_false. intros H%Qeq_bool_iff.
    apply not_true_iff_false in Hne. apply Hne, Qeq_bool_iff. by symmetry. }
  assert (∀ p : number, (201 <= p)%Q → num_eq p 0 = false) as Hnz.
  { intros p Hp. apply not_true_iff_false. intros H%num_eq_spec. lra. }
  destruct (issued_seated p1 Hp1) as (Hs1 & _ & _).
  destruct (issued_seated p2 Hp2) as (Hs2 & _ & _).
  unfold mover, includes, num_eq. cbn [fst snd].
  destruct (Nat.even i); rewrite ?H11, ?H22, ?Hne, ?H21, ?orb_true_r;
    split_and!; try done; by apply Hnz.
Qed.

Lemma fixTurn_gameAfter (i : nat) :
  fixTurn (gameAfter p1 p2 game i false) = onTurn p1 p2 game i.
Proof.
  destruct i as [|i]; [reflexivity|].
  destruct (players_facts (S i)) as (_ & _ & Hnz & _).
  unfold fixTurn, gameAfter. fields. fold (cur (S i)). by rewrite Hnz.
Qed.

Lemma fixTurn_onTurn (i : nat) :
  fixTurn (onTurn p1 p2 game i) = onTurn p1 p2 game i.
Proof.
  destruct (players_facts i) as (_ & _ & Hnz & _).
  unfold fixTurn, onTurn. fields. fold (cur i). by rewrite Hnz.
Qed.

Lemma addPlayerOn_gameAfter (gameId : Z) (rnd : number) (i : nat) :
  addPlayerOn gameId rnd (gameAfter p1 p2 game i false)
  = (GAME_ONGOING, gameAfter p1 p2 game i false).
Proof.
  destruct (players_facts i) as (Hs1 & Hs2 & _).
  unfold addPlayerOn, gameAfter. fields. by rewrite Hs1, Hs2.
Qed.

Lemma addPlayerOn_ended (gameId : Z) (rnd : number) (k : nat) :
  addPlayerOn gameId rnd (gameAfter p1 p2 game k true)
  = (GAME_ENDED, gameAfter p1 p2 game k true).
Proof. reflexivity. Qed.

Lemma makeMoveOn_ended (playerId : number) (x y : Z) (k : nat) :
  makeMoveOn playerId x y (gameAfter p1 p2 game k true)
  = (GAME_ENDED, gameAfter p1 p2 game k true).
Proof. reflexivity. Qed.

Lemma makeMoveOn_wrong_turn (i : nat) (x y : Z) :
  inRange x y = true →
  makeMoveOn (oth i) x y (gameAfter p1 p2 game i false)
  = (WRONG_TURN, onTurn p1 p2 game i).
Proof.
  intros Hrange.
  destruct (players_facts i) as (Hs1 & Hs2 & _ & _ & Hin & Hwrong & _).
  unfold makeMoveOn. rewrite fixTurn_gameAfter.
  cbn [players isEnded activePlayer board gameAfter onTurn fst snd].
  rewrite Hs1, Hs2, Hin, Hrange. cbn [andb negb]. fold (cur i).
  by rewrite Hwrong.
Qed.

Lemma makeMoveOn_outside (i : nat) (x y : Z) :
  inRange x y = false →
  makeMoveOn (cur i) x y (onTurn p1 p2 game i)
  = (INVALID_LOCATION, onTurn p1 p2 game i).
Proof.
  intros Hrange.
  destruct (players_facts i) as (Hs1 & Hs2 & _ & Hin & _).
  unfold makeMoveOn.
  cbn [players isEnded activePlayer board gameAfter onTurn fst snd].
  by rewrite Hs1, Hs2, Hin, Hrange.
Qed.

Lemma makeMoveOn_taken (i : nat) (x y : Z) :
  inRange x y = true → cell (boardAfter p1 p2 game i) y x ≠ Null →
  makeMoveOn (cur i) x y (onTurn p1 p2 game i)
  = (INVALID_LOCATION, onTurn p1 p2 game i).
Proof.
  intros Hrange Htaken.
  destruct (players_facts i) as (Hs1 & Hs2 & _ & Hin & _ & _ & Hturn & _).
  unfold makeMoveOn. rewrite fixTurn_onTurn.
  cbn [players isEnded activePlayer board gameAfter onTurn fst snd].
  fold (cur i). rewrite Hs1, Hs2, Hin, Hrange, Hturn. cbn [andb negb].
  destruct (cell (boardAfter p1 p2 game i) y x); done.
Qed.

Lemma place_onTurn (i : nat) :
  place (cur i) (nthMove game i).1 (nthMove game i).2 (onTurn p1 p2 game i)
  = gameAfter p1 p2 game (S i) false.
Proof.
  unfold place. rewrite fixTurn_onTurn. unfold onTurn, gameAfter. fields.
  cbn [boardAfter]. fold (cur i). f_equal.
  rewrite Nat.even_succ, <- Nat.negb_even.
  assert (Qeq_bool p1 p1 = true) as H11 by (by apply Qeq_bool_iff).
  unfold mover, num_eq. destruct (Nat.even i); cbn [negb]; by rewrite ?H11, ?Hne.
Qed.

Lemma makeMoveOn_next (i : nat) :
  playable game (S i) →
  makeMoveOn (cur i) (nthMove game i).1 (nthMove game i).2 (onTurn p1 p2 game i)
  = if lineFor game (S i) (Nat.even i)
    then (cur i, gameAfter p1 p2 game (S i) true)
    else if (S i =? 9)%nat
         then (oth i, gameAfter p1 p2 game (S i) true)
         else (GAME_ONGOING, gameAfter p1 p2 game (S i) false).
Proof.
  intros Hplay. destruct (Hplay i) as [Hrange _]; [lia|].
  destruct (players_facts i) as (Hs1 & Hs2 & _ & Hin & _ & _ & Hturn & Hcur).
  rewrite makeMoveOn_accepted; last first.
  { unfold accepted. rewrite fixTurn_onTurn. unfold onTurn. fields.
    fold (cur i). rewrite Hs1, Hs2, Hin, Hrange, Hturn.
    by rewrite (free_boardAfter i Hplay). }
  rewrite place_onTurn. cbv zeta.
  assert (board (gameAfter p1 p2 game (S i) false)
          = boardAfter p1 p2 game (S i)) as -> by reflexivity.
  rewrite checkLines_filled by (apply shape3_boardAfter || done).
  unfold mover. rewrite (hasLine_boardAfter (S i) (Nat.even i) Hplay).
  destruct (lineFor game (S i) (Nat.even i)); [reflexivity|].
  pose proof (full_occupied (p1, p2) _ (shape3_boardAfter (S i))
                (cells_boardAfter (S i))) as Hfull.
  rewrite (occupiedCells_boardAfter (S i) Hplay) in Hfull.
  destruct (Nat.eqb_spec (S i) 9) as [E|E].
  - rewrite (proj2 Hfull E). unfold gameAfter. fields. f_equal.
    unfold mover. rewrite Nat.even_succ, <- Nat.negb_even.
    by destruct (Nat.even i).
  - destruct (full (boardAfter p1 p2 game (S i))); [|reflexivity].
    by destruct E, (proj1 Hfull).
Qed.
End FullGame.

Lemma legal_inv (game : list (Z * Z)) (isDraw : bool) :
  legal game isDraw = true →
  (0 < length game ≤ 9)%nat
  ∧ playable game (length game)
  ∧ ∀ i, (i < length game)%nat →
      if (i + 1 <? length game)%nat
      then lineFor game (S i) (Nat.even i) = false
      else (if isDraw
            then negb (lineFor game (S i) (Nat.even i))
                 && (length game =? 9)%nat
            else lineFor game (S i) (Nat.even i)) = true.
Proof.
  intros Hlegal. unfold legal in Hlegal.
  apply andb_true_iff in Hlegal
    as [[Hpos%Nat.ltb_lt Hnine%Nat.leb_le]%andb_true_iff Hall].
  rewrite forallb_forall in Hall.
  assert (∀ i, (i < length game)%nat → legalRound game isDraw i = true)
    as Hround by (intros i Hi; apply Hall, in_seq; lia).
  split; [lia|]. split.
  - intros i Hi. specialize (Hround i Hi).
    unfold legalRound in Hround. cbv zeta in Hround.
    apply andb_true_iff in Hround as [[Hrange Hfree]%andb_true_iff _].
    split; [done|]. by apply bool_decide_eq_true in Hfree.
  - intros i Hi. specialize (Hround i Hi).
    unfold legalRound in Hround. cbv zeta in Hround.
    apply andb_true_iff in Hround as [_ Hend].
    destruct (i + 1 <? length game)%nat; [by apply negb_true_iff|done].
Qed.

Lemma expect_ins (s : Games) (tg : gmap Z (number * number)) (gameId : Z)
    (playerId : number) (x y : Z) (g g' : Game) (r e : number) (text : string) :
  201 ≤ gameId → shape3 (board g) = true →
  makeMoveOn playerId x y g = (r, g') → num_eq r e = true →
  expect (makeMove gameId playerId x y) e text (mkSuite (<[gameId := g]> s) tg)
  = (Done tt, mkSuite (<[gameId := g']> s) tg).
Proof.
  intros Hid Hshape Hmove Hr. unfold expect.
  rewrite (andThen_done _ _ _ _ _
             (call_makeMove_ins s tg gameId playerId x y g Hid Hshape)).
  rewrite Hmove. cbn [fst snd]. by rewrite Hr.
Qed.

Lemma addTestPlayer_refused (s : Games) (t : gmap Z (number * number))
    (gameId : Z) (rnd : number) (g : Game) (ps : number * number)
    (r e : number) (text : string) :
  201 ≤ gameId → addPlayerOn gameId rnd g = (r, g) →
  Qle_bool 0 r = false → num_eq r e = true →
  andThen (addTestPlayer gameId rnd) (λ r, check (num_eq r e) text)
    (mkSuite (<[gameId := g]> s) (<[gameId := ps]> t))
  = (Done tt, mkSuite (<[gameId := g]> s) (<[gameId := ps]> t)).
Proof.
  intros Hid Hadd Hneg Hr.
  pose proof (addTestPlayer_ins s t gameId rnd g ps Hid) as Hrun.
  rewrite Hadd in Hrun. cbn [fst snd] in Hrun. rewrite Hneg in Hrun.
  cbn [negb] in Hrun. rewrite (andThen_done _ _ _ _ _ Hrun). by rewrite Hr.
Qed.

Section FullGameRounds.
Variables (gameId : Z) (p1 p2 : number) (rnd : nat → number)
  (game : list (Z * Z)) (isDraw : bool)
  (s : Games) (t : gmap Z (number * number)).
Hypothesis Hid : 201 ≤ gameId.
Hypothesis Hp1 : (201 <= p1)%Q.
Hypothesis Hp2 : (201 <= p2)%Q.
Hypothesis Hne : Qeq_bool p1 p2 = false.

Local Abbreviation suiteWith g :=
  (mkSuite (<[gameId := g]> s) (<[gameId := (p1, p2)]> t)).

Lemma round_checks (i : nat) :
  playable game (S i) →
  fullGameRound gameId p1 p2 rnd game isDraw i
    (suiteWith (gameAfter p1 p2 game i false))
  = (if (i + 1 <? length game)%nat
     then expect (makeMove gameId (mover p1 p2 i)
                    (nthMove game i).1 (nthMove game i).2)
            GAME_ONGOING "Valid move rejected"
     else
       expect (makeMove gameId (mover p1 p2 i)
                 (nthMove game i).1 (nthMove game i).2)
         (if isDraw then mover p2 p1 i else mover p1 p2 i)
         (if isDraw then "Game should have been a draw"
          else if Nat.even i then "Player 1 should have won"
               else "Player 2 should have won") >>
       (let* r := addTestPlayer gameId (rnd (3 + i)%nat) in
        check (num_eq r GAME_ENDED)
          "Adding a player after the game ended should return GAME_ENDED") >>
       expect (makeMove gameId (mover p2 p1 i)
                 (nthMove game i).1 (nthMove game i).2)
         GAME_ENDED
         "Making a move after the game ended should return GAME_ENDED")
      (suiteWith (onTurn p1 p2 game i)).
Proof.
  intros Hplay. destruct (Hplay i) as [Hrange _]; [lia|].
  pose proof (playable_S _ _ Hplay) as Hbefore.
  unfold fullGameRound. cbv zeta.
  fold (mover p1 p2 i) (mover p2 p1 i).
  assert (addPlayerOn gameId (rnd (2 + i)%nat) (gameAfter p1 p2 game i false)
          = (GAME_ONGOING, gameAfter p1 p2 game i false)) as Hadd
    by (by apply addPlayerOn_gameAfter).
  assert (makeMoveOn (mover p2 p1 i) (nthMove game i).1 (nthMove game i).2
            (gameAfter p1 p2 game i false)
          = (WRONG_TURN, onTurn p1 p2 game i)) as Hwrong
    by (by apply makeMoveOn_wrong_turn).
  rewrite (andThen_done _ _ _ _ _
             (addTestPlayer_refused s t gameId (rnd (2 + i)%nat)
                (gameAfter p1 p2 game i false) (p1, p2)
                GAME_ONGOING GAME_ONGOING _ Hid Hadd eq_refl eq_refl)).
  rewrite (andThen_done _ _ _ _ _
             (expect_ins s _ gameId _ _ _ (gameAfter p1 p2 game i false) _
                WRONG_TURN WRONG_TURN _ Hid
                (shape3_boardAfter p1 p2 game i) Hwrong eq_refl)).
  rewrite (andThen_done _ _ (suiteWith (onTurn p1 p2 game i))
             (suiteWith (onTurn p1 p2 game i)) tt); last first.
  { apply forEach_skip. intros i2 Hi2%in_seq.
    destruct (Hbefore i2) as [Hrange2 _]; [lia|].
    apply (expect_ins s _ gameId _ _ _ _ _ INVALID_LOCATION); try done.
    - apply (shape3_boardAfter p1 p2 game i).
    - apply makeMoveOn_taken; try done.
      apply taken_boardAfter; try done. lia. }
  rewrite (andThen_done _ _ (suiteWith (onTurn p1 p2 game i))
             (suiteWith (onTurn p1 p2 game i)) tt); last first.
  { apply (expect_ins s _ gameId _ _ _ _ _ INVALID_LOCATION); try done.
    - apply (shape3_boardAfter p1 p2 game i).
    - apply makeMoveOn_outside; try done.
      apply not_true_iff_false. intros E%inRange_inv. lia. }
  rewrite (andThen_done _ _ (suiteWith (onTurn p1 p2 game i))
             (suiteWith (onTurn p1 p2 game i)) tt); last first.
  { apply (expect_ins s _ gameId _ _ _ _ _ INVALID_LOCATION); try done.
    - apply (shape3_boardAfter p1 p2 game i).
    - apply makeMoveOn_outside; try done.
      apply not_true_iff_false. intros E%inRange_inv. lia. }
  reflexivity.
Qed.

Lemma round_next (i : nat) :
  playable game (S i) → (i + 1 < length game)%nat →
  lineFor game (S i) (Nat.even i) = false → S i ≠ 9%nat →
  fullGameRound gameId p1 p2 rnd game isDraw i
    (suiteWith (gameAfter p1 p2 game i false))
  = (Done tt, suiteWith (gameAfter p1 p2 game (S i) false)).
Proof.
  intros Hplay Hi Hline Hnine. rewrite round_checks by done.
  rewrite (proj2 (Nat.ltb_lt _ _) Hi).
  apply (expect_ins s _ gameId _ _ _ _ _ GAME_ONGOING); try done.
  - apply (shape3_boardAfter p1 p2 game i).
  - rewrite makeMoveOn_next by done. rewrite Hline.
    by rewrite (proj2 (Nat.eqb_neq _ _) Hnine).
Qed.

Lemma round_last (i : nat) :
  playable game (S i) → (i + 1 = length game)%nat →
  (if isDraw
   then negb (lineFor game (S i) (Nat.even i)) && (length game =? 9)%nat
   else lineFor game (S i) (Nat.even i)) = true →
  fullGameRound gameId p1 p2 rnd game isDraw i
    (suiteWith (gameAfter p1 p2 game i false))
  = (Done tt, suiteWith (gameAfter p1 p2 game (S i) true)).
Proof.
  intros Hplay Hi Hend. rewrite round_checks by done.
  rewrite (proj2 (Nat.ltb_ge _ _)) by lia.
  assert (num_eq (mover p1 p2 i) (mover p1 p2 i) = true) as Hcur
    by (by apply num_eq_spec).
  assert (num_eq (mover p2 p1 i) (mover p2 p1 i) = true) as Hoth
    by (by apply num_eq_spec).
  rewrite (andThen_done _ _ _ (suiteWith (gameAfter p1 p2 game (S i) true)) tt);
    last first.
  { pose proof (makeMoveOn_next p1 p2 game Hp1 Hp2 Hne i Hplay) as Hmove.
    destruct isDraw.
    - apply andb_true_iff in Hend as [Hline%negb_true_iff Hnine%Nat.eqb_eq].
      rewrite Hline in Hmove.
      rewrite (proj2 (Nat.eqb_eq (S i) 9)) in Hmove by lia.
      by apply (expect_ins s _ gameId _ _ _ (onTurn p1 p2 game i) _ _ _ _ Hid
                  (shape3_boardAfter p1 p2 game i) Hmove).
    - rewrite Hend in Hmove.
      by apply (expect_ins s _ gameId _ _ _ (onTurn p1 p2 game i) _ _ _ _ Hid
                  (shape3_boardAfter p1 p2 game i) Hmove). }
  rewrite (andThen_done _ _ _ _ _
             (addTestPlayer_refused s t gameId (rnd (3 + i)%nat)
                (gameAfter p1 p2 game (S i) true) (p1, p2)
                GAME_ENDED GAME_ENDED _ Hid eq_refl eq_refl eq_refl)).
  apply (expect_ins s _ gameId _ _ _ _ _ GAME_ENDED); try done.
  apply (shape3_boardAfter p1 p2 game (S i)).
Qed.
Lemma rounds_run (m k : nat) :
  legal game isDraw = true → (k + S m = length game)%nat →
  forEach (seq k (S m)) (fullGameRound gameId p1 p2 rnd game isDraw)
    (suiteWith (gameAfter p1 p2 game k false))
  = (Done tt, suiteWith (gameAfter p1 p2 game (length game) true)).
Proof.
  intros (Hnine & Hplayable & Hround)%legal_inv.
  assert (∀ j, (j ≤ length game)%nat → playable game j) as Hplay.
  { intros j Hj i Hi. apply Hplayable. lia. }
  revert k. induction m as [|m IH]; intros k Hk;
    pose proof (Hround k ltac:(lia)) as Hend.
  - rewrite (proj2 (Nat.ltb_ge _ _)) in Hend by lia.
    cbn [seq forEach].
    rewrite (andThen_done _ _ _ _ _
               (round_last k (Hplay (S k) ltac:(lia)) ltac:(lia) Hend)).
    unfold done_. by replace (length game) with (S k) by lia.
  - rewrite (proj2 (Nat.ltb_lt _ _)) in Hend by lia.
    change (seq k (S (S m))) with (k :: seq (S k) (S m)). cbn [forEach].
    rewrite (andThen_done _ _ _ _ _
               (round_next k (Hplay (S k) ltac:(lia)) ltac:(lia) Hend
                  ltac:(lia))).
    apply IH. lia.
Qed.
End FullGameRounds.

Lemma testFullGame_run (w : Suite) (now : Z) (rnd0 : number)
    (rnd : nat → number) (game : list (Z * Z)) (isDraw : bool) :
  legal game isDraw = true →
  0 ≤ now → random rnd0 → (∀ i, random (rnd i)) →
  let gameId := Qfloor (num_mul (inject_Z now) rnd0) in
  let id1 := issued gameId (rnd 0%nat) in
  let id2 := issued gameId (rnd 1%nat) in
  testFullGame now rnd0 rnd game isDraw w
  = if bool_decide (is_Some (testGames w !! gameId))
    then (Thrown (Message "Duplicate game id"),
          mkSuite (<[gameId := newGame]> (engine w)) (testGames w))
    else if gameId <? 201
    then (Thrown (Message
            "Adding players during the game should return GAME_ONGOING"),
          mkSuite (<[gameId := newGame]> (engine w))
                  (<[gameId := ((-1)%Q, (-1)%Q)]> (testGames w)))
    else if num_eq id1 id2
    then (Thrown (Message "Duplicate player id in game"),
          mkSuite (<[gameId := twoSeated gameId (rnd 0%nat) (rnd 1%nat)]> (engine w))
                  (<[gameId := (id1, (-1)%Q)]> (testGames w)))
    else (Done tt,
          mkSuite (<[gameId := gameAfter id1 id2 game (length game) true]> (engine w))
                  (<[gameId := (id1, id2)]> (testGames w))).
Proof.
  intros Hlegal Hnow [Hrnd0 _] Hrnd gameId id1 id2.
  unfold testFullGame. unfold andThen at 1.
  case_bool_decide as Hknown.
  { by rewrite createTestGame_known. }
  rewrite createTestGame_new
    by (done || by destruct (testGames w !! _); [destruct Hknown; eexists|]).
  fold gameId. generalize (engine w) (testGames w). intros s t.
  assert (∃ n, length game = S n) as [n Hn].
  { destruct (legal_inv _ _ Hlegal) as [Hpos _].
    exists (Nat.pred (length game)). lia. }
  destruct (gameId <? 201) eqn:Hlow.
  { apply Z.ltb_lt in Hlow.
    rewrite (andThen_done _ _ _ _ _ (addTestPlayer_below _ _ _ Hlow)).
    rewrite (andThen_done _ _ _ _ _ (addTestPlayer_below _ _ _ Hlow)).
    rewrite Hn. cbn [seq forEach]. unfold fullGameRound. cbv zeta.
    unfold andThen. by rewrite addTestPlayer_below. }
  apply Z.ltb_ge in Hlow.
  pose proof (Hrnd 0%nat) as Hr0. pose proof (Hrnd 1%nat) as Hr1.
  pose proof (issued_201 _ _ Hlow Hr0) as Hp1.
  pose proof (issued_201 _ _ Hlow Hr1) as Hp2.
  destruct (issued_seated _ Hp1) as (_ & Hpos1 & _).
  destruct (issued_seated _ Hp2) as (_ & Hpos2 & _).
  assert (addTestPlayer gameId (rnd 0%nat)
            (mkSuite (<[gameId := newGame]> s)
                     (<[gameId := ((-1)%Q, (-1)%Q)]> t))
          = (Done id1,
             mkSuite (<[gameId := oneSeated gameId (rnd 0%nat)]> s)
                     (<[gameId := (id1, (-1)%Q)]> t))) as Hfirst.
  { rewrite addTestPlayer_ins by done. rewrite addPlayerOn_newGame.
    cbn [fst snd]. rewrite Hpos1. reflexivity. }
  rewrite (andThen_done _ _ _ _ _ Hfirst).
  pose proof (addTestPlayer_ins s t gameId (rnd 1%nat)
                (oneSeated gameId (rnd 0%nat))
                (issued gameId (rnd 0%nat), (-1)%Q) Hlow) as Hsecond.
  rewrite addPlayerOn_oneSeated in Hsecond by done.
  cbn [fst snd] in Hsecond. unfold isValidId in Hsecond.
  rewrite Hpos1, Hpos2 in Hsecond. cbn [negb] in Hsecond. subst id1 id2.
  destruct (num_eq (issued gameId (rnd 0%nat)) (issued gameId (rnd 1%nat)))
    eqn:Hsame.
  { by rewrite (andThen_thrown _ _ _ _ _ Hsecond). }
  change (negb (Qle_bool 0 (-1))) with true in Hsecond. cbv iota in Hsecond.
  rewrite (andThen_done _ _ _ _ _ Hsecond).
  rewrite Hn. rewrite <- Hn at 2.
  by apply (rounds_run gameId _ _ rnd game isDraw s t Hlow Hp1 Hp2).
Qed.


(** X18.  [testFullGame] on a game that runs as the suite expects
    ([legal]: every move goes to a free cell of the board, no move before
    the last completes a line, the last one completes a line or, for a
    draw, fills the board without one), at a time [now >= 0] and with
    draws in [0, 1), on any suite.  It throws "Duplicate game id" when the
    suite knows the identifier drawn; otherwise
    "Adding players during the game should return GAME_ONGOING" when the
    identifier is below 201, the engine refusing every call on the game
    it has just created; otherwise "Duplicate player id in game" when the
    two players are issued the same identifier, which equal draws give
    and different draws can give too; otherwise every check of every round
    passes, and the game is left ended with the board of the whole
    game. *)
Theorem testFullGame_outcome (w : Suite) (now : Z) (rnd0 : number)
    (rnd : nat → number) (game : list (Z * Z)) (isDraw : bool) :
  legal game isDraw = true →
  0 ≤ now → random rnd0 → (∀ i, random (rnd i)) →
  let gameId := Qfloor (num_mul (inject_Z now) rnd0) in
  let id1 := issued gameId (rnd 0%nat) in
  let id2 := issued gameId (rnd 1%nat) in
  testFullGame now rnd0 rnd game isDraw w
  = if bool_decide (is_Some (testGames w !! gameId))
    then (Thrown (Message "Duplicate game id"),
          mkSuite (<[gameId := newGame]> (engine w)) (testGames w))
    else if gameId <? 201
    then (Thrown (Message
            "Adding players during the game should return GAME_ONGOING"),
          mkSuite (<[gameId := newGame]> (engine w))
                  (<[gameId := ((-1)%Q, (-1)%Q)]> (testGames w)))
    else if num_eq id1 id2
    then (Thrown (Message "Duplicate player id in game"),
          mkSuite (<[gameId := twoSeated gameId (rnd 0%nat) (rnd 1%nat)]> (engine w))
                  (<[gameId := (id1, (-1)%Q)]> (testGames w)))
    else (Done tt,
          mkSuite (<[gameId := gameAfter id1 id2 game (length game) true]> (engine w))
                  (<[gameId := (id1, id2)]> (testGames w))).
Proof. apply testFullGame_run. Qed.

Lemma testFullGame_outcome_witness :
  let rnd := λ i : nat, if Nat.eqb i 0 then (1 # 4)%Q else (1 # 2)%Q in
  let game := [(1, 1); (0, 0); (0, 1); (2, 2); (2, 1)] in
  legal game false = true
  ∧ 0 ≤ Scenario.t0 ∧ random (1 # 2) ∧ random (1 # 17179869184)
  ∧ (∀ i, random (rnd i))
  ∧ (testFullGame Scenario.t0 (1 # 2) rnd game false (mkSuite ∅ ∅)).1 = Done tt
  ∧ (testFullGame Scenario.t0 (1 # 17179869184) rnd game false (mkSuite ∅ ∅)).1
    = Thrown (Message
        "Adding players during the game should return GAME_ONGOING").
Proof.
  intros rnd game.
  assert (legal game false = true) as Hlegal by (vm_compute; reflexivity).
  assert (0 ≤ Scenario.t0) as Hnow by (vm_compute; discriminate).
  assert (random (1 # 2)) as Hhalf by (split; reflexivity || discriminate).
  assert (random (1 # 17179869184)) as Hlow
    by (split; reflexivity || discriminate).
  assert (∀ i, random (rnd i)) as Hrnd
    by (intros [|i]; split; reflexivity || discriminate).
  split; [exact Hlegal|]. split; [exact Hnow|]. split; [exact Hhalf|].
  split; [exact Hlow|]. split; [exact Hrnd|]. split.
  - rewrite (testFullGame_outcome (mkSuite ∅ ∅) Scenario.t0 (1 # 2) rnd game
               false Hlegal Hnow Hhalf Hrnd).
    vm_compute. reflexivity.
  - rewrite (testFullGame_outcome (mkSuite ∅ ∅) Scenario.t0 (1 # 17179869184)
               rnd game false Hlegal Hnow Hlow Hrnd).
    vm_compute. reflexivity.
Defined.

(** X19.  The engine passes the suite's own full games.  For each of the
    four games of [wins] (run with [isDraw = false]) and the two of
    [draws] (run with [isDraw = true]), at a time [now >= 0] and with
    draws in [0, 1): when the identifier drawn is new to the suite and at
    least 201 and the two players are issued different identifiers,
    [testFullGame] passes every check.  The game is then ended, every move of the game
    is on the board, and one of the players holds a line exactly for the
    games of [wins]. *)
Theorem suite_games_pass (w : Suite) (now : Z) (rnd0 : number)
    (rnd : nat → number) (game : list (Z * Z)) (isDraw : bool) :
  (In game wins ∧ isDraw = false) ∨ (In game draws ∧ isDraw = true) →
  0 ≤ now → random rnd0 → (∀ i, random (rnd i)) →
  let gameId := Qfloor (num_mul (inject_Z now) rnd0) in
  let id1 := issued gameId (rnd 0%nat) in
  let id2 := issued gameId (rnd 1%nat) in
  testGames w !! gameId = None → 201 ≤ gameId →
  ¬ (id1 == id2)%Q →
  ∃ w' g,
    testFullGame now rnd0 rnd game isDraw w = (Done tt, w')
    ∧ engine w' !! gameId = Some g ∧ testGames w' !! gameId = Some (id1, id2)
    ∧ isEnded g = true ∧ players g = (id1, id2)
    ∧ occupiedCells (board g) = length game
    ∧ hasLine (board g) id1 || hasLine (board g) id2 = negb isDraw.
Proof.
  intros Hgame Hnow Hrnd0 Hrnd gameId id1 id2 Hnew Hid Hdiff.
  assert (legal game isDraw = true
          ∧ lineFor game (length game) true || lineFor game (length game) false
            = negb isDraw) as [Hlegal Hline].
  { destruct Hgame as [[Hin ->]|[Hin ->]]; cbn [wins draws In] in Hin;
      repeat (destruct Hin as [<-|Hin]; [by vm_compute|]); destruct Hin. }
  pose proof (issued_201 _ _ Hid (Hrnd 0%nat)) as Hp1.
  pose proof (issued_201 _ _ Hid (Hrnd 1%nat)) as Hp2.
  assert (Qeq_bool id1 id2 = false) as Hne'.
  { apply not_true_iff_false. by intros H%Qeq_bool_iff. }
  destruct (legal_inv _ _ Hlegal) as (_ & Hplay & _).
  eexists _, (gameAfter id1 id2 game (length game) true). split.
  { rewrite testFullGame_run by done. fold gameId id1 id2.
    rewrite bool_decide_eq_false_2 by (rewrite Hnew; by intros [? ?]).
    rewrite (proj2 (Z.ltb_ge _ _) Hid). unfold num_eq. rewrite Hne'.
    reflexivity. }
  cbn [engine testGames]. rewrite !lookup_insert_eq.
  split_and!; try done.
  - by apply occupiedCells_boardAfter.
  - cbn [board gameAfter].
    rewrite (hasLine_boardAfter id1 id2 game Hne' _ true Hplay).
    by rewrite (hasLine_boardAfter id1 id2 game Hne' _ false Hplay).
Qed.

Lemma suite_games_pass_witness :
  let rnd := λ i : nat, if Nat.eqb i 0 then (1 # 4)%Q else (1 # 2)%Q in
  let game := [(0, 0); (1, 0); (0, 1); (1, 1); (0, 2)] in
  ((In game wins ∧ false = false) ∨ (In game draws ∧ false = true))
  ∧ 0 ≤ Scenario.t0 ∧ random (1 # 2) ∧ (∀ i, random (rnd i))
  ∧ testGames (mkSuite ∅ ∅) !! Scenario.G = None ∧ 201 ≤ Scenario.G
  ∧ ¬ (issued Scenario.G (rnd 0%nat) == issued Scenario.G (rnd 1%nat))%Q
  ∧ (testFullGame Scenario.t0 (1 # 2) rnd game false (mkSuite ∅ ∅)).1 = Done tt.
Proof.
  intros rnd game.
  assert ((In game wins ∧ false = false) ∨ (In game draws ∧ false = true))
    as Hgame by (left; split; [by left|reflexivity]).
  assert (0 ≤ Scenario.t0) as Hnow by (vm_compute; discriminate).
  assert (random (1 # 2)) as Hhalf by (split; reflexivity || discriminate).
  assert (∀ i, random (rnd i)) as Hrnd
    by (intros [|i]; split; reflexivity || discriminate).
  assert (testGames (mkSuite ∅ ∅) !! Scenario.G = None) as Hnew by reflexivity.
  assert (201 ≤ Scenario.G) as Hid by (vm_compute; discriminate).
  assert (¬ (issued Scenario.G (rnd 0%nat) == issued Scenario.G (rnd 1%nat))%Q)
    as Hdiff by (vm_compute; discriminate).
  split; [exact Hgame|]. split; [exact Hnow|]. split; [exact Hhalf|].
  split; [exact Hrnd|]. split; [exact Hnew|]. split; [exact Hid|].
  split; [exact Hdiff|].
  destruct (suite_games_pass (mkSuite ∅ ∅) Scenario.t0 (1 # 2) rnd game false
              Hgame Hnow Hhalf Hrnd Hnew Hid Hdiff) as (w' & g & Hrun & _).
  rewrite Hrun. reflexivity.
Defined.

(** ** runTest and runAllTests *)

Lemma runTest_pass (describe : exn → string) (name : string) (func : T unit)
    (w w' : Suite) (out : Console) :
  func w = (Done tt, w') →
  runTest describe name func w out
  = Some (false, w', out ++ ["[PASSED]  " +:+ name]).
Proof. intros H. unfold runTest. by rewrite H. Qed.

Lemma runTest_fail (describe : exn → string) (name : string) (func : T unit)
    (w w' : Suite) (out : Console) (t : thrown) :
  func w = (Thrown t, w') →
  runTest describe name func w out
  = Some (true, w',
          out ++ ["[FAILED] " +:+ name +:+ ": " +:+ shown describe t]).
Proof. intros H. unfold runTest. by rewrite H. Qed.

Lemma runGames_pass (describe : exn → string) (inputs : nat → Draws)
    (name : list (Z * Z) → string) (isDraw : bool)
    (games : list (list (Z * Z))) :
  (∀ game, In game games → legal game isDraw = true) →
  ∀ (j : nat) (failed : bool) (w : Suite) (out : Console),
  let ids := map (λ i, gameIdOf (inputs i)) (seq j (length games)) in
  (∀ i, (j ≤ i < j + length games)%nat →
        validDraws (inputs i) ∧ distinctPlayers (inputs i)
        ∧ 201 ≤ gameIdOf (inputs i)) →
  NoDup ids → Forall (λ id, testGames w !! id = None) ids →
  ∃ w',
    runGames describe inputs name isDraw games j failed w out
    = Some (failed, w',
            out ++ map (λ game, "[PASSED]  " +:+ name game) games)
    ∧ ∀ k, k ∉ ids → testGames w' !! k = testGames w !! k.
Proof.
  induction games as [|game games IH];
    intros Hlegal j failed w out ids Hinputs Hnodup Hfresh.
  { exists w. cbn [runGames map]. by rewrite app_nil_r. }
  destruct (Hinputs j) as ((Hnow & Hrnd0 & Hrnd) & Hdiff & Hid);
    [cbn [length]; lia|].
  unfold ids in Hnodup, Hfresh. cbn [length seq map] in Hnodup, Hfresh.
  apply NoDup_cons in Hnodup as [Hnotin Hnodup].
  apply Forall_cons in Hfresh as [Hnew Hfresh].
  cbn [runGames].
  pose proof (testFullGame_run w (clock (inputs j)) (gameDraw (inputs j))
                (playerDraws (inputs j)) game isDraw
                (Hlegal game (or_introl eq_refl)) Hnow Hrnd0 Hrnd) as Hrun.
  cbv zeta in Hrun. change (Qfloor _) with (gameIdOf (inputs j)) in Hrun.
  rewrite bool_decide_eq_false_2 in Hrun by (rewrite Hnew; by intros [? ?]).
  rewrite (proj2 (Z.ltb_ge _ _) Hid) in Hrun.
  assert (num_eq (issued (gameIdOf (inputs j)) (playerDraws (inputs j) 0%nat))
            (issued (gameIdOf (inputs j)) (playerDraws (inputs j) 1%nat))
          = false) as Hne
    by (apply not_true_iff_false; by intros H%num_eq_spec).
  rewrite Hne in Hrun.
  rewrite (runTest_pass _ _ _ _ _ _ Hrun). cbn [orb].
  match goal with |- context [runGames _ _ _ _ _ _ _ ?w1 _] =>
    destruct (IH (λ g Hg, Hlegal g (or_intror Hg)) (S j) failed w1
                (out ++ ["[PASSED]  " +:+ name game]))
      as (w' & Hrest & Hkeep)
  end.
  - intros i Hi. apply Hinputs. cbn [length]. lia.
  - done.
  - cbn [testGames]. apply Forall_forall. intros id Hin.
    rewrite Forall_forall in Hfresh.
    rewrite lookup_insert_ne; [by apply Hfresh|].
    intros Heq. apply Hnotin. by rewrite Heq.
  - exists w'. split.
    + rewrite Hrest. cbn [map]. by rewrite <- app_assoc.
    + intros k Hk. unfold ids in Hk. cbn [length seq map] in Hk.
      apply not_elem_of_cons in Hk as [Hother Hk].
      rewrite Hkeep by done. cbn [testGames]. by rewrite lookup_insert_ne.
Qed.

Lemma suite_games_legal :
  (∀ game, In game wins → legal game false = true)
  ∧ (∀ game, In game draws → legal game true = true).
Proof.
  split; intros game Hin; cbn [wins draws In] in Hin;
    repeat (destruct Hin as [<-|Hin]; [by vm_compute|]); destruct Hin.
Qed.

Lemma playedIds_split (inp : Inputs) :
  playedIds inp
  = map (λ j, gameIdOf (gameDraws inp j)) (seq 0 (length wins))
    ++ map (λ j, gameIdOf (gameDraws inp j)) (seq (length wins) (length draws)).
Proof. unfold playedIds. by rewrite seq_app, map_app. Qed.

Lemma runAllTests_pass (describe : exn → string) (inp : Inputs) (s : Games)
    (out : Console) :
  (∀ i, 0 ≤ (createInputs inp i).1 ∧ random (createInputs inp i).2) →
  validDraws (addDraws inp) → distinctPlayers (addDraws inp) →
  (∀ j, (j < length wins + length draws)%nat →
        validDraws (gameDraws inp j) ∧ distinctPlayers (gameDraws inp j)) →
  NoDup (drawnIds inp) → 200 ∉ createdIds inp →
  201 ≤ gameIdOf (addDraws inp) → Forall (λ id, 201 ≤ id) (playedIds inp) →
  ∃ w',
    runAllTests describe inp (mkSuite s ∅) out
    = Some (0, w',
            out ++ [ "[PASSED]  testCreateGame";
                     "[PASSED]  testInvalidGameIds";
                     "[PASSED]  testAddPlayer";
                     "[PASSED]  testPlayer2Win";
                     "[PASSED]  testPlayer2Win";
                     "[PASSED]  testPlayer1Win";
                     "[PASSED]  testPlayer1Win";
                     "[PASSED]  testDraw";
                     "[PASSED]  testDraw" ]).
Proof.
  intros Hcreate (Hnow & Hrnd0 & Hrnd) Hdiff Hgames Hnodup H200 HidA Hplayed.
  unfold drawnIds in Hnodup.
  apply NoDup_app in Hnodup as (Hnd1 & Hapart & Hnd2).
  apply NoDup_cons in Hnd2 as [HA Hnd2].
  rewrite playedIds_split in HA, Hnd2, Hplayed, Hapart.
  apply NoDup_app in Hnd2 as (HndW & HapartW & HndD).
  apply Forall_app in Hplayed as [HplayedW HplayedD].
  rewrite Forall_forall in HplayedW, HplayedD.
  destruct suite_games_legal as [HlegalW HlegalD].
  unfold runAllTests.
  (* testCreateGame *)
  destruct (createGames_run (createInputs inp) (seq 0 10) (mkSuite s ∅) Hcreate)
    as (w1 & Hrun1 & Hstate1).
  fold (createdIds inp) in Hrun1, Hstate1.
  assert (NoDup (createdIds inp)
          ∧ Forall (λ id, testGames (mkSuite s ∅) !! id = None) (createdIds inp))
    as Hfresh1 by (split; [done|by apply Forall_forall]).
  rewrite bool_decide_eq_true_2 in Hrun1 by done.
  specialize (Hstate1 Hfresh1).
  assert (∀ k, k ∉ createdIds inp → testGames w1 !! k = None) as Hnew1.
  { intros k Hk. by destruct (Hstate1 k) as [_ [_ ->]]. }
  rewrite (runTest_pass describe "testCreateGame"
             (testCreateGame (createInputs inp)) _ _ out Hrun1).
  (* testInvalidGameIds *)
  rewrite (runTest_pass describe "testInvalidGameIds" _ _ _ _
             (testInvalidGameIds_pass w1 (invalidDraws inp) (Hnew1 200 H200))).
  (* testAddPlayer *)
  assert (gameIdOf (addDraws inp) ∉ createdIds inp) as HA1.
  { intros Hin. apply (Hapart _ Hin). by left. }
  pose proof (testAddPlayer_run w1 _ _ _ Hnow Hrnd0 Hrnd) as Hrun3.
  cbv zeta in Hrun3.
  change (Qfloor _) with (gameIdOf (addDraws inp)) in Hrun3.
  rewrite bool_decide_eq_false_2 in Hrun3
    by (rewrite (Hnew1 _ HA1); by intros [? ?]).
  rewrite (proj2 (Z.ltb_ge _ _) HidA) in Hrun3.
  assert (num_eq (issued (gameIdOf (addDraws inp))
                    (playerDraws (addDraws inp) 0%nat))
            (issued (gameIdOf (addDraws inp))
               (playerDraws (addDraws inp) 1%nat)) = false) as Hne
    by (apply not_true_iff_false; by intros H%num_eq_spec).
  rewrite Hne in Hrun3.
  rewrite (runTest_pass describe "testAddPlayer" _ _ _ _ Hrun3).
  cbn [orb].
  (* the games of [wins] *)
  match goal with |- context [runGames _ _ _ _ wins _ _ ?w3 ?out3] =>
    destruct (runGames_pass describe (gameDraws inp) winTestName false wins
                HlegalW 0 false w3 out3) as (w4 & Hrun4 & Hkeep4)
  end.
  { intros i Hi. destruct (Hgames i) as [Hvalid Hdistinct]; [cbn in *; lia|].
    split_and!; [done..|]. apply HplayedW, list_elem_of_In, in_map_iff.
    exists i. split; [done|]. apply in_seq. lia. }
  { done. }
  { apply Forall_forall. intros id Hin. cbn [testGames].
    rewrite lookup_insert_ne.
    - apply Hnew1. intros Hc. apply (Hapart _ Hc). right.
      apply elem_of_app. by left.
    - intros Heq. apply HA. apply elem_of_app. left. by rewrite Heq. }
  rewrite Hrun4.
  (* the games of [draws] *)
  match goal with |- context [runGames _ _ _ _ draws _ _ _ ?out4] =>
    destruct (runGames_pass describe (gameDraws inp) (λ _, "testDraw") true
                draws HlegalD (length wins) false w4 out4)
      as (w5 & Hrun5 & _)
  end.
  { intros i Hi. destruct (Hgames i) as [Hvalid Hdistinct]; [cbn in *; lia|].
    split_and!; [done..|]. apply HplayedD, list_elem_of_In, in_map_iff.
    exists i. split; [done|]. apply in_seq. lia. }
  { done. }
  { apply Forall_forall. intros id Hin.
    rewrite Hkeep4 by (intros Hc; by apply (HapartW _ Hc)).
    cbn [testGames]. rewrite lookup_insert_ne.
    - apply Hnew1. intros Hc. apply (Hapart _ Hc). right.
      apply elem_of_app. by right.
    - intros Heq. apply HA. apply elem_of_app. right. by rewrite Heq. }
  rewrite Hrun5. exists w5. cbn [map wins draws].
  by rewrite <- !app_assoc.
Qed.

(** ** Every test returns or throws *)

Lemma andThen_finished {A B} (m : T A) (k : A → T B) (w : Suite) :
  finished (m w) → (∀ a w', finished (k a w')) → finished (andThen m k w).
Proof.
  unfold finished, andThen. intros Hm Hk.
  destruct (m w) as [[a| |] w']; cbn [fst] in *; [apply Hk|done|done].
Qed.

Lemma call_finished {A} (m : M A) (w : Suite) : finished (call_ m w).
Proof. unfold finished, call_. by destruct (m (engine w)) as [[|] ?]. Qed.

Lemma check_finished (expr : bool) (text : string) (w : Suite) :
  finished (check expr text w).
Proof. by destruct expr. Qed.

Lemma forEach_finished {A} (l : list A) (body : A → T unit) (w : Suite) :
  (∀ a w', finished (body a w')) → finished (forEach l body w).
Proof.
  intros Hbody. revert w. induction l as [|a l IH]; intros w; [done|].
  cbn [forEach]. apply andThen_finished; [apply Hbody|]. intros _ w'. apply IH.
Qed.

Lemma invalidGameId_finished (w : Suite) : finished (invalidGameId w).
Proof.
  destruct (invalidGameId_run w) as (i & Hrun & _). by rewrite Hrun.
Qed.

Lemma testGame_finished (gameId : Z) (w : Suite) : finished (testGame gameId w).
Proof. unfold finished, testGame. by destruct (testGames w !! gameId). Qed.

Ltac finish :=
  repeat first
    [ apply invalidGameId_finished
    | apply testGame_finished
    | apply andThen_finished; [|intros ? ?]
    | apply call_finished
    | apply check_finished
    | apply forEach_finished; intros ? ?
    | exact I
    | progress cbv beta zeta
    | match goal with
      | |- finished ((if ?b then _ else _) _) => destruct b
      end ].

Lemma createTestGame_finished (now : Z) (rnd : number) (w : Suite) :
  finished (createTestGame now rnd w).
Proof. unfold createTestGame. finish. Qed.

Lemma addTestPlayer_finished (gameId : Z) (rnd : number) (w : Suite) :
  finished (addTestPlayer gameId rnd w).
Proof. unfold addTestPlayer. finish. Qed.

Lemma expect_finished (m : M number) (e : number) (text : string) (w : Suite) :
  finished (expect m e text w).
Proof. unfold expect. finish. Qed.

Lemma testCreateGame_finished (inputs : nat → Z * number) (w : Suite) :
  finished (testCreateGame inputs w).
Proof. unfold testCreateGame. finish. Qed.

Lemma testInvalidGameIds_finished (rnd : nat → number) (w : Suite) :
  finished (testInvalidGameIds rnd w).
Proof. unfold testInvalidGameIds. finish. Qed.

Lemma testAddPlayer_finished (now : Z) (rnd0 : number) (rnd : nat → number)
    (w : Suite) :
  finished (testAddPlayer now rnd0 rnd w).
Proof.
  unfold testAddPlayer. finish.
Qed.

Lemma testFullGame_finished (now : Z) (rnd0 : number) (rnd : nat → number)
    (game : list (Z * Z)) (isDraw : bool) (w : Suite) :
  finished (testFullGame now rnd0 rnd game isDraw w).
Proof.
  unfold testFullGame, fullGameRound. cbv zeta. finish.
Qed.

Lemma runTest_total (describe : exn → string) (name : string) (func : T unit)
    (w : Suite) (out : Console) :
  finished (func w) →
  ∃ r line,
    runTest describe name func w out = Some (r, (func w).2, out ++ [line])
    ∧ (((func w).1 = Done tt ∧ r = false ∧ passedLine line = true)
       ∨ ((∃ t, (func w).1 = Thrown t) ∧ r = true ∧ passedLine line = false)).
Proof.
  unfold finished, runTest. destruct (func w) as [[[]|t|] w']; cbn [fst snd].
  - intros _. eexists _, _. split; [reflexivity|]. left. done.
  - intros _. eexists _, _. split; [reflexivity|]. right.
    split; [by eexists|done].
  - done.
Qed.

Lemma runGames_total (describe : exn → string) (inputs : nat → Draws)
    (name : list (Z * Z) → string) (isDraw : bool)
    (games : list (list (Z * Z))) (j : nat) (failed : bool) (w : Suite)
    (out : Console) :
  ∃ failed' w' lines,
    runGames describe inputs name isDraw games j failed w out
    = Some (failed', w', out ++ lines)
    ∧ length lines = length games
    ∧ (failed' = false ↔ failed = false ∧ forallb passedLine lines = true)
    ∧ (∀ i game, games !! i = Some game → legal game isDraw = true →
         validDraws (inputs (j + i)%nat) →
         gameIdOf (inputs (j + i)%nat) < 201 → failed' = true).
Proof.
  revert j failed w out. induction games as [|game games IH];
    intros j failed w out.
  { exists failed, w, []. cbn [runGames]. rewrite app_nil_r.
    split_and!; [done|done| |done]. cbn. tauto. }
  cbn [runGames].
  destruct (runTest_total describe (name game)
              (testFullGame (clock (inputs j)) (gameDraw (inputs j))
                 (playerDraws (inputs j)) game isDraw) w out
              (testFullGame_finished _ _ _ _ _ _))
    as (r & line & -> & Hr).
  match goal with |- context [runGames _ _ _ _ _ _ _ ?w1 _] =>
    destruct (IH (S j) (r || failed) w1 (out ++ [line]))
      as (failed' & w' & lines & -> & Hlen & Hiff & Hlow)
  end.
  exists failed', w', (line :: lines). split_and!.
  - by rewrite <- app_assoc.
  - cbn [length]. by rewrite Hlen.
  - rewrite Hiff. cbn [forallb]. rewrite orb_false_iff, andb_true_iff.
    destruct Hr as [(_ & -> & ->)|(_ & -> & ->)]; intuition done.
  - intros [|i] game' Hgame Hlegal Hvalid Hid.
    + cbn in Hgame. injection Hgame as <-.
      rewrite Nat.add_0_r in Hvalid, Hid.
      destruct Hvalid as (Hnow & Hrnd0 & Hrnd).
      pose proof (testFullGame_run w _ _ _ game isDraw Hlegal Hnow Hrnd0 Hrnd)
        as Hrun.
      cbv zeta in Hrun. change (Qfloor _) with (gameIdOf (inputs j)) in Hrun.
      rewrite (proj2 (Z.ltb_lt _ _) Hid) in Hrun.
      assert (r = true) as ->.
      { destruct Hr as [(Hdone & _)|(_ & -> & _)]; [|done].
        rewrite Hrun in Hdone. by destruct (bool_decide _). }
      destruct failed'; [done|]. by destruct (proj1 Hiff eq_refl).
    + cbn in Hgame. apply (Hlow i game' Hgame Hlegal).
      * by replace (S j + i)%nat with (j + S i)%nat by lia.
      * by replace (S j + i)%nat with (j + S i)%nat by lia.
Qed.

Lemma runAllTests_total (describe : exn → string) (inp : Inputs) (w : Suite)
    (out : Console) :
  ∃ r w' lines,
    runAllTests describe inp w out = Some (r, w', out ++ lines)
    ∧ length lines = 9%nat
    ∧ (r = 0 ∨ r = 1)
    ∧ (r = 0 ↔ forallb passedLine lines = true)
    ∧ (validDraws (addDraws inp) → gameIdOf (addDraws inp) < 201 → r = 1)
    ∧ (∀ j, (j < length wins + length draws)%nat →
         validDraws (gameDraws inp j) → gameIdOf (gameDraws inp j) < 201 →
         r = 1).
Proof.
  destruct suite_games_legal as [HlegalW HlegalD].
  unfold runAllTests.
  destruct (runTest_total describe "testCreateGame"
              (testCreateGame (createInputs inp)) w out
              (testCreateGame_finished _ _)) as (r1 & l1 & -> & H1).
  set (w1 := (testCreateGame (createInputs inp) w).2).
  destruct (runTest_total describe "testInvalidGameIds"
              (testInvalidGameIds (invalidDraws inp)) w1 (out ++ [l1])
              (testInvalidGameIds_finished _ _)) as (r2 & l2 & -> & H2).
  set (w2 := (testInvalidGameIds (invalidDraws inp) w1).2).
  destruct (runTest_total describe "testAddPlayer"
              (testAddPlayer (clock (addDraws inp)) (gameDraw (addDraws inp))
                 (playerDraws (addDraws inp))) w2 ((out ++ [l1]) ++ [l2])
              (testAddPlayer_finished _ _ _ _)) as (r3 & l3 & -> & H3).
  set (w3 := (testAddPlayer _ _ _ w2).2) in *.
  cbv zeta.
  destruct (runGames_total describe (gameDraws inp) winTestName false wins 0
              (r3 || (r2 || r1)) w3 (((out ++ [l1]) ++ [l2]) ++ [l3]))
    as (f4 & w4 & lines4 & -> & Hlen4 & Hiff4 & Hlow4).
  destruct (runGames_total describe (gameDraws inp) (λ _, "testDraw") true
              draws (length wins) f4 w4
              ((((out ++ [l1]) ++ [l2]) ++ [l3]) ++ lines4))
    as (f5 & w5 & lines5 & -> & Hlen5 & Hiff5 & Hlow5).
  exists (if f5 then 1 else 0), w5, (l1 :: l2 :: l3 :: lines4 ++ lines5).
  assert (f4 = true → f5 = true) as Hkeep.
  { intros ->. destruct f5; [done|]. by destruct (proj1 Hiff5 eq_refl). }
  split_and!.
  - f_equal. f_equal. rewrite <- !app_assoc. reflexivity.
  - cbn [length]. rewrite length_app, Hlen4, Hlen5. reflexivity.
  - destruct f5; auto.
  - cbn [forallb]. rewrite forallb_app, !andb_true_iff.
    assert (f5 = false ↔ (if f5 then 1 else 0) = 0) as <-
      by (by destruct f5).
    rewrite Hiff5, Hiff4, !orb_false_iff.
    destruct H1 as [(_ & -> & ->)|(_ & -> & ->)],
             H2 as [(_ & -> & ->)|(_ & -> & ->)],
             H3 as [(_ & -> & ->)|(_ & -> & ->)]; intuition done.
  - intros (Hnow & Hrnd0 & Hrnd) Hid.
    pose proof (testAddPlayer_run w2 _ _ _ Hnow Hrnd0 Hrnd) as Hrun.
    cbv zeta in Hrun.
    change (Qfloor _) with (gameIdOf (addDraws inp)) in Hrun.
    rewrite (proj2 (Z.ltb_lt _ _) Hid) in Hrun.
    assert (r3 = true) as ->.
    { destruct H3 as [(Hdone & _)|(_ & -> & _)]; [|done].
      rewrite Hrun in Hdone. by destruct (bool_decide _). }
    cbn [orb] in Hiff4. destruct f4; [|by destruct (proj1 Hiff4 eq_refl)].
    by rewrite Hkeep.
  - intros j Hj Hvalid Hid.
    destruct (decide (j < length wins)%nat) as [Hw|Hd].
    + destruct (lookup_lt_is_Some_2 wins j Hw) as [game Hgame].
      rewrite (Hkeep (Hlow4 j game Hgame
                        (HlegalW _ (proj1 (list_elem_of_In _ _)
                                      (list_elem_of_lookup_2 _ _ _ Hgame)))
                        Hvalid Hid)).
      reflexivity.
    + destruct (lookup_lt_is_Some_2 draws (j - length wins)) as [game Hgame];
        [lia|].
      rewrite (Hlow5 (j - length wins)%nat game Hgame
                 (HlegalD _ (proj1 (list_elem_of_In _ _)
                               (list_elem_of_lookup_2 _ _ _ Hgame)))).
      * reflexivity.
      * by replace (length wins + (j - length wins))%nat with j by lia.
      * by replace (length wins + (j - length wins))%nat with j by lia.
Qed.

(** X20.  A run of the whole suite that passes.  From a suite without
    test games, over any registry, with times [>= 0] and draws in [0, 1):
    when the seventeen game identifiers drawn differ from each other,
    none of the first ten is 200, those of [testAddPlayer] and of the six
    games are at least 201, and the two players of each of these seven
    games are issued different identifiers, then [runAllTests] returns 0
    and prints nine lines.  The two games of [wins] that the first player wins are
    printed as testPlayer2Win, the two that the second player wins as
    testPlayer1Win. *)
Theorem runAllTests_passes (describe : exn → string) (inp : Inputs)
    (s : Games) (out : Console) :
  (∀ i, 0 ≤ (createInputs inp i).1 ∧ random (createInputs inp i).2) →
  validDraws (addDraws inp) → distinctPlayers (addDraws inp) →
  (∀ j, (j < length wins + length draws)%nat →
        validDraws (gameDraws inp j) ∧ distinctPlayers (gameDraws inp j)) →
  NoDup (drawnIds inp) → 200 ∉ createdIds inp →
  201 ≤ gameIdOf (addDraws inp) → Forall (λ id, 201 ≤ id) (playedIds inp) →
  ∃ w',
    runAllTests describe inp (mkSuite s ∅) out
    = Some (0, w',
            out ++ [ "[PASSED]  testCreateGame";
                     "[PASSED]  testInvalidGameIds";
                     "[PASSED]  testAddPlayer";
                     "[PASSED]  testPlayer2Win";
                     "[PASSED]  testPlayer2Win";
                     "[PASSED]  testPlayer1Win";
                     "[PASSED]  testPlayer1Win";
                     "[PASSED]  testDraw";
                     "[PASSED]  testDraw" ]).
Proof. apply runAllTests_pass. Qed.

Lemma sampleInputs_valid :
  (∀ i, 0 ≤ (createInputs sampleInputs i).1
        ∧ random (createInputs sampleInputs i).2)
  ∧ validDraws (addDraws sampleInputs)
  ∧ distinctPlayers (addDraws sampleInputs)
  ∧ (∀ j, (j < length wins + length draws)%nat →
          validDraws (gameDraws sampleInputs j)
          ∧ distinctPlayers (gameDraws sampleInputs j))
  ∧ validDraws (addDraws lowInputs).
Proof.
  assert (random (1 # 2)) as Hhalf by (split; reflexivity || discriminate).
  assert (∀ i, random (quarterThenHalf i)) as Hrnd
    by (intros [|i]; split; reflexivity || discriminate).
  split_and!.
  - intros i. split; [cbn [sampleInputs createInputs fst]; lia|exact Hhalf].
  - split_and!; [cbn; lia|exact Hhalf|exact Hrnd].
  - vm_compute. discriminate.
  - intros j Hj. split.
    + split_and!;
        [cbn [sampleInputs gameDraws clock]; lia|exact Hhalf|exact Hrnd].
    + cbn [length wins draws Nat.add] in Hj.
      do 6 (destruct j as [|j]; [vm_compute; discriminate|]). lia.
  - split_and!; [cbn; lia|exact Hhalf|exact Hrnd].
Qed.

Lemma runAllTests_passes_witness :
  (∀ i, 0 ≤ (createInputs sampleInputs i).1
        ∧ random (createInputs sampleInputs i).2)
  ∧ validDraws (addDraws sampleInputs)
  ∧ distinctPlayers (addDraws sampleInputs)
  ∧ (∀ j, (j < length wins + length draws)%nat →
          validDraws (gameDraws sampleInputs j)
          ∧ distinctPlayers (gameDraws sampleInputs j))
  ∧ NoDup (drawnIds sampleInputs) ∧ (200 ∉ createdIds sampleInputs)
  ∧ 201 ≤ gameIdOf (addDraws sampleInputs)
  ∧ Forall (λ id, 201 ≤ id) (playedIds sampleInputs)
  ∧ ∃ w' out,
      runAllTests (λ _, "TypeError") sampleInputs (mkSuite ∅ ∅) []
      = Some (0, w', out).
Proof.
  destruct sampleInputs_valid as (Hcreate & Hadd & Hdiff & Hgames & _).
  assert (NoDup (drawnIds sampleInputs)) as Hnodup
    by (apply (bool_decide_unpack _); vm_compute; reflexivity).
  assert (200 ∉ createdIds sampleInputs) as H200
    by (apply (bool_decide_unpack _); vm_compute; reflexivity).
  assert (201 ≤ gameIdOf (addDraws sampleInputs)) as HidA
    by (vm_compute; discriminate).
  assert (Forall (λ id, 201 ≤ id) (playedIds sampleInputs)) as Hplayed
    by (apply (bool_decide_unpack _); vm_compute; reflexivity).
  split; [exact Hcreate|]. split; [exact Hadd|]. split; [exact Hdiff|].
  split; [exact Hgames|]. split; [exact Hnodup|]. split; [exact H200|].
  split; [exact HidA|]. split; [exact Hplayed|].
  destruct (runAllTests_passes (λ _, "TypeError") sampleInputs ∅ []
              Hcreate Hadd Hdiff Hgames Hnodup H200 HidA Hplayed)
    as (w' & Hrun).
  exists w'. eexists. exact Hrun.
Defined.

(** X21.  [runAllTests] always returns, from any suite and with any
    inputs: the loop of [invalidGameId] ends, [runTest] catches whatever
    a test throws, and all nine tests are run whichever of them fail.  It
    prints nine lines and returns 0 or 1, and it returns 0 exactly when
    every line says PASSED. *)
Theorem runAllTests_returns (describe : exn → string) (inp : Inputs)
    (w : Suite) (out : Console) :
  ∃ r w' lines,
    runAllTests describe inp w out = Some (r, w', out ++ lines)
    ∧ length lines = 9%nat
    ∧ (r = 0 ∨ r = 1)
    ∧ (r = 0 ↔ forallb passedLine lines = true).
Proof.
  destruct (runAllTests_total describe inp w out)
    as (r & w' & lines & Hrun & Hlen & Hr & Hiff & _).
  by exists r, w', lines.
Qed.

(** X22.  The suite fails whenever one of its games gets an identifier
    below 201: when the identifier drawn in [testAddPlayer] or in one of
    the six full games is below 201, at a time [>= 0] and with draws in
    [0, 1), [runAllTests] returns 1, from any suite and whatever the other
    inputs are. *)
Theorem runAllTests_fails_below_201 (describe : exn → string) (inp : Inputs)
    (w : Suite) (out : Console) :
  (validDraws (addDraws inp) ∧ gameIdOf (addDraws inp) < 201)
  ∨ (∃ j, (j < length wins + length draws)%nat
          ∧ validDraws (gameDraws inp j)
          ∧ gameIdOf (gameDraws inp j) < 201) →
  ∃ w' out', runAllTests describe inp w out = Some (1, w', out').
Proof.
  intros Hlow.
  destruct (runAllTests_total describe inp w out)
    as (r & w' & lines & Hrun & _ & _ & _ & HlowA & HlowG).
  exists w', (out ++ lines). rewrite Hrun.
  destruct Hlow as [[Hvalid Hid]|(j & Hj & Hvalid & Hid)].
  - by rewrite (HlowA Hvalid Hid).
  - by rewrite (HlowG j Hj Hvalid Hid).
Qed.

Lemma runAllTests_fails_below_201_witness :
  ((validDraws (addDraws lowInputs) ∧ gameIdOf (addDraws lowInputs) < 201)
   ∨ (∃ j, (j < length wins + length draws)%nat
           ∧ validDraws (gameDraws lowInputs j)
           ∧ gameIdOf (gameDraws lowInputs j) < 201))
  ∧ ∃ w' out',
      runAllTests (λ _, "TypeError") lowInputs (mkSuite ∅ ∅) []
      = Some (1, w', out').
Proof.
  destruct sampleInputs_valid as (_ & _ & _ & _ & Hvalid).
  assert (gameIdOf (addDraws lowInputs) < 201) as Hid
    by (vm_compute; reflexivity).
  assert ((validDraws (addDraws lowInputs) ∧ gameIdOf (addDraws lowInputs) < 201)
          ∨ (∃ j, (j < length wins + length draws)%nat
                  ∧ validDraws (gameDraws lowInputs j)
                  ∧ gameIdOf (gameDraws lowInputs j) < 201)) as Hlow
    by (left; split; [exact Hvalid|exact Hid]).
  split; [exact Hlow|].
  exact (runAllTests_fails_below_201 (λ _, "TypeError") lowInputs
           (mkSuite ∅ ∅) [] Hlow).
Defined.

Lemma even_pred (n : nat) : (0 < n)%nat → Nat.even (n - 1) = negb (Nat.even n).
Proof.
  intros Hn. replace n with (S (n - 1)) at 2 by lia.
  rewrite Nat.even_succ, <- Nat.negb_even. by rewrite negb_involutive.
Qed.

Lemma even_mod (n : nat) : (n mod 2 =? 0)%nat = Nat.even n.
Proof.
  destruct (Nat.even n) eqn:E.
  - apply Nat.even_spec in E as [k ->]. apply Nat.eqb_eq.
    by rewrite Nat.mul_comm, Nat.Div0.mod_mul.
  - apply Nat.eqb_neq. intros Hmod.
    apply Nat.Lcm0.mod_divide in Hmod as [k ->].
    rewrite Nat.mul_comm, Nat.even_mul in E. done.
Qed.

(** X23.  The names of the win tests are swapped.  For a game that runs
    as [testFullGame] expects with [isDraw = false], between two
    different players: when [runAllTests] names its test testPlayer1Win,
    the last move is the second player's, who then holds a line, and the
    check of the last move is the one with the text
    "Player 2 should have won"; when it names the test testPlayer2Win, it
    is the first player who holds a line, and the text is
    "Player 1 should have won". *)
Theorem win_test_names_swapped (p1 p2 : number) (game : list (Z * Z)) :
  legal game false = true → Qeq_bool p1 p2 = false →
  let final := boardAfter p1 p2 game (length game) in
  (winTestName game = "testPlayer1Win" →
   hasLine final p2 = true
   ∧ finalText false (length game - 1) = "Player 2 should have won")
  ∧ (winTestName game = "testPlayer2Win" →
     hasLine final p1 = true
     ∧ finalText false (length game - 1) = "Player 1 should have won").
Proof.
  intros Hlegal Hne final.
  destruct (legal_inv _ _ Hlegal) as (Hlen & Hplay & Hround).
  specialize (Hround (length game - 1)%nat ltac:(lia)).
  rewrite (proj2 (Nat.ltb_ge _ _)) in Hround by lia.
  replace (S (length game - 1)) with (length game) in Hround by lia.
  rewrite even_pred in Hround by lia.
  unfold winTestName, finalText. rewrite even_mod, even_pred by lia.
  subst final.
  rewrite (hasLine_boardAfter p1 p2 game Hne _ false Hplay).
  rewrite (hasLine_boardAfter p1 p2 game Hne _ true Hplay).
  destruct (Nat.even (length game)); cbn [negb] in *; split; done.
Qed.

Lemma win_test_names_swapped_witness :
  let game := [(0, 0); (1, 0); (0, 1); (1, 1); (0, 2)] in
  In game wins ∧ legal game false = true
  ∧ Qeq_bool Scenario.P1 Scenario.P2 = false
  ∧ winTestName game = "testPlayer2Win"
  ∧ hasLine (boardAfter Scenario.P1 Scenario.P2 game (length game)) Scenario.P1
    = true.
Proof.
  intros game.
  assert (legal game false = true) as Hlegal by (vm_compute; reflexivity).
  assert (Qeq_bool Scenario.P1 Scenario.P2 = false) as Hne
    by (vm_compute; reflexivity).
  split; [by left|]. split; [exact Hlegal|]. split; [exact Hne|].
  split; [reflexivity|].
  exact (proj1 (proj2 (win_test_names_swapped Scenario.P1 Scenario.P2 game
                         Hlegal Hne) eq_refl)).
Defined.

(** ** The suite knows every game of the registry *)

Lemma keeps_andThen {A B} (m : T A) (k : A → T B) :
  keeps m → (∀ a, keeps (k a)) → keeps (andThen m k).
Proof.
  intros Hm Hk w Hw. specialize (Hm w Hw). unfold andThen.
  destruct (m w) as [[a|t|] w']; cbn [snd] in *; [by apply Hk|done|done].
Qed.

Lemma keeps_same {A} (m : T A) : (∀ w, (m w).2 = w) → keeps m.
Proof. intros H w Hw. by rewrite H. Qed.

Lemma keeps_check (expr : bool) (text : string) : keeps (check expr text).
Proof. apply keeps_same. by destruct expr. Qed.

Lemma keeps_testGame (gameId : Z) : keeps (testGame gameId).
Proof.
  apply keeps_same. intros w. unfold testGame.
  by destruct (testGames w !! gameId).
Qed.

Lemma keeps_invalidGameId : keeps invalidGameId.
Proof.
  apply keeps_same. intros w.
  destruct (invalidGameId_run w) as (i & Hrun & _). by rewrite Hrun.
Qed.

Lemma keeps_setTestGame (gameId : Z) (game : number * number) :
  keeps (setTestGame gameId game).
Proof.
  intros w Hw k. unfold setTestGame. cbn [snd engine testGames].
  intros Hk. apply lookup_insert_None in Hk as [Hk _]. by apply Hw.
Qed.

Lemma keeps_call (c : call) {A} (m : M A) :
  isCreateGame c = false → (∀ s, (m s).2 = exec c s) → keeps (call_ m).
Proof.
  intros Hc Hm w Hw k. unfold call_. specialize (Hm (engine w)).
  assert (testGames w !! k = None → (m (engine w)).2 !! k = None) as Hkeep.
  { intros Hk. rewrite Hm.
    destruct (calls_are_local_aux c (engine w) k) as (_ & _ & Hnew).
    destruct (exec c (engine w) !! k) as [g'|] eqn:E; [|done].
    destruct Hnew as [[g Hg]|[Hcreate _]]; [by eexists| |congruence].
    by rewrite (Hw k Hk) in Hg. }
  destruct (m (engine w)) as [[a|e] s']; exact Hkeep.
Qed.

Lemma keeps_addPlayer (gameId : Z) (rnd : number) :
  keeps (call_ (addPlayer gameId rnd)).
Proof. by apply (keeps_call (AddPlayer gameId rnd)). Qed.

Lemma keeps_makeMove (gameId : Z) (playerId : number) (x y : Z) :
  keeps (call_ (makeMove gameId playerId x y)).
Proof. by apply (keeps_call (MakeMove gameId playerId x y)). Qed.

Lemma keeps_createTestGame (now : Z) (rnd : number) :
  0 ≤ now → random rnd → keeps (createTestGame now rnd).
Proof.
  intros Hnow [Hrnd _] w Hw k.
  destruct (testGames w !! Qfloor (num_mul (inject_Z now) rnd)) as [ps|] eqn:Hid.
  - rewrite createTestGame_known by (done || by eexists).
    cbn [snd engine testGames]. intros Hk.
    rewrite lookup_insert_ne by (intros <-; by rewrite Hid in Hk).
    by apply Hw.
  - rewrite createTestGame_new by done. cbn [snd engine testGames].
    intros Hk. apply lookup_insert_None in Hk as [Hk Hne].
    rewrite lookup_insert_ne by done. by apply Hw.
Qed.

Lemma keeps_forEach {A} (l : list A) (body : A → T unit) :
  (∀ a, keeps (body a)) → keeps (forEach l body).
Proof.
  intros Hbody. induction l as [|a l IH]; [by apply keeps_same|].
  cbn [forEach]. apply keeps_andThen; [apply Hbody|]. intros _. apply IH.
Qed.

Ltac keep :=
  repeat first
    [ apply keeps_invalidGameId
    | apply keeps_testGame
    | apply keeps_setTestGame
    | apply keeps_addPlayer
    | apply keeps_makeMove
    | apply keeps_check
    | apply keeps_createTestGame; solve [auto]
    | apply keeps_andThen; [|intros ?]
    | apply keeps_forEach; intros ?
    | apply keeps_same; reflexivity
    | progress cbv beta zeta
    | match goal with
      | |- keeps (if ?b then _ else _) => destruct b
      end ].

Lemma keeps_addTestPlayer (gameId : Z) (rnd : number) :
  keeps (addTestPlayer gameId rnd).
Proof. unfold addTestPlayer. keep. Qed.

Lemma keeps_expect (gameId : Z) (playerId : number) (x y : Z) (e : number)
    (text : string) :
  keeps (expect (makeMove gameId playerId x y) e text).
Proof. unfold expect. keep. Qed.

(** X24.  The suite never loses track of a game.  On a suite that knows
    every game of the registry, each test leaves a suite that knows every
    game of the registry, whether it passes or throws, when the times of
    its [createGame] calls are [>= 0] and their draws are in [0, 1);
    [testFullGame] on any game, legal or not. *)
Theorem tests_keep_track (w : Suite) (inputs : nat → Z * number)
    (now : Z) (rnd0 : number) (rnd : nat → number)
    (game : list (Z * Z)) (isDraw : bool) :
  tracked w →
  (∀ i, 0 ≤ (inputs i).1 ∧ random (inputs i).2) → 0 ≤ now → random rnd0 →
  tracked (testCreateGame inputs w).2
  ∧ tracked (testInvalidGameIds rnd w).2
  ∧ tracked (testAddPlayer now rnd0 rnd w).2
  ∧ tracked (testFullGame now rnd0 rnd game isDraw w).2.
Proof.
  intros Hw Hinputs Hnow Hrnd0. split_and!; revert w Hw.
  - change (keeps (testCreateGame inputs)). unfold testCreateGame.
    apply keeps_forEach. intros i. destruct (Hinputs i). keep.
  - change (keeps (testInvalidGameIds rnd)). unfold testInvalidGameIds.
    keep; apply keeps_addTestPlayer.
  - change (keeps (testAddPlayer now rnd0 rnd)). unfold testAddPlayer.
    keep; apply keeps_addTestPlayer.
  - change (keeps (testFullGame now rnd0 rnd game isDraw)).
    unfold testFullGame, fullGameRound. cbv zeta.
    keep; apply keeps_addTestPlayer || apply keeps_expect.
Qed.

Lemma tests_keep_track_witness :
  let w := mkSuite ∅ ∅ in
  let inputs := createInputs sampleInputs in
  let game := [(0, 0); (1, 0); (0, 1); (1, 1); (0, 2)] in
  tracked w
  ∧ (∀ i, 0 ≤ (inputs i).1 ∧ random (inputs i).2)
  ∧ 0 ≤ 2000 ∧ random (1 # 2)
  ∧ tracked (testCreateGame inputs w).2
  ∧ tracked (testInvalidGameIds quarterThenHalf w).2
  ∧ tracked (testAddPlayer 2000 (1 # 2) quarterThenHalf w).2
  ∧ tracked (testFullGame 2000 (1 # 2) quarterThenHalf game false w).2.
Proof.
  intros w inputs game.
  assert (tracked w) as Hw by (intros k _; apply lookup_empty).
  destruct sampleInputs_valid as (Hinputs & _).
  assert (0 ≤ 2000) as Hnow by lia.
  assert (random (1 # 2)) as Hhalf by (split; reflexivity || discriminate).
  split; [exact Hw|]. split; [exact Hinputs|]. split; [exact Hnow|].
  split; [exact Hhalf|].
  exact (tests_keep_track w inputs 2000 (1 # 2) quarterThenHalf game false
           Hw Hinputs Hnow Hhalf).
Defined.
